(** * A shallow embedding of [forth.c]

    The interpreter of [forth.c] (a small FORTH derived from the IOCCC entry
    buzzard.2) is embedded as executable Rocq functions: the core [m] is a
    map from cell indices to 16-bit values, every access is bounds-checked
    and an access outside the array is undefined behaviour ([None] or
    [Undefined]); the byte pointer [s] is a view on the same cells; streams
    are lists of bytes; the [for]/[switch] loop of [forth_run] is a step
    function on a machine state with an explicit control point. *)

From Stdlib Require Import ZArith List String Ascii Bool Lia.
Import ListNotations.
Local Open Scope Z_scope.

(** ** What the C implementation leaves to the platform *)

Class Platform := {
  big_endian : bool;   (* byte order of a [uint16_t] cell *)
  LONG_MAX : Z;        (* largest [long], the clamp of [strtol] *)
  file_name : string   (* what [__FILE__] expands to in [WARN] *)
}.

(** ** Constants of the source *)

Definition UINT16_MAX : Z := 65535.
Definition CORESZ : Z := (UINT16_MAX + 1) / 2.
Definition STROFF : Z := CORESZ / 2.
Definition STKSZ : Z := CORESZ / 64.
Definition BLKSZ : Z := 1024.
Definition CK (X : Z) : Z := Z.land X 32767. (* 0x7fff *)

(** Conversion to [uint16_t]. *)
Definition u16 (z : Z) : Z := z mod 65536.

(** [int] is taken to be 32 bits wide: [uint16_t] operands are promoted to
    it, and an [int] result above [INT_MAX] is an overflow. *)
Definition INT_MAX : Z := 2147483647.

(** [enum registers] *)
Definition DICTIONARY : Z := 0.
Definition RSTK : Z := 1.
Definition STATE : Z := 8.
Definition HEX : Z := 9.

(** [enum codes] *)
Inductive codes : Set :=
  | PUSH | COMPILE | RUN | DEFINE | IMMEDIATE | COMMENT | READ | LOAD
  | STORE | SUB | ADD | MUL | DIV | LESS | EXIT | EMIT | KEY | FROMR | TOR
  | JMP | JMPZ | PNUM | QUOTE | COMMA | EQUAL | SWAP | DUP | DROP | TAIL
  | BSAVE | BLOAD | LAST.

Definition all_codes : list codes :=
  [ PUSH; COMPILE; RUN; DEFINE; IMMEDIATE; COMMENT; READ; LOAD;
    STORE; SUB; ADD; MUL; DIV; LESS; EXIT; EMIT; KEY; FROMR; TOR;
    JMP; JMPZ; PNUM; QUOTE; COMMA; EQUAL; SWAP; DUP; DROP; TAIL;
    BSAVE; BLOAD; LAST ].

(** The integer value of an enumerator. *)
Definition code (c : codes) : Z :=
  match c with
  | PUSH => 0 | COMPILE => 1 | RUN => 2 | DEFINE => 3 | IMMEDIATE => 4
  | COMMENT => 5 | READ => 6 | LOAD => 7 | STORE => 8 | SUB => 9
  | ADD => 10 | MUL => 11 | DIV => 12 | LESS => 13 | EXIT => 14
  | EMIT => 15 | KEY => 16 | FROMR => 17 | TOR => 18 | JMP => 19
  | JMPZ => 20 | PNUM => 21 | QUOTE => 22 | COMMA => 23 | EQUAL => 24
  | SWAP => 25 | DUP => 26 | DROP => 27 | TAIL => 28 | BSAVE => 29
  | BLOAD => 30 | LAST => 31
  end.

(** The enumerator a cell value selects in [switch], if any. *)
Definition code_of (v : Z) : option codes :=
  if v <? 0 then None else nth_error all_codes (Z.to_nat v).

(** ** Bytes, characters and strings *)

Definition byte_of_ascii (c : ascii) : Z := Z.of_nat (nat_of_ascii c).
Definition ascii_of_byte (b : Z) : ascii := ascii_of_nat (Z.to_nat b).

Fixpoint bytes (s : string) : list Z :=
  match s with
  | EmptyString => []
  | String c r => byte_of_ascii c :: bytes r
  end.

Fixpoint text (l : list Z) : string :=
  match l with
  | [] => EmptyString
  | b :: r => String (ascii_of_byte b) (text r)
  end.

Definition list_eqb (a b : list Z) : bool :=
  if list_eq_dec Z.eq_dec a b then true else false.

(** [names], the words of the primitives from READ on. *)
Definition names : list string :=
  [ "read"; "@"; "!"; "-"; "+"; "*"; "/"; "<"; "exit";
    "emit"; "key"; "r>"; ">r"; "j"; "jz"; "."; "'"; ","; "="; "swap"; "dup";
    "drop"; "tail"; "save"; "load" ]%string.

(** *** Number formatting of [printf] *)

Definition digit_char (upper : bool) (d : Z) : Z :=
  if d <? 10 then 48 + d else (if upper then 55 else 87) + d.

Fixpoint fmt_loop (fuel : nat) (base : Z) (upper : bool) (n : Z)
    (acc : list Z) : list Z :=
  match fuel with
  | O => acc
  | S k =>
      let acc' := digit_char upper (n mod base) :: acc in
      if n / base =? 0 then acc' else fmt_loop k base upper (n / base) acc'
  end.

(** ["%u"], ["%d"] of a non-negative value, ["%X"] and ["%04x"]. *)
Definition fmt_u (n : Z) : list Z := fmt_loop 64 10 false n [].
Definition fmt_X (n : Z) : list Z := fmt_loop 64 16 true n [].
Definition fmt_04x (n : Z) : list Z :=
  let d := fmt_loop 64 16 false n [] in
  repeat 48 (4 - List.length d)%nat ++ d.

(** *** [strspn], [isnum] and [strtol] on the bytes of a C string *)

Definition isspace (c : Z) : bool :=
  (c =? 32) || ((9 <=? c) && (c <=? 13)).

Definition isdigit (c : Z) : bool := (48 <=? c) && (c <=? 57).

Fixpoint strspn (l accept : list Z) : nat :=
  match l with
  | c :: r => if existsb (Z.eqb c) accept then S (strspn r accept) else O
  | [] => O
  end.

(** [isnum]: the argument is the string without its terminator, so the byte
    at an index is looked up in the string followed by the terminator. *)
Definition isnum (l : list Z) : bool :=
  let l' := match l with 45 :: r => r | _ => l end in  (* s += *s == '-' *)
  nth (strspn l' (bytes "0123456789")) (l' ++ [0]) 0 =? 0.

Definition digit_val (c : Z) : option Z :=
  if isdigit c then Some (c - 48)
  else if (97 <=? c) && (c <=? 122) then Some (c - 87)
  else if (65 <=? c) && (c <=? 90) then Some (c - 55)
  else None.

Definition in_base (base c : Z) : bool :=
  match digit_val c with Some d => d <? base | None => false end.

Fixpoint strtol_digits (base : Z) (l : list Z) (acc : Z) : Z :=
  match l with
  | c :: r =>
      match digit_val c with
      | Some d => if d <? base then strtol_digits base r (acc * base + d)
                  else acc
      | None => acc
      end
  | [] => acc
  end.

Fixpoint skip_ws (l : list Z) : list Z :=
  match l with
  | c :: r => if isspace c then skip_ws r else l
  | [] => []
  end.

Notation "'let?' x ':=' e 'in' k" :=
  (match e with Some x => k | None => None end)
  (at level 10, x pattern, e at level 100, k at level 200).

Section WithPlatform.
Context {P : Platform}.

Definition LONG_MIN : Z := - LONG_MAX - 1.

(** [strtol(s, NULL, 0)]: white space, a sign, the radix from the prefix
    ([0x] hexadecimal, [0] octal, else decimal), the longest run of digits
    of that radix, the result clamped to the range of [long]. *)
Definition strtol0 (l : list Z) : Z :=
  let l1 := skip_ws l in
  let '(neg, l2) :=
    match l1 with
    | 45 :: r => (true, r)
    | 43 :: r => (false, r)
    | _ => (false, l1)
    end in
  let '(base, l3) :=
    match l2 with
    | 48 :: x :: h :: r =>
        if ((x =? 120) || (x =? 88)) && in_base 16 h then (16, h :: r)
        else (8, l2)
    | 48 :: _ => (8, l2)
    | _ => (10, l2)
    end in
  let v := strtol_digits base l3 0 in
  let v := if neg then - v else v in
  Z.max LONG_MIN (Z.min LONG_MAX v).

(** ** The core

    [uint16_t m[CORESZ]]: a cell map, read and written only through the
    bounds-checked [rd] and [wr]. [calloc] gives the all-zero core. *)

Definition mem : Type := Z -> Z.

Definition zero_mem : mem := fun _ => 0.

Definition upd (m : mem) (i v : Z) : mem :=
  fun j => if j =? i then v else m j.

Definition in_core (i : Z) : bool := (0 <=? i) && (i <? CORESZ).

Definition rd (m : mem) (i : Z) : option Z :=
  if in_core i then Some (m i) else None.

Definition wr (m : mem) (i v : Z) : option mem :=
  if in_core i then Some (upd m i (u16 v)) else None.

(** *** The byte view of the core, as through a pointer to [uint8_t] *)

Definition in_bytes (k : Z) : bool := (0 <=? k) && (k <? 2 * CORESZ).

(** Whether the byte at address [k] is the low-order half of its cell. *)
Definition is_low (k : Z) : bool :=
  if big_endian then k mod 2 =? 1 else k mod 2 =? 0.

Definition rdb (m : mem) (k : Z) : option Z :=
  if in_bytes k then
    let c := m (k / 2) in
    Some (if is_low k then c mod 256 else (c / 256) mod 256)
  else None.

Definition wrb (m : mem) (k b : Z) : option mem :=
  if in_bytes k then
    let c := m (k / 2) in
    let b := b mod 256 in
    Some (upd m (k / 2)
            (if is_low k then ((c / 256) mod 256) * 256 + b
             else b * 256 + c mod 256))
  else None.

(** The C string at byte address [p], without its terminator; [None] when
    no terminator is met before the end of the core, which is
    [2 * CORESZ - p] bytes away. *)
Fixpoint cstr_loop (fuel : nat) (m : mem) (p : Z) : option (list Z) :=
  match fuel with
  | O => None
  | S n =>
      let? b := rdb m p in
      if b =? 0 then Some []
      else let? r := cstr_loop n m (p + 1) in Some (b :: r)
  end.

Definition cstr (m : mem) (p : Z) : option (list Z) :=
  cstr_loop (Z.to_nat (2 * CORESZ - p)) m p.

(** [strcmp(p, q) == 0] *)
Definition strcmp_eq (m : mem) (p q : Z) : option bool :=
  let? a := cstr m p in
  let? b := cstr m q in
  Some (list_eqb a b).

Definition strlen (m : mem) (p : Z) : option Z :=
  let? a := cstr m p in Some (Z.of_nat (List.length a)).

Fixpoint wr_bytes (m : mem) (p : Z) (l : list Z) : option mem :=
  match l with
  | [] => Some m
  | b :: r => let? m' := wrb m p b in wr_bytes m' (p + 1) r
  end.

(** Storing a string with its terminator: [strcpy], and the store of
    [fscanf("%31s")]. *)
Definition wr_str (m : mem) (p : Z) (l : list Z) : option mem :=
  wr_bytes m p (l ++ [0]).

Fixpoint rd_bytes (m : mem) (p : Z) (n : nat) : list Z :=
  match n with
  | O => []
  | S k => match rdb m p with Some b => b | None => 0 end
           :: rd_bytes m (p + 1) k
  end.

(** ** Streams *)

(** [fscanf(in, "%31s", _)]: white space is skipped, then at most 31 bytes
    that are not white space are taken. [None] is the return value [EOF]
    (no byte left after the white space); otherwise the token and the rest
    of the stream. *)
Fixpoint take_tok (n : nat) (l : list Z) : list Z * list Z :=
  match n, l with
  | S n', c :: r =>
      if isspace c then ([], l)
      else let '(t, r') := take_tok n' r in (c :: t, r')
  | _, _ => ([], l)
  end.

Definition scan_token (inp : list Z) : option (list Z * list Z) :=
  match skip_ws inp with
  | [] => None
  | l => Some (take_tok 31 l)
  end.

Definition EOF : Z := -1.

(** [fgetc] *)
Definition fgetc (inp : list Z) : Z * list Z :=
  match inp with
  | c :: r => (c mod 256, r)
  | [] => (EOF, [])
  end.

(** The loop of COMMENT: bytes are consumed up to and including a line
    feed; a zero byte or the end of the stream also ends it. *)
Fixpoint skip_line (inp : list Z) : list Z :=
  match inp with
  | c :: r => if (c mod 256 =? 0) || (c mod 256 =? 10) then r else skip_line r
  | [] => []
  end.

(** ** The world outside: the diagnostic stream and the block files *)

Record world := mkworld {
  files : string -> option (list Z);  (* contents of the files that exist *)
  can_create : string -> bool;        (* does fopen(_, "wb") succeed *)
  room : Z                            (* bytes the device still accepts *)
}.

Record sys := mksys {
  stderr : list Z;
  fs : world
}.

Definition quote_char : string := String (ascii_of_nat 34) EmptyString.
Definition newline : string := String (ascii_of_nat 10) EmptyString.

(** The line [WARN(MSG)] prints when it stands at line [line]. *)
Definition warn_text (msg : string) (line : Z) : list Z :=
  bytes ("( error " ++ quote_char ++ msg ++ quote_char ++ " " ++ file_name
         ++ " ")%string ++ fmt_u line ++ bytes (" )" ++ newline)%string.

(** [WARN]: the value of the macro is the value of [fprintf], the number of
    bytes printed. *)
Definition WARN (msg : string) (line : Z) (y : sys) : Z * sys :=
  let t := warn_text msg line in
  (Z.of_nat (List.length t), mksys (stderr y ++ t) (fs y)).

Definition block_name (id : Z) : string :=
  (text (fmt_04x id) ++ ".blk")%string.

Definition put_file (w : world) (name : string) (c : list Z) (used : Z)
    : world :=
  mkworld (fun n => if String.eqb n name then Some c else files w n)
          (can_create w) (room w - used).

(** [blockio(p, poffset, id, rw)] with [p] the core; [rw] is a character.
    The arithmetic on [p] is on bytes. The result is the return value, the
    core and the world after the call. The offsets the guard lets through
    leave the 1024 bytes inside the core, so the store of [fread] always
    succeeds. *)
Definition blockio (m : mem) (poffset id rw : Z) (y : sys)
    : Z * mem * sys :=
  if (poffset >? CORESZ - BLKSZ) || negb ((rw =? 119) || (rw =? 114)) then
    let '(_, y') := WARN "invalid address or mode" 67 y in (-1, m, y')
  else
    let name := block_name id in
    if rw =? 114 then
      match files (fs y) name with
      | None => let '(_, y') := WARN "could not open file" 70 y in (-1, m, y')
      | Some c =>
          let got := firstn (Z.to_nat BLKSZ) c in
          match wr_bytes m poffset got with
          | Some m' =>
              (if Z.of_nat (List.length got) =? BLKSZ then 0 else -1, m', y)
          | None => (-1, m, y)
          end
      end
    else
      if can_create (fs y) name then
        let n := Z.max 0 (Z.min BLKSZ (room (fs y))) in
        let put := rd_bytes m poffset (Z.to_nat n) in
        (if n =? BLKSZ then 0 else -1, m,
         mksys (stderr y) (put_file (fs y) name put n))
      else
        let '(_, y') := WARN "could not open file" 70 y in (-1, m, y').

(** ** The runtime object *)

Record forth_obj := mkobj {
  o_in : list Z;     (* what is left to read from [in] *)
  o_out : list Z;    (* what has been written to [out] *)
  o_s : Z;           (* [s], as a byte address in the core *)
  o_S : Z;           (* [S], as a cell index in the core *)
  o_L : Z;
  o_I : Z;
  o_t : Z;
  o_w : Z;
  o_f : Z;
  o_x : Z;
  o_m : mem;
  o_invalid : bool
}.

Definition set_in (v : list Z) (o : forth_obj) : forth_obj :=
  mkobj v (o_out o) (o_s o) (o_S o) (o_L o) (o_I o) (o_t o) (o_w o) (o_f o)
        (o_x o) (o_m o) (o_invalid o).
Definition set_out (v : list Z) (o : forth_obj) : forth_obj :=
  mkobj (o_in o) v (o_s o) (o_S o) (o_L o) (o_I o) (o_t o) (o_w o) (o_f o)
        (o_x o) (o_m o) (o_invalid o).
Definition set_L (v : Z) (o : forth_obj) : forth_obj :=
  mkobj (o_in o) (o_out o) (o_s o) (o_S o) v (o_I o) (o_t o) (o_w o) (o_f o)
        (o_x o) (o_m o) (o_invalid o).
Definition set_t (v : Z) (o : forth_obj) : forth_obj :=
  mkobj (o_in o) (o_out o) (o_s o) (o_S o) (o_L o) (o_I o) v (o_w o) (o_f o)
        (o_x o) (o_m o) (o_invalid o).
Definition set_m (v : mem) (o : forth_obj) : forth_obj :=
  mkobj (o_in o) (o_out o) (o_s o) (o_S o) (o_L o) (o_I o) (o_t o) (o_w o)
        (o_f o) (o_x o) v (o_invalid o).
Definition set_invalid (v : bool) (o : forth_obj) : forth_obj :=
  mkobj (o_in o) (o_out o) (o_s o) (o_S o) (o_L o) (o_I o) (o_t o) (o_w o)
        (o_f o) (o_x o) (o_m o) v.

(** [m[m[0]++] = v]. The increment of [m[0]] and the store are unsequenced,
    so the statement is undefined when they meet in cell 0. *)
Definition append (m : mem) (v : Z) : option mem :=
  let? h := rd m DICTIONARY in
  if h =? DICTIONARY then None
  else
    let? m1 := wr m DICTIONARY (h + 1) in
    wr m1 h v.

(** [compile_word(o, code, str)]; [str] is [None] for a null pointer. The
    result is the return value and the object after the call. *)
Definition compile_word (o : forth_obj) (code : Z) (str : option (list Z))
    : option (Z * forth_obj) :=
  let? m1 := append (o_m o) (o_L o) in             (* m[m[0]++] = o->L *)
  let? h := rd m1 DICTIONARY in
  let L' := u16 (h - 1) in                         (* o->L = *m - 1 *)
  let? m2 := append m1 (o_t o) in                  (* m[m[0]++] = o->t *)
  let? m3 := append m2 code in                     (* m[m[0]++] = code *)
  let p := o_s o + o_t o in
  let? (r, m4, inp) :=
    match str with
    | Some l => let? m4 := wr_str m3 p l in Some (0, m4, o_in o)
    | None =>
        match scan_token (o_in o) with
        | Some (tok, rest) => let? m4 := wr_str m3 p tok in Some (1, m4, rest)
        | None => Some (EOF, m3, [])
        end
    end in
  let? n := strlen m4 p in
  Some (r, set_t (u16 (o_t o + n + 1)) (set_in inp (set_L L' (set_m m4 o)))).

(** [find]: the loop leaves at the first [w] whose name equals the token at
    [s]. A cell index has 65536 values and the loop changes nothing, so a
    walk that has not left after 65536 links never leaves; with the reads
    outside the core this is the result [None]. *)
Fixpoint find_loop (fuel : nat) (o : forth_obj) (w : Z) : option Z :=
  match fuel with
  | O => None
  | S n =>
      let? off := rd (o_m o) (w + 1) in
      let? same := strcmp_eq (o_m o) (o_s o) (o_s o + off) in
      if same then Some w
      else let? w' := rd (o_m o) w in find_loop n o w'
  end.

Definition find (o : forth_obj) : option Z :=
  find_loop (Z.to_nat 65536) o (o_L o).

Fixpoint compile_names (o : forth_obj) (l : list string) (w : Z)
    : option forth_obj :=
  match l with
  | [] => Some o
  | n :: r =>
      let? (_, o1) := compile_word o (code COMPILE) (Some (bytes n)) in
      let? m1 := append (o_m o1) w in
      compile_names (set_m m1 o1) r (u16 (w + 1))
  end.

(** [forth_init(in, out)] for streams that are not null and a [calloc] that
    succeeds; the arguments are what [in] holds and what [out] holds. *)
Definition forth_init (inp out : list Z) : option forth_obj :=
  let m := zero_mem in
  let o := mkobj inp out STROFF 0 0 0 0 0 0 0 m false in
  let? m := wr m DICTIONARY 32 in
  let o := set_t 32 (set_L 1 o) in
  let? w := rd m DICTIONARY in
  let? m := append m (code READ) in
  let? m := append m (code RUN) in
  let? ip := rd m DICTIONARY in
  let? m := append m w in
  let? m := append m (ip - 1) in
  let o := set_m m o in
  let? (_, o) := compile_word o (code DEFINE) (Some (bytes ":")) in
  let? (_, o) := compile_word o (code IMMEDIATE) (Some (bytes "immediate")) in
  let? (_, o) := compile_word o (code COMMENT) (Some (bytes "#")) in
  let? o := compile_names o names (code READ) in
  let? m := wr (o_m o) RSTK (CORESZ - STKSZ) in
  Some (mkobj (o_in o) (o_out o) (o_s o) (CORESZ - 2 * STKSZ) (o_L o) ip
              (o_t o) (o_w o) (o_f o) (o_x o) m (o_invalid o)).

(** ** The loop of [forth_run]

    The locals [S], [I] and [f] of [forth_run] are copied from the object on
    entry and never copied back; [m] is a pointer to the core of the object.
    [x] lives in the control point. *)

Record machine := mkmach {
  obj : forth_obj;
  l_S : Z;          (* the local [S], as a cell index *)
  l_I : Z;
  l_f : Z;
  env : sys
}.

Definition core (st : machine) : mem := o_m (obj st).

Definition set_obj (o : forth_obj) (st : machine) : machine :=
  mkmach o (l_S st) (l_I st) (l_f st) (env st).
Definition set_core (m : mem) (st : machine) : machine :=
  set_obj (set_m m (obj st)) st.
Definition set_S (v : Z) (st : machine) : machine :=
  mkmach (obj st) v (l_I st) (l_f st) (env st).
Definition set_I (v : Z) (st : machine) : machine :=
  mkmach (obj st) (l_S st) v (l_f st) (env st).
Definition set_f (v : Z) (st : machine) : machine :=
  mkmach (obj st) (l_S st) (l_I st) (u16 v) (env st).
Definition set_env (y : sys) (st : machine) : machine :=
  mkmach (obj st) (l_S st) (l_I st) (l_f st) y.

(** Where the loop stands: at the head of the [for] (the fetch
    [x = m[I++]]), or at the label [INNER] with the value of [x]. *)
Inductive ctl : Set :=
  | Fetch
  | Inner (x : Z).

Inductive outcome : Type :=
  | Running (c : ctl) (st : machine)
  | Returned (r : Z) (o : forth_obj) (y : sys)
  | Undefined.

Notation "'let!' x ':=' e 'in' k" :=
  (match e with Some x => k | None => Undefined end)
  (at level 10, x pattern, e at level 100, k at level 200).

(** [*++S = v] *)
Definition push (v : Z) (st : machine) : option machine :=
  let? m' := wr (core st) (l_S st + 1) v in
  Some (set_S (l_S st + 1) (set_core m' st)).

(** [*S--], with the machine after the decrement *)
Definition pop (st : machine) : option (Z * machine) :=
  let? v := rd (core st) (l_S st) in
  Some (v, set_S (l_S st - 1) st).

(** [m[++m[RSTK]] = v]; undefined when the store falls on [m[RSTK]], whose
    increment is unsequenced with it. *)
Definition rpush (v : Z) (m : mem) : option mem :=
  let? r := rd m RSTK in
  let r' := u16 (r + 1) in
  if r' =? RSTK then None
  else
    let? m1 := wr m RSTK r' in
    wr m1 r' v.

(** [m[m[RSTK]--]]; undefined when the cell read is [m[RSTK]]. *)
Definition rpop (m : mem) : option (Z * mem) :=
  let? r := rd m RSTK in
  if r =? RSTK then None
  else
    let? v := rd m r in
    let? m1 := wr m RSTK (r - 1) in
    Some (v, m1).

(** [m[RSTK]--] *)
Definition rdrop (m : mem) : option mem :=
  let? r := rd m RSTK in wr m RSTK (r - 1).

Definition fail (st : machine) : outcome :=
  Returned (-1) (set_invalid true (obj st)) (env st).

(** The token of READ has been stored at [s]; the rest of the case, up to
    its [goto INNER] or its [break]. [isnum] reads the token as READ stored
    it. [strtol] is called on [o->s] after the first store of its branch,
    [m[m[0]++] = 2] or [*++S = f], so it reads the buffer as that store
    left it: when the store lands in the buffer of the token, the bytes
    parsed are not those of the token. The argument of [strtol] has to be
    a string: a buffer without a terminator before the end of the core is
    undefined behaviour. *)
Definition dispatch (st : machine) : outcome :=
  let o := obj st in
  let! w := find o in
  if negb (w - 1 =? 0) then
    let x := u16 (w + 2) in
    let! mode := rd (core st) STATE in
    if mode =? 0 then
      let! tag := rd (core st) x in
      if tag =? code COMPILE then Running (Inner (u16 (x + 1))) st
      else Running (Inner x) st
    else Running (Inner x) st
  else
    let! tok := cstr (core st) (o_s o) in
    if negb (isnum tok) then
      let '(_, y) := WARN "not a word or number" 168 (env st) in
      Running Fetch (set_env y st)
    else
      let! mode := rd (core st) STATE in
      if negb (mode =? 0) then
        let! m1 := append (core st) 2 in        (* m[m[0]++] = 2; *)
        let! tok1 := cstr m1 (o_s o) in  (* m[m[0]++] = strtol(o->s, ..); *)
        let! m2 := append m1 (strtol0 tok1) in
        Running Fetch (set_core m2 st)
      else
        let! st1 := push (l_f st) st in         (* *++S = f; *)
        let! tok1 := cstr (core st1) (o_s o) in (* f = strtol(o->s, ..); *)
        Running Fetch (set_f (strtol0 tok1) st1).

(** One case of the [switch]; [x] is the local after the increment. *)
Definition exec (c : codes) (x : Z) (st : machine) : outcome :=
  match c with
  | PUSH | QUOTE =>                       (* *++S = f; f = m[I++]; *)
      let! st1 := push (l_f st) st in
      let! v := rd (core st1) (l_I st1) in
      Running Fetch (set_f v (set_I (u16 (l_I st1 + 1)) st1))
  | COMPILE =>                            (* m[m[0]++] = x; *)
      let! m1 := append (core st) x in
      Running Fetch (set_core m1 st)
  | RUN =>                                (* m[++m[RSTK]] = I; I = x; *)
      let! m1 := rpush (l_I st) (core st) in
      Running Fetch (set_I x (set_core m1 st))
  | DEFINE =>
      let! m1 := wr (core st) STATE 1 in
      let! (r, o1) := compile_word (set_m m1 (obj st)) (code COMPILE) None in
      if r <? 0 then fail (set_obj o1 st)
      else
        let! m2 := append (o_m o1) (code RUN) in
        Running Fetch (set_obj (set_m m2 o1) st)
  | IMMEDIATE =>                          (* *m -= 2; m[m[0]++] = RUN; *)
      let! h := rd (core st) DICTIONARY in
      let! m1 := wr (core st) DICTIONARY (h - 2) in
      let! m2 := append m1 (code RUN) in
      Running Fetch (set_core m2 st)
  | COMMENT =>
      Running Fetch (set_obj (set_in (skip_line (o_in (obj st))) (obj st)) st)
  | READ =>
      let! m1 := rdrop (core st) in       (* m[RSTK]--; *)
      match scan_token (o_in (obj st)) with
      | None => Returned 0 (set_in [] (set_m m1 (obj st))) (env st)
      | Some (tok, rest) =>
          let! m2 := wr_str m1 (o_s (obj st)) tok in
          dispatch (set_obj (set_in rest (set_m m2 (obj st))) st)
      end
  | LOAD =>                               (* f = m[CK(f)]; *)
      let! v := rd (core st) (CK (l_f st)) in
      Running Fetch (set_f v st)
  | STORE =>                              (* m[CK(f)] = *S--; f = *S--; *)
      let! (v, st1) := pop st in
      let! m1 := wr (core st1) (CK (l_f st1)) v in
      let! (v', st2) := pop (set_core m1 st1) in
      Running Fetch (set_f v' st2)
  | SUB =>                                (* f = *S-- - f; *)
      let! (v, st1) := pop st in
      Running Fetch (set_f (v - l_f st) st1)
  | ADD =>                                (* f = *S-- + f; *)
      let! (v, st1) := pop st in
      Running Fetch (set_f (v + l_f st) st1)
  | MUL =>                                (* f *= *S--; *)
      let! (v, st1) := pop st in
      if l_f st * v >? INT_MAX then Undefined
      else Running Fetch (set_f (l_f st * v) st1)
  | DIV =>                 (* f = f ? *S--/f : WARN("div 0"), 0; where the
                              comma binds less than the assignment *)
      if negb (l_f st =? 0) then
        let! (v, st1) := pop st in
        Running Fetch (set_f (Z.quot v (l_f st)) st1)
      else
        let '(n, y) := WARN "div 0" 184 (env st) in
        Running Fetch (set_f n (set_env y st))
  | LESS =>                               (* f = *S-- > f; *)
      let! (v, st1) := pop st in
      Running Fetch (set_f (if v >? l_f st then 1 else 0) st1)
  | EXIT =>                               (* I = m[m[RSTK]--]; *)
      let! (v, m1) := rpop (core st) in
      Running Fetch (set_I v (set_core m1 st))
  | EMIT =>                               (* fputc(f, o->out); f = *S--; *)
      let o1 := set_out (o_out (obj st) ++ [l_f st mod 256]) (obj st) in
      let! (v, st1) := pop (set_obj o1 st) in
      Running Fetch (set_f v st1)
  | KEY =>                                (* *++S = f; f = fgetc(o->in); *)
      let! st1 := push (l_f st) st in
      let '(c, rest) := fgetc (o_in (obj st1)) in
      Running Fetch (set_f c (set_obj (set_in rest (obj st1)) st1))
  | FROMR =>                              (* *++S = f; f = m[m[RSTK]--]; *)
      let! st1 := push (l_f st) st in
      let! (v, m1) := rpop (core st1) in
      Running Fetch (set_f v (set_core m1 st1))
  | TOR =>                                (* m[++m[RSTK]] = f; f = *S--; *)
      let! m1 := rpush (l_f st) (core st) in
      let! (v, st1) := pop (set_core m1 st) in
      Running Fetch (set_f v st1)
  | JMP =>                                (* I += m[I]; *)
      let! v := rd (core st) (l_I st) in
      Running Fetch (set_I (u16 (l_I st + v)) st)
  | JMPZ =>                       (* I += f == 0 ? m[I] : 1; f = *S--; *)
      let! d := (if l_f st =? 0 then rd (core st) (l_I st) else Some 1) in
      let! (v, st1) := pop (set_I (u16 (l_I st + d)) st) in
      Running Fetch (set_f v st1)
  | PNUM =>        (* fprintf(o->out, m[HEX] ? "%X" : "%u", f); f = *S--; *)
      let! h := rd (core st) HEX in
      let digits := if negb (h =? 0) then fmt_X (l_f st) else fmt_u (l_f st) in
      let o1 := set_out (o_out (obj st) ++ digits) (obj st) in
      let! (v, st1) := pop (set_obj o1 st) in
      Running Fetch (set_f v st1)
  | COMMA =>                              (* m[m[0]++] = f; f = *S--; *)
      let! m1 := append (core st) (l_f st) in
      let! (v, st1) := pop (set_core m1 st) in
      Running Fetch (set_f v st1)
  | EQUAL =>                              (* f = *S-- == f; *)
      let! (v, st1) := pop st in
      Running Fetch (set_f (if v =? l_f st then 1 else 0) st1)
  | SWAP =>                               (* w = f; f = *S--; *++S = w; *)
      let w := l_f st in
      let! (v, st1) := pop st in
      let! st2 := push w (set_f v st1) in
      Running Fetch st2
  | DUP =>                                (* *++S = f; *)
      let! st1 := push (l_f st) st in
      Running Fetch st1
  | DROP =>                               (* f = *S--; *)
      let! (v, st1) := pop st in
      Running Fetch (set_f v st1)
  | TAIL =>                               (* m[RSTK]--; *)
      let! m1 := rdrop (core st) in
      Running Fetch (set_core m1 st)
  | BSAVE =>                              (* f = blockio(m,*S--,f,'w'); *)
      let! (v, st1) := pop st in
      let '(r, m1, y) := blockio (core st1) v (l_f st) 119 (env st1) in
      Running Fetch (set_f r (set_env y (set_core m1 st1)))
  | BLOAD =>                              (* f = blockio(m,*S--,f,'r'); *)
      let! (v, st1) := pop st in
      let '(r, m1, y) := blockio (core st1) v (l_f st) 114 (env st1) in
      Running Fetch (set_f r (set_env y (set_core m1 st1)))
  | LAST =>                               (* default: *)
      let '(_, y) := WARN "unknown instruction" 205 (env st) in
      fail (set_env y st)
  end.

(** One step: the fetch of the [for], or one pass through the [switch]. *)
Definition step (c : ctl) (st : machine) : outcome :=
  match c with
  | Fetch =>                               (* x = m[I++] *)
      let! x := rd (core st) (l_I st) in
      let st1 := set_I (u16 (l_I st + 1)) st in
      if x =? 0 then Returned 0 (obj st1) (env st1)
      else Running (Inner x) st1
  | Inner x =>                             (* switch (m[x++]) *)
      let! op := rd (core st) x in
      match code_of op with
      | Some c => exec c (u16 (x + 1)) st
      | None => exec LAST (u16 (x + 1)) st
      end
  end.

Fixpoint run (fuel : nat) (c : ctl) (st : machine) : outcome :=
  match fuel with
  | O => Running c st
  | S n =>
      match step c st with
      | Running c' st' => run n c' st'
      | r => r
      end
  end.

(** The machine [forth_run] starts its loop in. *)
Definition enter (o : forth_obj) (y : sys) : machine :=
  mkmach o (o_S o) (o_I o) (o_f o) y.

(** [forth_run(o)] for an object that is not null, given [fuel] steps; the
    outcome is [Running] when the steps did not suffice. *)
Definition forth_run (fuel : nat) (o : forth_obj) (y : sys) : outcome :=
  if o_invalid o then
    let '(_, y') := WARN "invalid obj" 139 y in
    Returned (-1) (set_invalid true o) y'
  else run fuel Fetch (enter o y).

End WithPlatform.

(** ** Notions the statements below use *)

Section Notions.
Context {P : Platform}.

(** The first part of READ on a stream that still holds a token:
    [m[RSTK]--], then the token stored at [s]. *)
Definition token_read (st : machine) : option machine :=
  let? m1 := rdrop (core st) in
  match scan_token (o_in (obj st)) with
  | None => None
  | Some (tok, rest) =>
      let? m2 := wr_str m1 (o_s (obj st)) tok in
      Some (set_obj (set_in rest (set_m m2 (obj st))) st)
  end.

(** Where the machine is back at the head of the loop once READ has handed
    the token over: at once for a number, after one more pass through the
    [switch] for a word. *)
Definition after_dispatch (st : machine) : option machine :=
  match dispatch st with
  | Running Fetch st' => Some st'
  | Running (Inner x) st' =>
      match step (Inner x) st' with
      | Running Fetch st'' => Some st''
      | _ => None
      end
  | _ => None
  end.

(** Successive calls of [forth_run] on one object, each with its own
    fuel; the return values and the object after the last call. *)
Fixpoint calls (fuels : list nat) (o : forth_obj) (y : sys)
    : option (list Z * forth_obj * sys) :=
  match fuels with
  | [] => Some ([], o, y)
  | n :: rest =>
      match forth_run n o y with
      | Returned r o' y' =>
          let? (rs, o'', y'') := calls rest o' y' in Some (r :: rs, o'', y'')
      | _ => None
      end
  end.

(** The dictionary as the list of its entries, from the entry [w] back to
    the sentinel 1: every entry has a link cell, a name-offset cell and a
    name stored at that offset of [s]. *)
Inductive chain (o : forth_obj) : Z -> list Z -> Prop :=
  | chain_nil : chain o 1 []
  | chain_cons (w off w' : Z) (nm : list Z) (ws : list Z) :
      w <> 1 ->
      rd (o_m o) (w + 1) = Some off ->
      cstr (o_m o) (o_s o + off) = Some nm ->
      rd (o_m o) w = Some w' ->
      chain o w' ws ->
      chain o w (w :: ws).

(** The name stored for the entry [w]. *)
Definition name_of (o : forth_obj) (w : Z) : list Z :=
  match rd (o_m o) (w + 1) with
  | Some off => match cstr (o_m o) (o_s o + off) with
                | Some nm => nm
                | None => []
                end
  | None => []
  end.

(** The first entry of the list named [tok], or the sentinel 1. *)
Fixpoint first_named (o : forth_obj) (tok : list Z) (ws : list Z) : Z :=
  match ws with
  | [] => 1
  | w :: r => if list_eqb tok (name_of o w) then w else first_named o tok r
  end.

(** The dictionary with its layout: a chain whose entries lie from cell
    32 up to the free pointer [h] and whose names lie from byte 32 of [s]
    up to the free pointer [t] of the name table. *)
Inductive dict (o : forth_obj) (h t : Z) : Z -> list Z -> Prop :=
  | dict_nil : dict o h t 1 []
  | dict_cons (w off w' : Z) (nm : list Z) (ws : list Z) :
      32 <= w -> w + 2 < h ->
      32 <= off -> off + Z.of_nat (List.length nm) < t ->
      rd (o_m o) (w + 1) = Some off ->
      cstr (o_m o) (o_s o + off) = Some nm ->
      rd (o_m o) w = Some w' ->
      dict o h t w' ws ->
      dict o h t w (w :: ws).

(** The invariant of the dictionary: the laid-out chain from [o->L], the
    name offset 0 of the sentinel, [s] where [forth_init] put it. *)
Definition dictionary (o : forth_obj) (ws : list Z) : Prop :=
  dict o (o_m o DICTIONARY) (o_t o) (o_L o) ws /\
  rd (o_m o) 2 = Some 0 /\
  o_s o = STROFF.

(** Room for one more header below the name table and for one more name
    in the core. *)
Definition room_for_word (o : forth_obj) : Prop :=
  32 <= o_m o DICTIONARY /\ o_m o DICTIONARY + 3 <= 8192 /\
  32 <= o_t o /\ o_t o + 32 < 49152.

(** The core after the three cells of a header have been appended at the
    free pointer [h]. *)
Definition with_header (m : mem) (h L t c : Z) : mem :=
  upd (upd (upd (upd (upd (upd m DICTIONARY (u16 (h + 1))) h (u16 L))
                        DICTIONARY (u16 (h + 1 + 1))) (h + 1) (u16 t))
             DICTIONARY (u16 (h + 2 + 1))) (h + 2) (u16 c).

(** A checker for [dict]. *)
Fixpoint dictb (o : forth_obj) (h t w : Z) (ws : list Z) : bool :=
  match ws with
  | [] => w =? 1
  | w1 :: r =>
      (w =? w1) && (32 <=? w) && (w + 2 <? h) &&
      match rd (o_m o) (w + 1), rd (o_m o) w with
      | Some off, Some w' =>
          match cstr (o_m o) (o_s o + off) with
          | Some nm =>
              (32 <=? off) && (off + Z.of_nat (List.length nm) <? t)
              && dictb o h t w' r
          | None => false
          end
      | _, _ => false
      end
  end.

(** A checker for [chain]. *)
Fixpoint chainb (o : forth_obj) (w : Z) (ws : list Z) : bool :=
  match ws with
  | [] => w =? 1
  | w1 :: r =>
      (w =? w1) && negb (w =? 1) &&
      match rd (o_m o) (w + 1), rd (o_m o) w with
      | Some off, Some w' =>
          match cstr (o_m o) (o_s o + off) with
          | Some _ => chainb o w' r
          | None => false
          end
      | _, _ => false
      end
  end.

(** The bootstrap word [forth_init] lays down at cells 32 to 35. *)
Definition bootstrap_word (m : mem) : Prop :=
  m 32 = code READ /\ m 33 = code RUN /\ m 34 = 32 /\ m 35 = 33.

(** What ran after READ left the instruction pointer, the return-stack
    pointer register and the cells of the bootstrap word as they were. *)
Definition untouched (st1 st2 : machine) : Prop :=
  l_I st2 = l_I st1 /\ core st2 RSTK = core st1 RSTK /\
  core st2 33 = core st1 33 /\ core st2 35 = core st1 35.

(** The primitives that only pop and only read the core. *)
Definition quiet (c : codes) : bool :=
  match c with
  | LOAD | SUB | ADD | MUL | DIV | LESS | EMIT | PNUM | EQUAL | DROP => true
  | _ => false
  end.

(** As the spec words it: an optionally-signed decimal or radix-prefixed
    integer. *)
Definition spec_integer_token (tok : list Z) : bool :=
  let body := match tok with 45 :: r => r | 43 :: r => r | _ => tok end in
  match body with
  | [] => false
  | 48 :: x :: h :: r =>
      if (x =? 120) || (x =? 88) then forallb (in_base 16) (h :: r)
      else forallb isdigit body
  | _ => forallb isdigit body
  end.

(** The literal rule as the spec words it, in execute mode: an integer
    token that is no word is pushed. *)
Definition integer_tokens_are_pushed : Prop :=
  forall (st st1 : machine) (x : Z) (tok : list Z),
    rd (core st) x = Some (code READ) ->
    token_read st = Some st1 ->
    find (obj st1) = Some 1 ->
    cstr (core st1) (o_s (obj st1)) = Some tok ->
    spec_integer_token tok = true ->
    core st1 STATE = 0 ->
    0 <= l_S st1 + 1 < CORESZ ->
    exists st2,
      step (Inner x) st = Running Fetch st2 /\
      l_S st2 = l_S st1 + 1 /\ core st2 (l_S st2) = l_f st1.

(** The validation of [blockio] as the spec words it: an offset outside
    the half-open interval from 0 to the capacity less the block size, or a
    mode that is neither read nor write, fails and opens no block. *)
Definition blockio_refuses_outside_half_open : Prop :=
  forall (m : mem) (poffset id rw : Z) (y : sys),
    0 <= poffset < 65536 ->
    ~ (0 <= poffset < CORESZ - BLKSZ) \/ (rw <> 119 /\ rw <> 114) ->
    exists y', blockio m poffset id rw y = (-1, m, y') /\ fs y' = fs y.

(** Load and store as the spec words it: no access outside the core,
    whatever the machine. *)
Definition load_store_stay_in_core : Prop :=
  forall (st : machine) (x : Z) (c : codes),
    c = LOAD \/ c = STORE ->
    rd (core st) x = Some (code c) ->
    step (Inner x) st <> Undefined.

(** The fields of the object [forth_run] only reads: it copies [S], [I],
    [f] and [x] into locals and never copies them back, and it never
    assigns [s] or [w]. *)
Definition kept (o o' : forth_obj) : Prop :=
  o_s o' = o_s o /\ o_S o' = o_S o /\ o_I o' = o_I o /\
  o_f o' = o_f o /\ o_x o' = o_x o /\ o_w o' = o_w o.

(** What one step leaves of the object: the fields [forth_run] only reads,
    and the latch, which is set exactly when the step returns -1. *)
Definition step_post (st : machine) (r : outcome) : Prop :=
  match r with
  | Running _ st' =>
      kept (obj st) (obj st') /\ o_invalid (obj st') = o_invalid (obj st)
  | Returned v o' _ =>
      kept (obj st) o' /\
      ((v = 0 /\ o_invalid o' = o_invalid (obj st)) \/
       (v = -1 /\ o_invalid o' = true))
  | Undefined => True
  end.

(** What [strtol(s, NULL, 0)] reads before the clamp to the range of
    [long]. *)
Definition strtol_raw (l : list Z) : Z :=
  let l1 := skip_ws l in
  let '(neg, l2) :=
    match l1 with
    | 45 :: r => (true, r)
    | 43 :: r => (false, r)
    | _ => (false, l1)
    end in
  let '(base, l3) :=
    match l2 with
    | 48 :: x :: h :: r =>
        if ((x =? 120) || (x =? 88)) && in_base 16 h then (16, h :: r)
        else (8, l2)
    | 48 :: _ => (8, l2)
    | _ => (10, l2)
    end in
  let v := strtol_digits base l3 0 in
  if neg then - v else v.

(** The cell [i] holds no byte of the string [tok] stored at the byte
    address [p], nor its terminator. *)
Definition clear_of (p : Z) (tok : list Z) (i : Z) : Prop :=
  2 * i + 1 < p \/ p + Z.of_nat (List.length tok) < 2 * i.

(** The machine after the RUN cell of the bootstrap word has made its
    call from the machine [st2]: the return address 36 stored at the cell
    [r], [m[RSTK]] set to [r], [I] at the head of the bootstrap word. *)
Definition after_call (r : Z) (st2 : machine) : machine :=
  set_I 34 (set_core (upd (upd (core st2) RSTK r) r 36) st2).

End Notions.

(** ** A platform and states to evaluate on *)

#[global] Instance lp64_le : Platform :=
  {| big_endian := false;
     LONG_MAX := 9223372036854775807;
     file_name := "forth.c" |}.

(** No block file exists, every file can be created, the device has room. *)
Definition empty_world : world :=
  mkworld (fun _ => None) (fun _ => true) 1048576.

Definition quiet_sys : sys := mksys [] empty_world.

Definition dead_obj : forth_obj :=
  mkobj [] [] STROFF 0 0 0 0 0 0 0 zero_mem true.

Definition dead_machine : machine := mkmach dead_obj 0 0 0 quiet_sys.

Definition the {A : Type} (d : A) (x : option A) : A :=
  match x with Some a => a | None => d end.

(** The object [forth_init] returns for the input [inp] and an empty
    output, and the machine [forth_run] enters its loop with. *)
Definition booted (inp : string) : forth_obj :=
  the dead_obj (forth_init (bytes inp) []).

Definition boot_machine (inp : string) : machine :=
  enter (booted inp) quiet_sys.

(** What a run shows to the outside: the return value, the output and the
    diagnostics. *)
(** The machine and the control point [n] steps into the run on [inp]. *)
Definition machine_at (n : nat) (inp : string) : ctl * machine :=
  match run n Fetch (boot_machine inp) with
  | Running c st => (c, st)
  | _ => (Fetch, dead_machine)
  end.

(** The [n] values from [start] on. *)
Fixpoint cells (n : nat) (start : Z) : list Z :=
  match n with
  | O => []
  | S k => start :: cells k (start + 1)
  end.

(** The entries [forth_init] links, most recent first: the 25 primitives
    of [names], then [#], [immediate] and [:]. *)
Definition init_entries : list Z :=
  map (fun k => 141 - 4 * Z.of_nat k) (seq 0 25) ++ [42; 39; 36].

(** The machine READ hands to the dispatch when it is at cell 32. *)
Definition read_at (n : nat) (inp : string) : machine :=
  the dead_machine (token_read (snd (machine_at n inp))).

(** The object a run returned. *)
Definition returned_obj (r : outcome) : forth_obj :=
  match r with
  | Returned _ o _ => o
  | _ => dead_obj
  end.

Definition observe (r : outcome) : option (Z * string * string) :=
  match r with
  | Returned v o y => Some (v, text (o_out o), text (stderr y))
  | _ => None
  end.

(** * Facts about the embedding *)

Section Facts.
Context {P : Platform}.

(** ** The core *)

Lemma in_core_iff i : in_core i = true <-> 0 <= i < CORESZ.
Proof. unfold in_core. rewrite andb_true_iff, Z.leb_le, Z.ltb_lt. tauto. Qed.

Lemma rd_some m i : 0 <= i < CORESZ -> rd m i = Some (m i).
Proof. intros H. unfold rd. apply in_core_iff in H. now rewrite H. Qed.

Lemma rd_inv m i v : rd m i = Some v -> 0 <= i < CORESZ /\ v = m i.
Proof.
  unfold rd. destruct (in_core i) eqn:E; [|discriminate].
  intros [= <-]. apply in_core_iff in E. tauto.
Qed.

Lemma rd_none m i : ~ 0 <= i < CORESZ -> rd m i = None.
Proof.
  intros H. unfold rd. destruct (in_core i) eqn:E; [|reflexivity].
  apply in_core_iff in E. tauto.
Qed.

Lemma wr_some m i v : 0 <= i < CORESZ -> wr m i v = Some (upd m i (u16 v)).
Proof. intros H. unfold wr. apply in_core_iff in H. now rewrite H. Qed.

Lemma wr_inv m i v m' :
  wr m i v = Some m' -> 0 <= i < CORESZ /\ m' = upd m i (u16 v).
Proof.
  unfold wr. destruct (in_core i) eqn:E; [|discriminate].
  intros [= <-]. apply in_core_iff in E. tauto.
Qed.

Lemma upd_same m i v : upd m i v i = v.
Proof. unfold upd. now rewrite Z.eqb_refl. Qed.

Lemma upd_other m i v j : j <> i -> upd m i v j = m j.
Proof. intros H. unfold upd. apply Z.eqb_neq in H. now rewrite H. Qed.

Lemma CORESZ_val : CORESZ = 32768.
Proof. reflexivity. Qed.

Ltac core_lia :=
  rewrite ?CORESZ_val in *; unfold DICTIONARY, RSTK, STATE, HEX in *; lia.

Lemma u16_range z : 0 <= u16 z < 65536.
Proof. unfold u16. apply Z.mod_pos_bound. lia. Qed.

Lemma u16_small z : 0 <= z < 65536 -> u16 z = z.
Proof. intros H. unfold u16. now apply Z.mod_small. Qed.

Lemma CK_range f : 0 <= CK f < CORESZ.
Proof.
  unfold CK. change 32767 with (Z.ones 15). rewrite Z.land_ones by lia.
  change CORESZ with (2 ^ 15). apply Z.mod_pos_bound. lia.
Qed.

(** ** Decoding and the two stacks *)

Lemma code_of_code c : code_of (code c) = Some c.
Proof. destruct c; reflexivity. Qed.

Lemma step_inner x st c :
  rd (core st) x = Some (code c) ->
  step (Inner x) st = exec c (u16 (x + 1)) st.
Proof. intros H. simpl. rewrite H, code_of_code. reflexivity. Qed.

Lemma pop_some st v :
  rd (core st) (l_S st) = Some v -> pop st = Some (v, set_S (l_S st - 1) st).
Proof. intros H. unfold pop. now rewrite H. Qed.

Lemma push_some st v :
  0 <= l_S st + 1 < CORESZ ->
  push v st
  = Some (set_S (l_S st + 1) (set_core (upd (core st) (l_S st + 1) (u16 v)) st)).
Proof. intros H. unfold push. now rewrite wr_some. Qed.

(** ** The diagnostic line *)

Lemma bytes_app a b : bytes (a ++ b) = bytes a ++ bytes b.
Proof. induction a as [|c a IH]; simpl; [reflexivity | now rewrite IH]. Qed.

Lemma bytes_length a : List.length (bytes a) = String.length a.
Proof. induction a as [|c a IH]; simpl; [reflexivity | now rewrite IH]. Qed.

Lemma warn_length msg line :
  List.length (warn_text msg line)
  = (String.length msg + String.length file_name
     + List.length (fmt_u line) + 15)%nat.
Proof.
  unfold warn_text. rewrite !List.length_app, !bytes_app, !List.length_app.
  rewrite !bytes_length. simpl. lia.
Qed.

Ltac fields :=
  cbn [l_f l_S l_I obj env core set_f set_S set_I set_env set_obj set_core
       set_m set_in set_out set_L set_t set_invalid o_m o_invalid o_in o_out
       o_s o_S o_L o_I o_t o_w o_f o_x stderr fs fst snd].

Lemma fmt_u_184 : fmt_u 184 = [49; 56; 52].
Proof. reflexivity. Qed.

(** C3. DIV with the accumulator 0: the diagnostic is printed, the latch
    and the core are left alone and the loop goes on, but the accumulator
    becomes what [fprintf] returned, the length of the diagnostic line (23
    bytes and the file name), not 0; nothing is popped. *)
Theorem div_by_zero_keeps_fprintf_count (st : machine) (x : Z) :
  rd (core st) x = Some (code DIV) ->
  l_f st = 0 ->
  exists st',
    step (Inner x) st = Running Fetch st' /\
    l_f st' = u16 (23 + Z.of_nat (String.length file_name)) /\
    l_S st' = l_S st /\
    core st' = core st /\
    o_invalid (obj st') = o_invalid (obj st) /\
    stderr (env st') = stderr (env st) ++ warn_text "div 0" 184.
Proof.
  intros Hx Hf. rewrite (step_inner _ _ _ Hx). unfold exec. rewrite Hf.
  change (negb (0 =? 0)) with false. cbv iota. unfold WARN.
  eexists. split; [reflexivity|]. fields. repeat split.
  rewrite warn_length, fmt_u_184. f_equal.
  change (String.length "div 0") with 5%nat.
  change (List.length [49; 56; 52]) with 3%nat. lia.
Qed.

Theorem divide_nonzero (st : machine) (x v : Z) :
  rd (core st) x = Some (code DIV) ->
  l_f st <> 0 ->
  rd (core st) (l_S st) = Some v ->
  step (Inner x) st
  = Running Fetch (set_f (Z.quot v (l_f st)) (set_S (l_S st - 1) st)).
Proof.
  intros Hx Hf Hv. rewrite (step_inner _ _ _ Hx). unfold exec.
  apply Z.eqb_neq in Hf. rewrite Hf. cbn [negb].
  rewrite (pop_some _ _ Hv). reflexivity.
Qed.

(** C6. LESS pops the second value from the top and leaves 1 in the
    accumulator when that second value is greater than the top, 0
    otherwise: the comparison is the converse of less-than. *)
Theorem less_compares_greater (st : machine) (x v : Z) :
  rd (core st) x = Some (code LESS) ->
  rd (core st) (l_S st) = Some v ->
  step (Inner x) st
  = Running Fetch
      (set_f (if v >? l_f st then 1 else 0) (set_S (l_S st - 1) st)).
Proof.
  intros Hx Hv. rewrite (step_inner _ _ _ Hx). unfold exec.
  rewrite (pop_some _ _ Hv). reflexivity.
Qed.

(** C10. With [S] in the core, EMIT appends the low byte of the
    accumulator to the output and PNUM appends its digits (decimal when
    [m[HEX]] is 0, upper-case hexadecimal otherwise); both then pop the
    next value of the data stack into the accumulator, so [S] goes down by
    one; the core is unchanged. *)
Theorem emit_and_print_consume (st : machine) (x v : Z) :
  rd (core st) (l_S st) = Some v ->
  (rd (core st) x = Some (code EMIT) ->
   step (Inner x) st
   = Running Fetch
       (set_f v (set_S (l_S st - 1)
          (set_obj (set_out (o_out (obj st) ++ [l_f st mod 256]) (obj st))
                   st)))) /\
  (rd (core st) x = Some (code PNUM) ->
   step (Inner x) st
   = Running Fetch
       (set_f v (set_S (l_S st - 1)
          (set_obj (set_out (o_out (obj st) ++
                      (if core st HEX =? 0 then fmt_u (l_f st)
                       else fmt_X (l_f st))) (obj st))
                   st)))).
Proof.
  intros Hv. split; intros Hx; rewrite (step_inner _ _ _ Hx); unfold exec.
  - unfold pop. fields. fold (core st). rewrite Hv. reflexivity.
  - rewrite rd_some by core_lia.
    unfold pop. fields. fold (core st). rewrite Hv.
    destruct (core st HEX =? 0); reflexivity.
Qed.

(** C8, amended. The cell LOAD reads and STORE writes is [f & 0x7fff],
    which lies in the core for every [f]. LOAD accesses no other cell.
    STORE also pops twice through [S]: when [S] and [S - 1] are in the
    core it writes the popped value to the masked cell, changes no other
    cell and pops the next value into the accumulator. *)
Theorem load_store_address_masked (st : machine) (x : Z) :
  0 <= CK (l_f st) < CORESZ /\
  (rd (core st) x = Some (code LOAD) ->
   step (Inner x) st = Running Fetch (set_f (core st (CK (l_f st))) st)) /\
  (rd (core st) x = Some (code STORE) ->
   forall v, rd (core st) (l_S st) = Some v -> 0 <= l_S st - 1 ->
   exists st',
     step (Inner x) st = Running Fetch st' /\
     core st' = upd (core st) (CK (l_f st)) (u16 v) /\
     l_S st' = l_S st - 2 /\
     l_f st' = u16 (core st' (l_S st - 1))).
Proof.
  split; [apply CK_range|]. split; intros Hx.
  - rewrite (step_inner _ _ _ Hx). unfold exec.
    now rewrite (rd_some _ _ (CK_range _)).
  - intros v Hv Hlow. rewrite (step_inner _ _ _ Hx). unfold exec.
    rewrite (pop_some _ _ Hv). fields.
    rewrite (wr_some _ _ _ (CK_range _)).
    apply rd_inv in Hv. destruct Hv as [HS _].
    unfold pop. fields. rewrite rd_some by lia.
    eexists. split; [reflexivity|]. fields. repeat split. lia.
Qed.

Lemma set_invalid_id o : o_invalid o = true -> set_invalid true o = o.
Proof. destruct o. cbn. now intros ->. Qed.

Lemma forth_run_invalid fuel o y :
  o_invalid o = true ->
  forth_run fuel o y = Returned (-1) o (snd (WARN "invalid obj" 139 y)).
Proof.
  intros H. unfold forth_run. rewrite H. cbn [WARN snd].
  now rewrite set_invalid_id.
Qed.

(** C4. Once the invalid flag is set, every call of [forth_run], with any
    fuel, returns -1 at once and leaves the object, its core included, as
    it was; the block files are left alone too. *)
Theorem invalid_latch_fails_fast (fuels : list nat) (o : forth_obj) (y : sys) :
  o_invalid o = true ->
  exists y',
    calls fuels o y = Some (repeat (-1) (List.length fuels), o, y') /\
    fs y' = fs y.
Proof.
  intros H. revert y. induction fuels as [|n fuels IH]; intros y.
  - exists y. split; reflexivity.
  - cbn [calls]. rewrite forth_run_invalid by assumption.
    destruct (IH (snd (WARN "invalid obj" 139 y))) as (y' & -> & Hfs).
    exists y'. split; [reflexivity|]. rewrite Hfs. reflexivity.
Qed.

Lemma unknown_opcode_sets_latch (st : machine) (x op : Z) :
  rd (core st) x = Some op ->
  code_of op = None \/ code_of op = Some LAST ->
  step (Inner x) st
  = Returned (-1) (set_invalid true (obj st))
      (snd (WARN "unknown instruction" 205 (env st))).
Proof.
  intros Hx [H|H]; cbn [step]; rewrite Hx, H; reflexivity.
Qed.

Lemma compile_word_eof o c r o1 :
  scan_token (o_in o) = None ->
  compile_word o c None = Some (r, o1) -> r = EOF.
Proof.
  intros Htok. unfold compile_word. rewrite Htok.
  repeat match goal with
         | |- context [match ?e with Some _ => _ | None => None end] =>
             destruct e; try discriminate
         end.
  now intros [= <- _].
Qed.

Lemma failed_definition_sets_latch (st : machine) (x r : Z) m1 o1 :
  rd (core st) x = Some (code DEFINE) ->
  scan_token (o_in (obj st)) = None ->
  wr (core st) STATE 1 = Some m1 ->
  compile_word (set_m m1 (obj st)) (code COMPILE) None = Some (r, o1) ->
  step (Inner x) st = Returned (-1) (set_invalid true o1) (env st).
Proof.
  intros Hx Htok Hm Hc. rewrite (step_inner _ _ _ Hx). unfold exec.
  rewrite Hm, Hc. apply compile_word_eof in Hc; [|exact Htok].
  subst r. reflexivity.
Qed.

Lemma u16_idem z : u16 (u16 z) = u16 z.
Proof. unfold u16. apply Z.mod_mod. lia. Qed.

Lemma step_read (st st1 : machine) (x : Z) :
  rd (core st) x = Some (code READ) ->
  token_read st = Some st1 ->
  step (Inner x) st = dispatch st1.
Proof.
  intros Hx Ht. rewrite (step_inner _ _ _ Hx). unfold exec.
  unfold token_read in Ht.
  destruct (rdrop (core st)) as [m1|]; [|discriminate].
  destruct (scan_token (o_in (obj st))) as [[tok rest]|]; [|discriminate].
  destruct (wr_str m1 (o_s (obj st)) tok) as [m2|]; [|discriminate].
  now injection Ht as <-.
Qed.

Lemma token_read_locals (st st1 : machine) :
  token_read st = Some st1 ->
  l_S st1 = l_S st /\ l_I st1 = l_I st /\ l_f st1 = l_f st /\
  env st1 = env st /\ o_invalid (obj st1) = o_invalid (obj st) /\
  o_s (obj st1) = o_s (obj st) /\ o_out (obj st1) = o_out (obj st).
Proof.
  unfold token_read.
  destruct (rdrop (core st)) as [m1|]; [|discriminate].
  destruct (scan_token (o_in (obj st))) as [[tok rest]|]; [|discriminate].
  destruct (wr_str m1 (o_s (obj st)) tok) as [m2|]; [|discriminate].
  intros [= <-]. repeat split.
Qed.

Lemma append_some m h v :
  rd m DICTIONARY = Some h -> 0 < h < CORESZ ->
  append m v = Some (upd (upd m DICTIONARY (u16 (h + 1))) h (u16 v)).
Proof.
  intros Hh Hr. unfold append. rewrite Hh.
  assert (E : (h =? DICTIONARY) = false) by (apply Z.eqb_neq; core_lia).
  rewrite E.
  rewrite wr_some by core_lia. now rewrite wr_some by lia.
Qed.

Lemma rpush_some m r v :
  rd m RSTK = Some r -> 0 <= u16 (r + 1) < CORESZ -> u16 (r + 1) <> RSTK ->
  rpush v m
  = Some (upd (upd m RSTK (u16 (r + 1))) (u16 (r + 1)) (u16 v)).
Proof.
  intros Hr Hc Hn. unfold rpush. rewrite Hr.
  apply Z.eqb_neq in Hn. rewrite Hn.
  rewrite wr_some by core_lia. rewrite u16_idem. now rewrite wr_some by lia.
Qed.

Lemma dispatch_found (st1 : machine) (w : Z) :
  find (obj st1) = Some w ->
  w <> 1 ->
  dispatch st1
  = if core st1 STATE =? 0 then
      match rd (core st1) (u16 (w + 2)) with
      | Some tag =>
          if tag =? code COMPILE
          then Running (Inner (u16 (u16 (w + 2) + 1))) st1
          else Running (Inner (u16 (w + 2))) st1
      | None => Undefined
      end
    else Running (Inner (u16 (w + 2))) st1.
Proof.
  intros Hw Hw1. unfold dispatch. rewrite Hw.
  assert (Hne : negb (w - 1 =? 0) = true)
    by (apply negb_true_iff, Z.eqb_neq; lia).
  rewrite Hne. rewrite (rd_some _ STATE) by core_lia. reflexivity.
Qed.

(** C1. READ has stored a token that [find] resolves to the entry [w]. If
    the tag cell of [w] holds COMPILE: in execute mode ([m[STATE]] is 0)
    the switch is entered at body cell 0, the cell after the tag; in
    compile mode ([m[STATE]] is not 0) the tag itself runs and appends the
    address of body cell 0 at the dictionary free pointer [m[0]], which
    moves up by one. If the tag cell holds RUN the entry is called,
    whatever the mode: [I] is pushed on the return stack and becomes the
    address of body cell 0. *)
Theorem read_dispatch_obeys_mode (st st1 : machine) (x w : Z) :
  rd (core st) x = Some (code READ) ->
  token_read st = Some st1 ->
  find (obj st1) = Some w ->
  w <> 1 ->
  let tag := u16 (w + 2) in
  let body := u16 (tag + 1) in
  (rd (core st1) tag = Some (code COMPILE) ->
   (core st1 STATE = 0 ->
    step (Inner x) st = Running (Inner body) st1) /\
   (core st1 STATE <> 0 ->
    forall h, rd (core st1) DICTIONARY = Some h -> 0 < h < CORESZ ->
    run 2 (Inner x) st
    = Running Fetch
        (set_core (upd (upd (core st1) DICTIONARY (u16 (h + 1))) h body)
                  st1))) /\
  (rd (core st1) tag = Some (code RUN) ->
   forall r, rd (core st1) RSTK = Some r ->
   0 <= u16 (r + 1) < CORESZ -> u16 (r + 1) <> RSTK ->
   run 2 (Inner x) st
   = Running Fetch
       (set_I body
          (set_core (upd (upd (core st1) RSTK (u16 (r + 1)))
                         (u16 (r + 1)) (u16 (l_I st))) st1))).
Proof.
  intros Hx Ht Hw Hw1 tag body.
  pose proof (step_read _ _ _ Hx Ht) as Hs.
  rewrite (dispatch_found _ _ Hw Hw1) in Hs. fold tag in Hs. fold body in Hs.
  split.
  - intros Htag. rewrite Htag in Hs. split.
    + intros Hm. rewrite Hm in Hs. exact Hs.
    + intros Hm h Hh Hr. apply Z.eqb_neq in Hm. rewrite Hm in Hs.
      cbn [run]. rewrite Hs. rewrite (step_inner _ _ _ Htag).
      unfold exec. fold body. rewrite (append_some _ _ _ Hh Hr).
      unfold body. rewrite u16_idem. reflexivity.
  - intros Htag r Hr Hc Hn.
    assert (Hs' : step (Inner x) st = Running (Inner tag) st1).
    { rewrite Hs, Htag. destruct (core st1 STATE =? 0); reflexivity. }
    cbn [run]. rewrite Hs'. rewrite (step_inner _ _ _ Htag).
    unfold exec. fold body. rewrite (rpush_some _ _ _ Hr Hc Hn).
    destruct (token_read_locals _ _ Ht) as (_ & -> & _). reflexivity.
Qed.

(** ** Bytes stored through [s] touch only the cells under them *)

Lemma wrb_other m k b m' i :
  wrb m k b = Some m' -> i <> k / 2 -> m' i = m i.
Proof.
  unfold wrb. destruct (in_bytes k); [|discriminate].
  intros [= <-] H. now apply upd_other.
Qed.

Lemma wr_bytes_outside l : forall m p m' i,
  wr_bytes m p l = Some m' ->
  2 * i + 1 < p \/ p + Z.of_nat (List.length l) <= 2 * i ->
  m' i = m i.
Proof.
  induction l as [|b l IH]; intros m p m' i; cbn [wr_bytes].
  - now intros [= <-].
  - destruct (wrb m p b) as [m1|] eqn:E; [|discriminate].
    intros Hw Hi. rewrite (IH _ _ _ i Hw).
    + apply (wrb_other _ _ _ _ _ E).
      cbn [List.length] in Hi. Z.to_euclidean_division_equations. lia.
    + cbn [List.length] in Hi. lia.
Qed.

Lemma take_tok_length n : forall l, (List.length (fst (take_tok n l)) <= n)%nat.
Proof.
  induction n as [|n IH]; intros l; cbn [take_tok].
  - destruct l; cbn; lia.
  - destruct l as [|c r]; [cbn; lia|].
    destruct (isspace c); [cbn; lia|].
    specialize (IH r). destruct (take_tok n r) as [t r']. cbn in *. lia.
Qed.

Lemma scan_token_length inp tok rest :
  scan_token inp = Some (tok, rest) -> (List.length tok <= 31)%nat.
Proof.
  unfold scan_token. destruct (skip_ws inp) as [|c l]; [discriminate|].
  intros H. pose proof (take_tok_length 31 (c :: l)) as K.
  replace (take_tok 31 (c :: l)) with (tok, rest) in K by congruence.
  exact K.
Qed.

(** READ up to the stored token: below the token buffer only [m[RSTK]]
    changes, and it is decremented. *)
Lemma token_read_core (st st1 : machine) :
  token_read st = Some st1 ->
  o_s (obj st) = STROFF ->
  forall i, i < 8192 ->
  core st1 i = if i =? RSTK then u16 (core st RSTK - 1) else core st i.
Proof.
  unfold token_read, rdrop. intros Ht Hs i Hi.
  rewrite (rd_some _ RSTK) in Ht by core_lia.
  rewrite wr_some in Ht by core_lia.
  destruct (scan_token (o_in (obj st))) as [[tok rest]|] eqn:Etok;
    [|discriminate].
  destruct (wr_str _ (o_s (obj st)) tok) as [m2|] eqn:Ew; [|discriminate].
  injection Ht as <-. unfold core at 1. fields.
  unfold wr_str in Ew. rewrite (wr_bytes_outside _ _ _ _ i Ew).
  - unfold upd. reflexivity.
  - left. rewrite Hs. change STROFF with 16384. lia.
Qed.

(** ** The outer loop and the return stack *)

Lemma run_add n : forall k c st c' st',
  run n c st = Running c' st' -> run (n + k) c st = run k c' st'.
Proof.
  induction n as [|n IH]; intros k c st c' st'; cbn [run Nat.add].
  - now intros [= <- <-].
  - destruct (step c st) as [c1 st1| |]; try discriminate.
    apply IH.
Qed.

Lemma step_fetch (st : machine) (x : Z) :
  rd (core st) (l_I st) = Some x -> x <> 0 ->
  step Fetch st = Running (Inner x) (set_I (u16 (l_I st + 1)) st).
Proof.
  intros H Hx. cbn [step]. rewrite H. apply Z.eqb_neq in Hx. now rewrite Hx.
Qed.

Lemma run_step n c st c1 st1 :
  step c st = Running c1 st1 -> run (S n) c st = run n c1 st1.
Proof. intros H. cbn [run]. now rewrite H. Qed.


(** One iteration of the outer loop: the fetch of the READ cell and READ,
    which hands the token to the dispatch; and, from the machine [st2]
    that what the token resolved to has left, the fetch of the RUN cell and
    its call. *)
Lemma outer_iteration (st st1 st2 : machine) :
  bootstrap_word (core st) ->
  l_I st = 34 ->
  o_s (obj st) = STROFF ->
  0 <= core st RSTK < CORESZ ->
  core st RSTK <> RSTK ->
  token_read (set_I 35 st) = Some st1 ->
  untouched st1 st2 ->
  step Fetch st = Running (Inner 32) (set_I 35 st) /\
  step (Inner 32) (set_I 35 st) = dispatch st1 /\
  core st1 RSTK = u16 (core st RSTK - 1) /\
  run 2 Fetch st2 = Running Fetch (after_call (core st RSTK) st2).
Proof.
  intros (B32 & B33 & B34 & B35) HI Hs Hr Hr1 Ht (UI & UR & U33 & U35).
  pose proof (token_read_core _ _ Ht Hs) as Hcore.
  change (core (set_I 35 st)) with (core st) in Hcore.
  assert (R1 : core st1 RSTK = u16 (core st RSTK - 1)).
  { rewrite (Hcore RSTK) by core_lia. reflexivity. }
  split.
  { (* the fetch of the cell READ is called from *)
    rewrite (step_fetch st 32).
    - rewrite HI. reflexivity.
    - rewrite HI. rewrite rd_some by core_lia. now rewrite B34.
    - lia. }
  split.
  { (* READ *)
    apply step_read; [|exact Ht].
    change (core (set_I 35 st)) with (core st).
    rewrite rd_some by core_lia. now rewrite B32. }
  split; [exact R1|].
  (* the fetch of the RUN cell and the call it makes *)
  destruct (token_read_locals _ _ Ht) as (_ & HI1 & _).
  change (l_I (set_I 35 st)) with 35 in HI1.
  assert (S4 : step Fetch st2 = Running (Inner 33) (set_I 36 st2)).
  { rewrite (step_fetch st2 33).
    - rewrite UI, HI1. reflexivity.
    - rewrite UI, HI1. rewrite rd_some by core_lia. rewrite U35.
      rewrite (Hcore 35) by lia. change (35 =? RSTK) with false.
      cbv iota. now rewrite B35.
    - lia. }
  assert (Hback : u16 (core st2 RSTK + 1) = core st RSTK).
  { rewrite UR, R1. unfold u16. rewrite CORESZ_val in Hr.
    rewrite Zplus_mod_idemp_l.
    replace (core st RSTK - 1 + 1) with (core st RSTK) by lia.
    apply Z.mod_small. lia. }
  assert (S5 : step (Inner 33) (set_I 36 st2)
               = Running Fetch (after_call (core st RSTK) st2)).
  { rewrite (step_inner _ _ RUN).
    - unfold exec. change (core (set_I 36 st2)) with (core st2).
      rewrite (rpush_some _ (core st2 RSTK)).
      + rewrite Hback. reflexivity.
      + apply rd_some. core_lia.
      + now rewrite Hback.
      + now rewrite Hback.
    - change (core (set_I 36 st2)) with (core st2).
      rewrite rd_some by core_lia. rewrite U33.
      rewrite (Hcore 33) by lia. change (33 =? RSTK) with false.
      cbv iota. now rewrite B33. }
  rewrite (run_step _ _ _ _ _ S4), (run_step _ _ _ _ _ S5). reflexivity.
Qed.

Lemma after_call_back (r : Z) (st2 : machine) :
  r <> RSTK ->
  l_I (after_call r st2) = 34 /\ core (after_call r st2) RSTK = r /\
  core (after_call r st2) r = 36 /\
  l_S (after_call r st2) = l_S st2 /\ l_f (after_call r st2) = l_f st2 /\
  forall i, i <> RSTK -> i <> r -> core (after_call r st2) i = core st2 i.
Proof.
  intros Hr. unfold after_call, core. fields.
  split; [reflexivity|].
  split; [rewrite upd_other by exact (not_eq_sym Hr); apply upd_same|].
  split; [apply upd_same|].
  split; [reflexivity|]. split; [reflexivity|].
  intros i H1 H2. now rewrite !upd_other by assumption.
Qed.



(** ** Tokens that are not words *)

Lemma cstr_loop_no_nul fuel : forall m p l,
  cstr_loop fuel m p = Some l -> ~ In 0 l.
Proof.
  induction fuel as [|n IH]; intros m p l; cbn [cstr_loop]; [discriminate|].
  destruct (rdb m p) as [b|]; [|discriminate].
  destruct (Z.eqb_spec b 0) as [->|Hb].
  - intros [= <-]. intros [].
  - destruct (cstr_loop n m (p + 1)) as [r|] eqn:E; [|discriminate].
    intros [= <-] [H|H]; [congruence | exact (IH _ _ _ E H)].
Qed.

Lemma cstr_no_nul m p l : cstr m p = Some l -> ~ In 0 l.
Proof. apply cstr_loop_no_nul. Qed.

Lemma digits_accept c : existsb (Z.eqb c) (bytes "0123456789") = isdigit c.
Proof.
  change (bytes "0123456789") with [48; 49; 50; 51; 52; 53; 54; 55; 56; 57].
  unfold isdigit. cbn [existsb].
  repeat match goal with
         | |- context [?a =? ?b] => destruct (Z.eqb_spec a b)
         end;
  destruct (Z.leb_spec 48 c); destruct (Z.leb_spec c 57);
  cbn; try reflexivity; lia.
Qed.

Lemma digits_then_nul l :
  ~ In 0 l ->
  (nth (strspn l (bytes "0123456789")) (l ++ [0]) 0 =? 0) = true
  <-> Forall (fun c => isdigit c = true) l.
Proof.
  induction l as [|c r IH]; intros Hn.
  - cbn. split; [constructor | reflexivity].
  - cbn [strspn]. rewrite digits_accept.
    destruct (isdigit c) eqn:Ec.
    + cbn [nth app]. rewrite IH by (intros H; apply Hn; now right).
      split; intros H; [now constructor | now inversion H].
    + cbn [nth app]. split.
      * intros H. apply Z.eqb_eq in H. exfalso. apply Hn. now left.
      * intros H. inversion H. congruence.
Qed.

(** [isnum] accepts exactly an optional minus sign followed by decimal
    digits only. *)
Lemma isnum_spec (tok : list Z) :
  ~ In 0 tok ->
  isnum tok = true
  <-> Forall (fun c => isdigit c = true)
        (match tok with 45 :: r => r | _ => tok end).
Proof.
  intros Hn. unfold isnum. apply digits_then_nul.
  destruct tok as [|c r]; [exact Hn|].
  destruct (Z.eqb_spec c 45) as [->|Hc].
  - intros H. apply Hn. now right.
  - assert (E : match c with 45 => r | _ => c :: r end = c :: r).
    { destruct c as [|p|p]; try reflexivity.
      do 6 (destruct p as [p|p|]; try reflexivity). congruence. }
    rewrite E. exact Hn.
Qed.


Lemma rdb_upd_other m i v k : k / 2 <> i -> rdb (upd m i v) k = rdb m k.
Proof. intros H. unfold rdb. now rewrite upd_other. Qed.

Lemma cstr_loop_frame fuel : forall m m' p nm,
  cstr_loop fuel m p = Some nm ->
  (forall k, p <= k <= p + Z.of_nat (List.length nm) ->
             rdb m' k = rdb m k) ->
  cstr_loop fuel m' p = Some nm.
Proof.
  induction fuel as [|n IH]; intros m m' p nm; cbn [cstr_loop];
    [discriminate|].
  destruct (rdb m p) as [b|] eqn:Eb; [|discriminate].
  destruct (Z.eqb_spec b 0) as [->|Hb].
  - intros [= <-] Hk. rewrite (Hk p) by (cbn; lia). rewrite Eb. reflexivity.
  - destruct (cstr_loop n m (p + 1)) as [r|] eqn:Er; [|discriminate].
    intros [= <-] Hk. rewrite (Hk p) by (cbn [List.length]; lia).
    rewrite Eb. apply Z.eqb_neq in Hb. rewrite Hb.
    rewrite (IH _ m' _ _ Er); [reflexivity|].
    intros k Hr. apply Hk. cbn [List.length]. lia.
Qed.

Lemma cstr_frame m m' p nm :
  cstr m p = Some nm ->
  (forall k, p <= k <= p + Z.of_nat (List.length nm) ->
             rdb m' k = rdb m k) ->
  cstr m' p = Some nm.
Proof. apply cstr_loop_frame. Qed.

Lemma cstr_upd_clear m p tok i v :
  cstr m p = Some tok -> clear_of p tok i ->
  cstr (upd m i v) p = Some tok.
Proof.
  intros Hc Hi. apply (cstr_frame m); [exact Hc|].
  intros k Hk. apply rdb_upd_other. unfold clear_of in Hi.
  Z.to_euclidean_division_equations. lia.
Qed.

Lemma dispatch_not_found (st1 : machine) (tok : list Z) :
  find (obj st1) = Some 1 ->
  cstr (core st1) (o_s (obj st1)) = Some tok ->
  dispatch st1
  = if negb (isnum tok) then
      Running Fetch
        (set_env (snd (WARN "not a word or number" 168 (env st1))) st1)
    else if negb (core st1 STATE =? 0) then
      match append (core st1) 2 with
      | Some m1 =>
          match cstr m1 (o_s (obj st1)) with
          | Some tok1 =>
              match append m1 (strtol0 tok1) with
              | Some m2 => Running Fetch (set_core m2 st1)
              | None => Undefined
              end
          | None => Undefined
          end
      | None => Undefined
      end
    else
      match push (l_f st1) st1 with
      | Some st2 =>
          match cstr (core st2) (o_s (obj st1)) with
          | Some tok1 => Running Fetch (set_f (strtol0 tok1) st2)
          | None => Undefined
          end
      | None => Undefined
      end.
Proof.
  intros Hw Ht. unfold dispatch. rewrite Hw.
  change (negb (1 - 1 =? 0)) with false. cbv iota.
  rewrite Ht. rewrite (rd_some _ STATE) by core_lia. reflexivity.
Qed.

(** C7, amended. READ has stored a token that [find] does not resolve
    (it returns the sentinel 1). [isnum] accepts the token exactly when it
    is an optional minus sign followed by decimal digits only. A token it
    refuses gets the diagnostic, nothing else changes and the loop goes on.
    A token it accepts is a literal whose value is what [strtol] with base
    0 reads, cut to 16 bits, from the buffer of the token as the first
    store of the branch left it: that is the token itself whenever the
    store falls on no cell of the token. In compile mode the first store
    appends the cell 2 (the address of a cell that holds PUSH) at [m[0]],
    then the value is appended and [m[0]] has moved up by two; in execute
    mode the first store pushes the accumulator on the data stack, which
    then becomes the value. *)
Theorem unknown_token_literal_or_diagnostic
    (st st1 : machine) (x : Z) (tok : list Z) :
  rd (core st) x = Some (code READ) ->
  token_read st = Some st1 ->
  find (obj st1) = Some 1 ->
  cstr (core st1) (o_s (obj st1)) = Some tok ->
  (isnum tok = true
   <-> Forall (fun c => isdigit c = true)
         (match tok with 45 :: r => r | _ => tok end)) /\
  (isnum tok = false ->
   step (Inner x) st
   = Running Fetch
       (set_env (snd (WARN "not a word or number" 168 (env st1))) st1)) /\
  (isnum tok = true -> core st1 STATE <> 0 ->
   forall h, rd (core st1) DICTIONARY = Some h -> 0 < h -> h + 1 < CORESZ ->
   let m1 := upd (upd (core st1) DICTIONARY (u16 (h + 1))) h 2 in
   (clear_of (o_s (obj st1)) tok DICTIONARY ->
    clear_of (o_s (obj st1)) tok h ->
    cstr m1 (o_s (obj st1)) = Some tok) /\
   forall tok1, cstr m1 (o_s (obj st1)) = Some tok1 ->
   exists m',
     step (Inner x) st = Running Fetch (set_core m' st1) /\
     m' h = 2 /\ m' (h + 1) = u16 (strtol0 tok1) /\ m' DICTIONARY = h + 2 /\
     forall i, i <> h -> i <> h + 1 -> i <> DICTIONARY -> m' i = core st1 i) /\
  (isnum tok = true -> core st1 STATE = 0 -> 0 <= l_S st1 + 1 < CORESZ ->
   let m1 := upd (core st1) (l_S st1 + 1) (u16 (l_f st1)) in
   (clear_of (o_s (obj st1)) tok (l_S st1 + 1) ->
    cstr m1 (o_s (obj st1)) = Some tok) /\
   forall tok1, cstr m1 (o_s (obj st1)) = Some tok1 ->
   step (Inner x) st
   = Running Fetch
       (set_f (strtol0 tok1) (set_S (l_S st1 + 1) (set_core m1 st1)))).
Proof.
  intros Hx Ht Hw Htok.
  pose proof (step_read _ _ _ Hx Ht) as Hs.
  rewrite (dispatch_not_found _ _ Hw Htok) in Hs.
  split; [apply isnum_spec, (cstr_no_nul _ _ _ Htok)|].
  split; [|split].
  - intros Hn. rewrite Hn in Hs. exact Hs.
  - intros Hn Hm h Hh Hh0 Hh1 m1. split.
    + intros C0 Ch. unfold m1.
      exact (cstr_upd_clear _ _ _ _ _ (cstr_upd_clear _ _ _ _ _ Htok C0) Ch).
    + intros tok1 Htok1. rewrite Hn in Hs.
      apply Z.eqb_neq in Hm. rewrite Hm in Hs. cbn [negb] in Hs.
      rewrite (append_some _ _ _ Hh) in Hs by lia.
      change (u16 2) with 2 in Hs. fold m1 in Hs. rewrite Htok1 in Hs.
      rewrite (append_some _ (u16 (h + 1))) in Hs.
      * eexists. split; [exact Hs|].
        rewrite CORESZ_val in Hh1. unfold m1.
        rewrite (u16_small (h + 1)) by lia.
        rewrite (u16_small (h + 1 + 1)) by lia.
        repeat split.
        -- rewrite upd_other by lia. rewrite upd_other by core_lia.
           apply upd_same.
        -- apply upd_same.
        -- rewrite upd_other by core_lia. rewrite upd_same. lia.
        -- intros i H1 H2 H3. rewrite !upd_other by assumption. reflexivity.
      * rewrite rd_some by core_lia. unfold m1.
        rewrite upd_other by core_lia. now rewrite upd_same.
      * rewrite CORESZ_val in *. rewrite u16_small by lia. lia.
  - intros Hn Hm HS m1. split.
    + intros CS. unfold m1. exact (cstr_upd_clear _ _ _ _ _ Htok CS).
    + intros tok1 Htok1. rewrite Hn in Hs. rewrite Hm in Hs.
      change (negb (0 =? 0)) with false in Hs. cbn [negb] in Hs.
      rewrite (push_some _ _ HS) in Hs.
      change (core (set_S (l_S st1 + 1)
                (set_core (upd (core st1) (l_S st1 + 1) (u16 (l_f st1))) st1)))
        with m1 in Hs.
      rewrite Htok1 in Hs. exact Hs.
Qed.


(** ** The dictionary chain and [find] *)

Lemma chain_det o w l1 : chain o w l1 -> forall l2, chain o w l2 -> l1 = l2.
Proof.
  induction 1 as [|w off w' nm ws Hw Hoff Hnm Hl Hc IH]; intros l2 H2.
  - inversion H2; [reflexivity | congruence].
  - inversion H2 as [|w0 off0 w0' nm0 ws0 Hw0 Hoff0 Hnm0 Hl0 Hc0]; subst.
    + congruence.
    + f_equal. apply IH. congruence.
Qed.

Lemma chain_suffix o w ws :
  chain o w ws ->
  forall v, In v ws ->
  exists post, chain o v (v :: post)
               /\ (List.length (v :: post) <= List.length ws)%nat.
Proof.
  induction 1 as [|w off w' nm ws Hw Hoff Hnm Hl Hc IH]; intros v Hv.
  - destruct Hv.
  - destruct Hv as [<-|Hv].
    + exists ws. split; [econstructor; eassumption | lia].
    + destruct (IH v Hv) as (post & Hp & Hlen).
      exists post. split; [exact Hp | cbn [List.length] in *; lia].
Qed.

Lemma chain_NoDup o w ws : chain o w ws -> NoDup ws.
Proof.
  induction 1 as [|w off w' nm ws Hw Hoff Hnm Hl Hc IH]; constructor;
    [|exact IH].
  intros Hin. destruct (chain_suffix _ _ _ Hc w Hin) as (post & Hp & Hlen).
  assert (E : w :: post = w :: ws).
  { apply (chain_det _ _ _ Hp). econstructor; eassumption. }
  injection E as ->. cbn [List.length] in Hlen. lia.
Qed.

Lemma chain_in_core o w ws :
  chain o w ws -> Forall (fun v => 0 <= v < CORESZ) ws.
Proof.
  induction 1 as [|w off w' nm ws Hw Hoff Hnm Hl Hc IH]; constructor;
    [|exact IH].
  now apply rd_inv in Hl.
Qed.

(** A chain never visits an entry twice, so it is no longer than the core. *)
Lemma chain_length o w ws :
  chain o w ws -> (List.length ws <= Z.to_nat CORESZ)%nat.
Proof.
  intros H.
  assert (K : (List.length ws
               <= List.length (map Z.of_nat (seq 0 (Z.to_nat CORESZ))))%nat);
    [|now rewrite List.length_map, List.length_seq in K].
  apply NoDup_incl_length; [exact (chain_NoDup _ _ _ H)|].
  intros v Hv. pose proof (chain_in_core _ _ _ H) as Hc.
  rewrite Forall_forall in Hc. specialize (Hc v Hv).
  apply in_map_iff. exists (Z.to_nat v). split; [lia|].
  apply in_seq. lia.
Qed.

Lemma list_eqb_refl l : list_eqb l l = true.
Proof. unfold list_eqb. destruct (list_eq_dec Z.eq_dec l l); congruence. Qed.

Lemma list_eqb_eq a b : list_eqb a b = true <-> a = b.
Proof.
  unfold list_eqb. destruct (list_eq_dec Z.eq_dec a b); split; congruence.
Qed.

Lemma find_loop_chain o tok w ws :
  chain o w ws ->
  rd (o_m o) 2 = Some 0 ->
  cstr (o_m o) (o_s o) = Some tok ->
  forall fuel, (List.length ws < fuel)%nat ->
  find_loop fuel o w = Some (first_named o tok ws).
Proof.
  intros Hc H2 Htok.
  induction Hc as [|w off w' nm ws Hw Hoff Hnm Hl Hc IH]; intros fuel Hf.
  - destruct fuel as [|n]; [cbn in Hf; lia|].
    cbn [find_loop first_named]. change (1 + 1) with 2. rewrite H2.
    unfold strcmp_eq. rewrite Z.add_0_r, Htok, list_eqb_refl. reflexivity.
  - destruct fuel as [|n]; [cbn in Hf; lia|].
    cbn [find_loop first_named]. rewrite Hoff.
    unfold strcmp_eq, name_of. rewrite Htok, Hoff, Hnm.
    destruct (list_eqb tok nm); [reflexivity|].
    rewrite Hl. apply IH. cbn [List.length] in Hf. lia.
Qed.

Lemma first_named_spec o tok ws :
  ~ In 1 ws ->
  let w := first_named o tok ws in
  (w = 1 /\ Forall (fun v => name_of o v <> tok) ws) \/
  (exists pre post,
     ws = pre ++ w :: post /\ name_of o w = tok /\
     Forall (fun v => name_of o v <> tok) pre).
Proof.
  induction ws as [|v r IH]; intros H1; cbn [first_named].
  - left. split; [reflexivity | constructor].
  - destruct (list_eqb tok (name_of o v)) eqn:E.
    + right. exists [], r. apply list_eqb_eq in E.
      repeat split; [now symmetry | constructor].
    + assert (Hv : name_of o v <> tok).
      { intros K. symmetry in K. apply list_eqb_eq in K. congruence. }
      destruct IH as [[-> Hall]|(pre & post & Hsplit & Hname & Hall)].
      * intros K. apply H1. now right.
      * left. split; [reflexivity | now constructor].
      * right. exists (v :: pre), post.
        repeat split; [cbn; now f_equal | exact Hname | now constructor].
Qed.

Lemma chain_no_sentinel o w ws : chain o w ws -> ~ In 1 ws.
Proof.
  induction 1 as [|w off w' nm ws Hw Hoff Hnm Hl Hc IH]; [intros []|].
  intros [K|K]; [congruence | exact (IH K)].
Qed.

(** On a chain [find] computes [first_named]. *)
Lemma find_first_named (o : forth_obj) (ws tok : list Z) :
  chain o (o_L o) ws ->
  rd (o_m o) 2 = Some 0 ->
  cstr (o_m o) (o_s o) = Some tok ->
  find o = Some (first_named o tok ws).
Proof.
  intros Hc H2 Htok.
  unfold find. apply (find_loop_chain _ _ _ _ Hc H2 Htok).
  pose proof (chain_length _ _ _ Hc) as Hlen.
  change (Z.to_nat CORESZ) with (Z.to_nat 32768) in Hlen. lia.
Qed.

(** C2. When the links from [o->L] lead through the entries [ws] to the
    sentinel 1, whose name offset [m[2]] is 0, [find] returns for every
    token: the first entry of [ws] whose stored name equals the token, or
    the sentinel 1 when no entry of [ws] has that name. *)
Theorem find_terminates_first_match_or_sentinel
    (o : forth_obj) (ws tok : list Z) :
  chain o (o_L o) ws ->
  rd (o_m o) 2 = Some 0 ->
  cstr (o_m o) (o_s o) = Some tok ->
  exists w,
    find o = Some w /\
    ((w = 1 /\ Forall (fun v => name_of o v <> tok) ws) \/
     (exists pre post,
        ws = pre ++ w :: post /\ name_of o w = tok /\
        Forall (fun v => name_of o v <> tok) pre)).
Proof.
  intros Hc H2 Htok. exists (first_named o tok ws). split.
  - exact (find_first_named o ws tok Hc H2 Htok).
  - apply first_named_spec. exact (chain_no_sentinel _ _ _ Hc).
Qed.

Lemma chainb_sound o : forall ws w, chainb o w ws = true -> chain o w ws.
Proof.
  induction ws as [|w1 r IH]; intros w; cbn [chainb].
  - intros H. apply Z.eqb_eq in H. subst. constructor.
  - intros H. apply andb_true_iff in H. destruct H as [H Hrest].
    apply andb_true_iff in H. destruct H as [Hw Hne].
    apply Z.eqb_eq in Hw. subst w1.
    apply negb_true_iff, Z.eqb_neq in Hne.
    destruct (rd (o_m o) (w + 1)) as [off|] eqn:Eoff; [|discriminate].
    destruct (rd (o_m o) w) as [w'|] eqn:El; [|discriminate].
    destruct (cstr (o_m o) (o_s o + off)) as [nm|] eqn:En; [|discriminate].
    econstructor; eauto.
Qed.

(** ** Bytes read back, and [blockio] *)

Lemma in_bytes_iff k : in_bytes k = true <-> 0 <= k < 65536.
Proof.
  unfold in_bytes. rewrite andb_true_iff, Z.leb_le, Z.ltb_lt.
  change (2 * CORESZ) with 65536. tauto.
Qed.

Lemma wrb_some m k b :
  0 <= k < 65536 -> exists m', wrb m k b = Some m'.
Proof.
  intros H. apply in_bytes_iff in H. unfold wrb. rewrite H. eauto.
Qed.

Lemma rdb_wrb_same m k b m' :
  wrb m k b = Some m' -> rdb m' k = Some (b mod 256).
Proof.
  unfold wrb, rdb. destruct (in_bytes k); [|discriminate].
  intros [= <-]. rewrite upd_same. f_equal.
  destruct (is_low k); Z.to_euclidean_division_equations; lia.
Qed.

Lemma is_low_flip k k' :
  k' <> k -> k' / 2 = k / 2 -> is_low k' = negb (is_low k).
Proof.
  intros Hne Hc. unfold is_low.
  assert (E : k' mod 2 = 1 - k mod 2)
    by (Z.to_euclidean_division_equations; lia).
  rewrite E.
  assert (D : k mod 2 = 0 \/ k mod 2 = 1)
    by (Z.to_euclidean_division_equations; lia).
  destruct big_endian, D as [-> | ->]; reflexivity.
Qed.

Lemma rdb_wrb_other m k b m' k' :
  wrb m k b = Some m' -> k' <> k -> rdb m' k' = rdb m k'.
Proof.
  unfold wrb, rdb. destruct (in_bytes k); [|discriminate].
  intros [= <-] Hne. destruct (in_bytes k'); [|reflexivity]. f_equal.
  destruct (Z.eq_dec (k' / 2) (k / 2)) as [E|E].
  - rewrite E, upd_same, (is_low_flip _ _ Hne E).
    destruct (is_low k); cbn [negb]; Z.to_euclidean_division_equations; lia.
  - now rewrite upd_other.
Qed.

Lemma wr_bytes_some l : forall m p,
  0 <= p -> p + Z.of_nat (List.length l) <= 65536 ->
  exists m', wr_bytes m p l = Some m'.
Proof.
  induction l as [|b l IH]; intros m p Hp Hl; cbn [wr_bytes]; [eauto|].
  cbn [List.length] in Hl.
  destruct (wrb_some m p b) as (m1 & ->); [lia|].
  apply IH; lia.
Qed.

Lemma wr_bytes_rdb_before l : forall m p m' k,
  wr_bytes m p l = Some m' -> k < p -> rdb m' k = rdb m k.
Proof.
  induction l as [|b l IH]; intros m p m' k; cbn [wr_bytes].
  - now intros [= <-].
  - destruct (wrb m p b) as [m1|] eqn:E; [|discriminate].
    intros Hw Hk. rewrite (IH _ _ _ _ Hw) by lia.
    apply (rdb_wrb_other _ _ _ _ _ E). lia.
Qed.

Lemma wr_bytes_rd_bytes l : forall m p m',
  wr_bytes m p l = Some m' ->
  rd_bytes m' p (List.length l) = map (fun b => b mod 256) l.
Proof.
  induction l as [|b l IH]; intros m p m'; cbn [wr_bytes]; [reflexivity|].
  destruct (wrb m p b) as [m1|] eqn:E; [|discriminate].
  intros Hw. cbn [List.length rd_bytes map].
  rewrite (wr_bytes_rdb_before _ _ _ _ p Hw) by lia.
  rewrite (rdb_wrb_same _ _ _ _ E). f_equal. exact (IH _ _ _ Hw).
Qed.

Lemma blockio_rejects m poffset id rw y :
  CORESZ - BLKSZ < poffset \/ (rw <> 119 /\ rw <> 114) ->
  blockio m poffset id rw y
  = (-1, m, snd (WARN "invalid address or mode" 67 y)).
Proof.
  intros H. unfold blockio.
  assert (E : (poffset >? CORESZ - BLKSZ)
              || negb ((rw =? 119) || (rw =? 114)) = true).
  { apply orb_true_iff. destruct H as [H|[H1 H2]].
    - left. apply Z.gtb_lt. exact H.
    - right. apply Z.eqb_neq in H1, H2. now rewrite H1, H2. }
  rewrite E. reflexivity.
Qed.

Lemma blockio_write m poffset id y :
  poffset <= CORESZ - BLKSZ ->
  blockio m poffset id 119 y
  = if can_create (fs y) (block_name id) then
      let n := Z.max 0 (Z.min BLKSZ (room (fs y))) in
      (if n =? BLKSZ then 0 else -1, m,
       mksys (stderr y)
             (put_file (fs y) (block_name id)
                       (rd_bytes m poffset (Z.to_nat n)) n))
    else (-1, m, snd (WARN "could not open file" 70 y)).
Proof.
  intros H. unfold blockio.
  assert (E : (poffset >? CORESZ - BLKSZ) = false).
  { rewrite Z.gtb_ltb. apply Z.ltb_ge. exact H. }
  rewrite E. reflexivity.
Qed.

Lemma blockio_read m poffset id y :
  0 <= poffset <= CORESZ - BLKSZ ->
  exists m',
    blockio m poffset id 114 y
    = match files (fs y) (block_name id) with
      | None => (-1, m, snd (WARN "could not open file" 70 y))
      | Some c =>
          (if (Z.to_nat BLKSZ <=? List.length c)%nat then 0 else -1, m', y)
      end /\
    forall c, files (fs y) (block_name id) = Some c ->
      wr_bytes m poffset (firstn (Z.to_nat BLKSZ) c) = Some m'.
Proof.
  intros H. unfold blockio.
  assert (E : (poffset >? CORESZ - BLKSZ) = false).
  { rewrite Z.gtb_ltb. apply Z.ltb_ge. lia. }
  rewrite E. cbn [orb negb Z.eqb Pos.eqb].
  destruct (files (fs y) (block_name id)) as [c|].
  - destruct (wr_bytes_some (firstn (Z.to_nat BLKSZ) c) m poffset)
      as (m' & Hw); [lia| |].
    + pose proof (List.length_firstn (Z.to_nat BLKSZ) c) as K.
      change BLKSZ with 1024 in *. rewrite CORESZ_val in *. lia.
    + exists m'. rewrite Hw. split.
      * rewrite List.length_firstn. f_equal. f_equal.
        change BLKSZ with 1024.
        destruct (Nat.leb_spec (Z.to_nat 1024) (List.length c));
          destruct (Z.eqb_spec (Z.of_nat (Nat.min (Z.to_nat 1024) (List.length c))) 1024);
          try reflexivity; lia.
      * now intros c' [= <-].
  - exists m. split; [reflexivity | discriminate].
Qed.

Lemma block_instruction (st : machine) (x v : Z) (c : codes) :
  c = BSAVE \/ c = BLOAD ->
  rd (core st) x = Some (code c) ->
  rd (core st) (l_S st) = Some v ->
  exists st',
    step (Inner x) st = Running Fetch st' /\
    o_invalid (obj st') = o_invalid (obj st) /\
    l_S st' = l_S st - 1 /\
    l_f st'
    = u16 (fst (fst (blockio (core st) v (l_f st)
                       (match c with BSAVE => 119 | _ => 114 end)
                       (env st)))).
Proof.
  intros Hc Hx Hv. rewrite (step_inner _ _ _ Hx).
  destruct Hc as [-> | ->]; unfold exec; rewrite (pop_some _ _ Hv); fields;
    change (core (set_S (l_S st - 1) st)) with (core st);
    match goal with
    | |- context [blockio ?a ?b ?c ?d ?e] =>
        destruct (blockio a b c d e) as [[r m1] y']
    end;
    eexists; (split; [reflexivity|]); fields; repeat split.
Qed.

(** C5, amended. [blockio] returns -1 and opens no block when the offset
    is above [CORESZ - BLKSZ] or the mode is neither ['w'] nor ['r'];
    every offset from 0 to [CORESZ - BLKSZ], that bound included, is
    accepted. A write then returns 0 exactly when the block could be
    created and took all 1024 bytes, and the block then holds the 1024
    bytes of the core from the offset on; a read returns 0 exactly when
    the block exists and gave 1024 bytes, which are then found in the core
    from the offset on, the cells outside the region being unchanged.
    BSAVE and BLOAD pop the offset, put the status in the accumulator and
    go on with the latch as it was. *)
Theorem blockio_contract (m : mem) (poffset id : Z) (y : sys) :
  0 <= poffset ->
  (forall rw,
      CORESZ - BLKSZ < poffset \/ (rw <> 119 /\ rw <> 114) ->
      exists y', blockio m poffset id rw y = (-1, m, y') /\ fs y' = fs y) /\
  (poffset <= CORESZ - BLKSZ ->
   exists r y',
     blockio m poffset id 119 y = (r, m, y') /\
     (r = 0 \/ r = -1) /\
     (r = 0 <-> can_create (fs y) (block_name id) = true
                /\ BLKSZ <= room (fs y)) /\
     (r = 0 ->
      files (fs y') (block_name id)
      = Some (rd_bytes m poffset (Z.to_nat BLKSZ)))) /\
  (poffset <= CORESZ - BLKSZ ->
   exists r m' y',
     blockio m poffset id 114 y = (r, m', y') /\
     fs y' = fs y /\
     (r = 0 \/ r = -1) /\
     (r = 0 <-> exists c, files (fs y) (block_name id) = Some c
                          /\ (Z.to_nat BLKSZ <= List.length c)%nat) /\
     (forall c, r = 0 -> files (fs y) (block_name id) = Some c ->
        rd_bytes m' poffset (Z.to_nat BLKSZ)
        = map (fun b => b mod 256) (firstn (Z.to_nat BLKSZ) c)) /\
     (forall i, 2 * i + 1 < poffset \/ poffset + BLKSZ <= 2 * i ->
        m' i = m i)) /\
  (forall (st : machine) (x v : Z) (c : codes),
      c = BSAVE \/ c = BLOAD ->
      rd (core st) x = Some (code c) ->
      rd (core st) (l_S st) = Some v ->
      exists st',
        step (Inner x) st = Running Fetch st' /\
        o_invalid (obj st') = o_invalid (obj st) /\
        l_S st' = l_S st - 1 /\
        l_f st'
        = u16 (fst (fst (blockio (core st) v (l_f st)
                           (match c with BSAVE => 119 | _ => 114 end)
                           (env st))))).
Proof.
  intros Hp. split; [|split; [|split]].
  - intros rw H. rewrite (blockio_rejects _ _ _ _ _ H). eauto.
  - intros Hle. rewrite (blockio_write _ _ _ _ Hle).
    destruct (can_create (fs y) (block_name id)).
    + cbv zeta. do 2 eexists. split; [reflexivity|].
      change BLKSZ with 1024.
      destruct (Z.eqb_spec (Z.max 0 (Z.min 1024 (room (fs y)))) 1024) as [E|E].
      * split; [now left|]. split; [split; [intros _; split; [reflexivity|lia]|reflexivity]|].
        intros _. cbn [fs put_file files]. rewrite String.eqb_refl.
        now rewrite E.
      * split; [now right|]. split; [split; [discriminate|intros [_ K]; lia]|discriminate].
    + do 2 eexists. split; [reflexivity|]. split; [now right|].
      split; [split; [discriminate|intros [K _]; discriminate]|discriminate].
  - intros Hle. destruct (blockio_read m poffset id y) as (m' & Hb & Hw);
      [lia|]. rewrite Hb.
    destruct (files (fs y) (block_name id)) as [c|].
    + specialize (Hw c eq_refl).
      exists (if (Z.to_nat BLKSZ <=? List.length c)%nat then 0 else -1), m', y.
      split; [reflexivity|]. split; [reflexivity|].
      destruct (Nat.leb_spec (Z.to_nat BLKSZ) (List.length c)) as [L|L].
      * split; [now left|]. split; [split; [intros _; now exists c|reflexivity]|].
        split.
        -- intros c' _ [= <-].
           rewrite <- (wr_bytes_rd_bytes _ _ _ _ Hw).
           rewrite List.length_firstn. f_equal. lia.
        -- intros i Hi. apply (wr_bytes_outside _ _ _ _ i Hw).
           rewrite List.length_firstn. change BLKSZ with 1024 in *. lia.
      * split; [now right|]. split; [split; [discriminate|]|split].
        -- intros (c' & [= <-] & K). lia.
        -- discriminate.
        -- intros i Hi. apply (wr_bytes_outside _ _ _ _ i Hw).
           rewrite List.length_firstn. change BLKSZ with 1024 in *. lia.
    + exists (-1), m, (snd (WARN "could not open file" 70 y)).
      split; [reflexivity|]. split; [reflexivity|]. split; [now right|].
      split; [split; [discriminate|intros (c & K & _); discriminate]|].
      split; [discriminate|reflexivity].
  - apply block_instruction.
Qed.

(** ** What leaves the return stack alone *)

Lemma pop_inv st v st1 :
  pop st = Some (v, st1) -> st1 = set_S (l_S st - 1) st.
Proof.
  unfold pop. destruct (rd (core st) (l_S st)); [|discriminate].
  now intros [= _ <-].
Qed.

Ltac pop_case :=
  match goal with
  | |- context [pop ?s] =>
      let E := fresh "E" in
      destruct (pop s) as [[? ?]|] eqn:E; [apply pop_inv in E; subst | ]
  end.

(** The primitives that only pop and only read the core. *)
Lemma quiet_primitive (c : codes) (x : Z) (st : machine) :
  quiet c = true ->
  exec c x st = Undefined \/
  exists st', exec c x st = Running Fetch st' /\
              l_I st' = l_I st /\ core st' = core st.
Proof.
  destruct c; try discriminate; intros _; unfold exec.
  - (* LOAD *)
    destruct (rd (core st) (CK (l_f st))); [right|now left].
    eexists. split; [reflexivity|]. split; reflexivity.
  - (* SUB *)
    pop_case; [right|now left].
    eexists. split; [reflexivity|]. split; reflexivity.
  - (* ADD *)
    pop_case; [right|now left].
    eexists. split; [reflexivity|]. split; reflexivity.
  - (* MUL *)
    pop_case; [|now left].
    destruct (l_f st * z >? INT_MAX); [now left|right].
    eexists. split; [reflexivity|]. split; reflexivity.
  - (* DIV *)
    destruct (negb (l_f st =? 0)).
    + pop_case; [right|now left].
      eexists. split; [reflexivity|]. split; reflexivity.
    + right. eexists. split; [reflexivity|]. split; reflexivity.
  - (* LESS *)
    pop_case; [right|now left].
    eexists. split; [reflexivity|]. split; reflexivity.
  - (* EMIT *)
    pop_case; [right|now left].
    eexists. split; [reflexivity|]. split; reflexivity.
  - (* PNUM *)
    destruct (rd (core st) HEX); [|now left].
    pop_case; [right|now left].
    eexists. split; [reflexivity|]. split; reflexivity.
  - (* EQUAL *)
    pop_case; [right|now left].
    eexists. split; [reflexivity|]. split; reflexivity.
  - (* DROP *)
    pop_case; [right|now left].
    eexists. split; [reflexivity|]. split; reflexivity.
Qed.

(** A word of the dictionary whose body is such a primitive, met in
    execute mode and run without leaving the core. *)
Lemma quiet_word_untouched (st1 : machine) (w : Z) (c : codes) :
  find (obj st1) = Some w -> w <> 1 ->
  core st1 STATE = 0 ->
  rd (core st1) (u16 (w + 2)) = Some (code COMPILE) ->
  rd (core st1) (u16 (u16 (w + 2) + 1)) = Some (code c) ->
  quiet c = true ->
  step (Inner (u16 (u16 (w + 2) + 1))) st1 <> Undefined ->
  exists st2, after_dispatch st1 = Some st2 /\ untouched st1 st2.
Proof.
  intros Hw Hw1 Hm Htag Hbody Hq Hdef.
  unfold after_dispatch. rewrite (dispatch_found _ _ Hw Hw1).
  rewrite Hm, Htag. change (0 =? 0) with true.
  change (code COMPILE =? code COMPILE) with true. cbv iota.
  rewrite (step_inner _ _ _ Hbody) in Hdef |- *.
  destruct (quiet_primitive c (u16 (u16 (u16 (w + 2) + 1) + 1)) st1 Hq)
    as [K|(st2 & K & HI & Hc)]; [congruence|].
  rewrite K. exists st2. split; [reflexivity|].
  unfold untouched. rewrite HI, Hc. repeat split.
Qed.

(** A number met in execute mode, pushed clear of the registers, of the
    bootstrap word and of the token. *)
Lemma number_untouched (st1 : machine) (tok : list Z) :
  find (obj st1) = Some 1 ->
  cstr (core st1) (o_s (obj st1)) = Some tok ->
  isnum tok = true ->
  core st1 STATE = 0 ->
  35 < l_S st1 + 1 < CORESZ ->
  clear_of (o_s (obj st1)) tok (l_S st1 + 1) ->
  let st2 := set_f (strtol0 tok)
               (set_S (l_S st1 + 1)
                  (set_core (upd (core st1) (l_S st1 + 1) (u16 (l_f st1)))
                            st1)) in
  dispatch st1 = Running Fetch st2 /\
  after_dispatch st1 = Some st2 /\ untouched st1 st2.
Proof.
  intros Hw Htok Hn Hm HS Hc st2.
  assert (D : dispatch st1 = Running Fetch st2).
  { rewrite (dispatch_not_found _ _ Hw Htok).
    rewrite Hn, Hm. change (negb true) with false.
    change (negb (0 =? 0)) with false. cbv iota.
    rewrite push_some by lia.
    change (core (set_S (l_S st1 + 1)
              (set_core (upd (core st1) (l_S st1 + 1) (u16 (l_f st1))) st1)))
      with (upd (core st1) (l_S st1 + 1) (u16 (l_f st1))).
    rewrite (cstr_upd_clear _ _ _ _ _ Htok Hc). reflexivity. }
  split; [exact D|].
  split; [unfold after_dispatch; now rewrite D|].
  unfold st2, untouched, core. fields.
  repeat split; apply upd_other; core_lia.
Qed.

(** ** The dictionary invariant *)

Lemma dict_chain o h t w ws : dict o h t w ws -> chain o w ws.
Proof.
  induction 1; [constructor | econstructor; eauto; lia].
Qed.


(** What lies below the two free pointers is all the dictionary reads. *)
Lemma dict_frame o o' h t h' t' w ws :
  dict o h t w ws ->
  o_s o' = o_s o ->
  (forall i, 32 <= i < h -> o_m o' i = o_m o i) ->
  (forall k, o_s o + 32 <= k < o_s o + t ->
             rdb (o_m o') k = rdb (o_m o) k) ->
  h <= h' -> t <= t' ->
  dict o' h' t' w ws.
Proof.
  intros Hd Hs Hc Hb Hh Ht.
  induction Hd as [|w off w' nm ws B1 B2 B3 B4 Hoff Hnm Hl Hd IH];
    [constructor|].
  apply rd_inv in Hoff. destruct Hoff as [Ro ->].
  apply rd_inv in Hl. destruct Hl as [Rl ->].
  apply (dict_cons o' h' t' w (o_m o (w + 1)) (o_m o w) nm); try lia.
  - rewrite rd_some by lia. f_equal. apply Hc. lia.
  - rewrite Hs. apply (cstr_frame _ _ _ _ Hnm). intros k Hk. apply Hb. lia.
  - rewrite rd_some by lia. f_equal. apply Hc. lia.
  - exact IH.
Qed.

Lemma dict_head_range o h t w ws :
  dict o h t w ws -> 0 <= w < 65536.
Proof.
  destruct 1 as [|w off w' nm ws B1 B2 B3 B4 Hoff Hnm Hl Hd]; [lia|].
  apply rd_inv in Hl. rewrite CORESZ_val in Hl. lia.
Qed.

(** A string is no longer than the distance to a terminator. *)
Lemma cstr_loop_bound fuel : forall m p q nm,
  cstr_loop fuel m p = Some nm -> rdb m q = Some 0 -> p <= q ->
  p + Z.of_nat (List.length nm) <= q.
Proof.
  induction fuel as [|n IH]; intros m p q nm; cbn [cstr_loop];
    [discriminate|].
  destruct (rdb m p) as [b|] eqn:Eb; [|discriminate].
  destruct (Z.eqb_spec b 0) as [->|Hb].
  - intros [= <-] _ Hq. cbn. lia.
  - destruct (cstr_loop n m (p + 1)) as [r|] eqn:Er; [|discriminate].
    intros [= <-] H0 Hq.
    assert (p <> q) by (intros ->; congruence).
    specialize (IH _ _ q _ Er H0). cbn [List.length]. lia.
Qed.

Lemma wr_bytes_rdb_last l : forall m p m' b,
  wr_bytes m p (l ++ [b]) = Some m' ->
  rdb m' (p + Z.of_nat (List.length l)) = Some (b mod 256).
Proof.
  induction l as [|c l IH]; intros m p m' b; cbn [wr_bytes app List.length].
  - destruct (wrb m p b) as [m1|] eqn:E; [|discriminate].
    intros [= <-]. rewrite Z.add_0_r. apply (rdb_wrb_same _ _ _ _ E).
  - destruct (wrb m p c) as [m1|]; [|discriminate].
    intros Hw. rewrite <- (IH _ _ _ _ Hw). f_equal. lia.
Qed.

Lemma header_appended m h L t c :
  rd m DICTIONARY = Some h -> 0 < h -> h + 3 <= 8192 ->
  exists m1 m2,
    append m L = Some m1 /\ rd m1 DICTIONARY = Some (h + 1) /\
    append m1 t = Some m2 /\
    append m2 c = Some (with_header m h L t c).
Proof.
  intros Hh H0 H3.
  exists (upd (upd m DICTIONARY (u16 (h + 1))) h (u16 L)).
  exists (upd (upd (upd (upd m DICTIONARY (u16 (h + 1))) h (u16 L))
                   DICTIONARY (u16 (h + 1 + 1))) (h + 1) (u16 t)).
  assert (E1 : rd (upd (upd m DICTIONARY (u16 (h + 1))) h (u16 L)) DICTIONARY
               = Some (h + 1)).
  { rewrite rd_some by core_lia. rewrite upd_other by core_lia.
    rewrite upd_same. f_equal. apply u16_small. lia. }
  split; [apply append_some; [exact Hh | core_lia]|].
  split; [exact E1|].
  split; [apply append_some; [exact E1 | core_lia]|].
  apply append_some; [|core_lia].
  rewrite rd_some by core_lia. rewrite upd_other by core_lia.
  rewrite upd_same. f_equal. rewrite u16_small by lia. lia.
Qed.

Lemma with_header_cells m h L t c :
  32 <= h -> h + 3 <= 8192 -> 0 <= L < 65536 -> 0 <= t < 65536 ->
  with_header m h L t c DICTIONARY = h + 3 /\
  with_header m h L t c h = L /\
  with_header m h L t c (h + 1) = t /\
  with_header m h L t c (h + 2) = u16 c /\
  forall i, i <> DICTIONARY -> i <> h -> i <> h + 1 -> i <> h + 2 ->
            with_header m h L t c i = m i.
Proof.
  intros H0 H3 HL Ht. unfold with_header. repeat split.
  - rewrite upd_other by core_lia. rewrite upd_same.
    rewrite u16_small by lia. lia.
  - rewrite !upd_other by core_lia. rewrite upd_same. now apply u16_small.
  - rewrite !upd_other by core_lia. rewrite upd_same. now apply u16_small.
  - apply upd_same.
  - intros i A B C D. now rewrite !upd_other by assumption.
Qed.

(** What [compile_word] returns when it got a name. *)
Lemma compile_word_named (o o' : forth_obj) (h c r : Z)
    (str : option (list Z)) :
  rd (o_m o) DICTIONARY = Some h -> 0 < h -> h + 3 <= 8192 ->
  match str with Some l => (List.length l <= 31)%nat | None => True end ->
  compile_word o c str = Some (r, o') ->
  r <> EOF ->
  exists m4 inp l nm,
    wr_bytes (with_header (o_m o) h (o_L o) (o_t o) c) (o_s o + o_t o)
             (l ++ [0]) = Some m4 /\
    (List.length l <= 31)%nat /\
    cstr m4 (o_s o + o_t o) = Some nm /\
    o' = set_t (u16 (o_t o + Z.of_nat (List.length nm) + 1))
           (set_in inp (set_L (u16 (h + 1 - 1)) (set_m m4 o))).
Proof.
  intros Hh H0 H3 Hlen Hc Hr.
  destruct (header_appended (o_m o) h (o_L o) (o_t o) c Hh H0 H3)
    as (m1 & m2 & A1 & R1 & A2 & A3).
  unfold compile_word in Hc. rewrite A1, R1, A2, A3 in Hc.
  unfold wr_str, strlen in Hc.
  destruct str as [l|].
  - destruct (wr_bytes _ (o_s o + o_t o) (l ++ [0])) as [m4|] eqn:Ew;
      [|discriminate].
    destruct (cstr m4 (o_s o + o_t o)) as [nm|] eqn:En; [|discriminate].
    exists m4, (o_in o), l, nm. repeat split; try assumption. congruence.
  - destruct (scan_token (o_in o)) as [[tok rest]|] eqn:Etok.
    + destruct (wr_bytes _ (o_s o + o_t o) (tok ++ [0])) as [m4|] eqn:Ew;
        [|discriminate].
      destruct (cstr m4 (o_s o + o_t o)) as [nm|] eqn:En; [|discriminate].
      exists m4, rest, tok, nm. repeat split; try assumption.
      * exact (scan_token_length _ _ _ Etok).
      * congruence.
    + destruct (cstr _ (o_s o + o_t o)); [|discriminate].
      exfalso. apply Hr. congruence.
Qed.

(** [compile_word] that got a name links one more entry and keeps the
    invariant. *)
Lemma compile_word_extends (o o' : forth_obj) (ws : list Z)
    (c r : Z) (str : option (list Z)) :
  dictionary o ws ->
  room_for_word o ->
  match str with Some l => (List.length l <= 31)%nat | None => True end ->
  compile_word o c str = Some (r, o') ->
  r <> EOF ->
  dictionary o' (o_m o DICTIONARY :: ws) /\
  o_L o' = o_m o DICTIONARY /\
  o_m o' DICTIONARY = o_m o DICTIONARY + 3 /\
  o_t o < o_t o' <= o_t o + 32 /\
  o_m o' (o_m o DICTIONARY + 2) = u16 c.
Proof.
  intros (Hd & H2 & Hs) (R1 & R2 & R3 & R4) Hlen Hc Hr.
  pose proof (dict_head_range _ _ _ _ _ Hd) as HL.
  destruct (compile_word_named o o' (o_m o DICTIONARY) c r str)
    as (m4 & inp & l & nm & Ew & Hl & Enm & ->);
    try assumption; [apply rd_some; core_lia | lia |].
  replace (o_m o DICTIONARY + 1 - 1) with (o_m o DICTIONARY) by lia.
  rewrite (u16_small (o_m o DICTIONARY)) by lia.
  destruct (with_header_cells (o_m o) (o_m o DICTIONARY) (o_L o) (o_t o) c)
    as (Z3 & L3 & T3 & K3 & C3); try lia.
  assert (Hn : Z.of_nat (List.length nm) <= Z.of_nat (List.length l)).
  { pose proof (wr_bytes_rdb_last _ _ _ _ _ Ew) as K0.
    pose proof (cstr_loop_bound _ _ _ _ _ Enm K0). lia. }
  assert (C4 : forall i, i < 8192 ->
                 m4 i = with_header (o_m o) (o_m o DICTIONARY) (o_L o)
                          (o_t o) c i).
  { intros i Hi. apply (wr_bytes_outside _ _ _ _ i Ew). left.
    rewrite Hs. change STROFF with 16384. lia. }
  assert (B4 : forall k, k < o_s o + o_t o ->
                 rdb m4 k
                 = rdb (with_header (o_m o) (o_m o DICTIONARY) (o_L o)
                          (o_t o) c) k).
  { intros k Hk. apply (wr_bytes_rdb_before _ _ _ _ k Ew). lia. }
  assert (Ht' : u16 (o_t o + Z.of_nat (List.length nm) + 1)
                = o_t o + Z.of_nat (List.length nm) + 1)
    by (apply u16_small; lia).
  unfold dictionary. fields. rewrite Ht'.
  rewrite (C4 DICTIONARY) by core_lia. rewrite Z3.
  rewrite (C4 (o_m o DICTIONARY + 2)) by lia. rewrite K3.
  split; [|repeat split; lia].
  split; [|split; [|exact Hs]].
  - apply (dict_cons _ _ _ (o_m o DICTIONARY) (o_t o) (o_L o) nm);
      fields; try lia.
    + rewrite rd_some by core_lia. rewrite C4 by lia. now rewrite T3.
    + exact Enm.
    + rewrite rd_some by core_lia. rewrite C4 by lia. now rewrite L3.
    + apply (dict_frame o _ (o_m o DICTIONARY) (o_t o));
        fields; try lia; try reflexivity.
      * exact Hd.
      * intros i Hi. rewrite C4 by lia. apply C3; core_lia.
      * intros k Hk. rewrite B4 by lia. unfold with_header.
        rewrite Hs in Hk. change STROFF with 16384 in Hk.
        rewrite !rdb_upd_other;
          [reflexivity | | | | | | ];
          unfold DICTIONARY in *; Z.to_euclidean_division_equations; lia.
  - rewrite rd_some by core_lia. rewrite C4 by lia.
    rewrite C3 by core_lia. apply rd_inv in H2. destruct H2 as [_ <-].
    reflexivity.
Qed.

Lemma dictb_sound o h t : forall ws w, dictb o h t w ws = true -> dict o h t w ws.
Proof.
  induction ws as [|w1 r IH]; intros w; cbn [dictb].
  - intros H. apply Z.eqb_eq in H. subst. constructor.
  - intros H. repeat (apply andb_true_iff in H; destruct H as [H ?]).
    apply Z.eqb_eq in H. subst w1.
    destruct (rd (o_m o) (w + 1)) as [off|] eqn:Eoff; [|discriminate].
    destruct (rd (o_m o) w) as [w'|] eqn:El; [|discriminate].
    destruct (cstr (o_m o) (o_s o + off)) as [nm|] eqn:En; [|discriminate].
    match goal with
    | K : _ && _ && _ = true |- _ =>
        repeat (apply andb_true_iff in K; destruct K as [K ?])
    end.
    econstructor; eauto; lia.
Qed.

Lemma wr_bytes_rdb_after l : forall m p m' k,
  wr_bytes m p l = Some m' -> p + Z.of_nat (List.length l) <= k ->
  rdb m' k = rdb m k.
Proof.
  induction l as [|b l IH]; intros m p m' k; cbn [wr_bytes].
  - now intros [= <-].
  - destruct (wrb m p b) as [m1|] eqn:E; [|discriminate].
    intros Hw Hk. cbn [List.length] in Hk.
    rewrite (IH _ _ _ _ Hw) by lia.
    apply (rdb_wrb_other _ _ _ _ _ E). lia.
Qed.

Lemma rdb_some m k : 0 <= k < 65536 -> exists b, rdb m k = Some b.
Proof.
  intros H. apply in_bytes_iff in H. unfold rdb. rewrite H. eauto.
Qed.

Lemma rdb_range m k b : rdb m k = Some b -> 0 <= k < 65536.
Proof.
  unfold rdb. destruct (in_bytes k) eqn:E; [|discriminate].
  intros _. now apply in_bytes_iff.
Qed.

(** A terminator inside the core ends the string. *)
Lemma cstr_loop_exists fuel : forall m p q,
  0 <= p <= q -> rdb m q = Some 0 -> (Z.to_nat (q - p) < fuel)%nat ->
  exists nm, cstr_loop fuel m p = Some nm.
Proof.
  induction fuel as [|n IH]; intros m p q Hp Hq Hf; [lia|].
  cbn [cstr_loop].
  pose proof (rdb_range _ _ _ Hq) as Rq.
  destruct (rdb_some m p) as (b & Eb); [lia|]. rewrite Eb.
  destruct (Z.eqb_spec b 0) as [->|Hb]; [eauto|].
  assert (p <> q) by (intros ->; congruence).
  destruct (IH m (p + 1) q) as (r & ->); [lia | exact Hq | lia | eauto].
Qed.

Lemma cstr_exists m p q :
  0 <= p <= q -> rdb m q = Some 0 -> exists nm, cstr m p = Some nm.
Proof.
  intros Hp Hq. pose proof (rdb_range _ _ _ Hq) as Rq.
  apply (cstr_loop_exists _ m p q Hp Hq).
  change (2 * CORESZ) with 65536. lia.
Qed.

(** READ up to the stored token keeps the dictionary, and leaves a string
    at [s]. *)
Lemma token_read_keeps_dictionary (st st1 : machine) (ws : list Z) :
  dictionary (obj st) ws ->
  32 <= core st DICTIONARY <= 8192 ->
  token_read st = Some st1 ->
  dictionary (obj st1) ws /\
  core st1 DICTIONARY = core st DICTIONARY /\
  o_t (obj st1) = o_t (obj st) /\
  exists tok, cstr (core st1) (o_s (obj st1)) = Some tok.
Proof.
  intros (Hd & H2 & Hs) Hh Ht.
  pose proof (token_read_core _ _ Ht Hs) as Hcore.
  unfold token_read, rdrop in Ht.
  rewrite (rd_some _ RSTK) in Ht by core_lia.
  rewrite wr_some in Ht by core_lia.
  destruct (scan_token (o_in (obj st))) as [[tok rest]|] eqn:Etok;
    [|discriminate].
  pose proof (scan_token_length _ _ _ Etok) as Hlen.
  unfold wr_str in Ht.
  destruct (wr_bytes _ (o_s (obj st)) (tok ++ [0])) as [m2|] eqn:Ew;
    [|discriminate].
  injection Ht as <-. unfold core in *. revert Hcore. fields. intros Hcore.
  assert (H0 : m2 DICTIONARY = o_m (obj st) DICTIONARY)
    by (rewrite Hcore by core_lia; reflexivity).
  split; [|split; [exact H0|split; [reflexivity|]]].
  - unfold dictionary. fields. rewrite H0.
    split; [|split; [|exact Hs]].
    + apply (dict_frame (obj st) _ (o_m (obj st) DICTIONARY) (o_t (obj st)));
        fields; try lia; try reflexivity.
      * exact Hd.
      * intros i Hi. rewrite Hcore by lia.
        destruct (Z.eqb_spec i RSTK); [core_lia | reflexivity].
      * intros k Hk.
        rewrite (wr_bytes_rdb_after _ _ _ _ k Ew)
          by (rewrite List.length_app; cbn [List.length]; lia).
        apply rdb_upd_other. rewrite Hs in Hk. change STROFF with 16384 in Hk.
        unfold RSTK. Z.to_euclidean_division_equations. lia.
    + rewrite rd_some by core_lia. rewrite Hcore by lia.
      apply rd_inv in H2. destruct H2 as [_ <-]. reflexivity.
  - pose proof (wr_bytes_rdb_last _ _ _ _ _ Ew) as K0.
    apply (cstr_exists m2 _ (o_s (obj st) + Z.of_nat (List.length tok)));
      [rewrite Hs; change STROFF with 16384; lia | exact K0].
Qed.

(** On the invariant the lookup of READ ends for every token the stream
    delivers, at the first entry with the name of the token or at the
    sentinel. *)
Lemma read_finds_on_dictionary (st st1 : machine) (ws : list Z) :
  dictionary (obj st) ws ->
  32 <= core st DICTIONARY <= 8192 ->
  token_read st = Some st1 ->
  exists tok w,
    cstr (core st1) (o_s (obj st1)) = Some tok /\
    find (obj st1) = Some w /\
    ((w = 1 /\ Forall (fun v => name_of (obj st1) v <> tok) ws) \/
     (exists pre post,
        ws = pre ++ w :: post /\ name_of (obj st1) w = tok /\
        Forall (fun v => name_of (obj st1) v <> tok) pre)).
Proof.
  intros Hd Hh Ht.
  destruct (token_read_keeps_dictionary _ _ _ Hd Hh Ht)
    as ((Hd1 & H2 & Hs) & _ & _ & tok & Htok).
  pose proof (dict_chain _ _ _ _ _ Hd1) as Hc.
  exists tok, (first_named (obj st1) tok ws).
  split; [exact Htok|].
  split; [exact (find_first_named _ _ _ Hc H2 Htok)|].
  apply first_named_spec. exact (chain_no_sentinel _ _ _ Hc).
Qed.

(** Stores into cells of the low core other than the dictionary below its
    free pointer and the cell 2 keep the invariant. *)
Lemma dictionary_frame (o o' : forth_obj) (ws : list Z) :
  dictionary o ws ->
  o_s o' = o_s o -> o_L o' = o_L o -> o_t o <= o_t o' ->
  o_m o DICTIONARY <= o_m o' DICTIONARY ->
  o_m o' 2 = o_m o 2 ->
  (forall i, 32 <= i < o_m o DICTIONARY -> o_m o' i = o_m o i) ->
  (forall k, 16384 <= k -> rdb (o_m o') k = rdb (o_m o) k) ->
  dictionary o' ws.
Proof.
  intros (Hd & H2 & Hs) Es EL Et Eh E2 Ec Eb.
  split; [|split].
  - rewrite EL.
    apply (dict_frame o o' (o_m o DICTIONARY) (o_t o)); try assumption.
    intros k Hk. apply Eb. rewrite Hs in Hk. change STROFF with 16384 in Hk.
    lia.
  - rewrite rd_some by core_lia. rewrite E2.
    apply rd_inv in H2. destruct H2 as [_ <-]. reflexivity.
  - congruence.
Qed.

(** DEFINE that gets a name links the new word, tags it COMPILE, starts its
    body with RUN and leaves the machine in compile mode, the invariant
    kept. *)
Lemma define_extends_dictionary (st st' : machine) (x : Z) (ws : list Z) :
  dictionary (obj st) ws ->
  32 <= core st DICTIONARY -> core st DICTIONARY + 4 <= 8192 ->
  32 <= o_t (obj st) -> o_t (obj st) + 32 < 49152 ->
  rd (core st) x = Some (code DEFINE) ->
  step (Inner x) st = Running Fetch st' ->
  dictionary (obj st') (core st DICTIONARY :: ws) /\
  core st' DICTIONARY = core st DICTIONARY + 4 /\
  core st' (core st DICTIONARY + 2) = code COMPILE /\
  core st' (core st DICTIONARY + 3) = code RUN /\
  core st' STATE = 1.
Proof.
  intros Hd R1 R2 R3 R4 Hx Hstep. unfold core in *.
  rewrite (step_inner _ _ _ Hx) in Hstep. unfold exec, core in Hstep.
  rewrite wr_some in Hstep by core_lia.
  set (o0 := set_m (upd (o_m (obj st)) STATE (u16 1)) (obj st)) in *.
  assert (E0 : o_m o0 DICTIONARY = o_m (obj st) DICTIONARY)
    by (unfold o0; fields; apply upd_other; core_lia).
  assert (Hd0 : dictionary o0 ws).
  { refine (dictionary_frame (obj st) o0 ws Hd eq_refl eq_refl _ _ _ _ _);
      unfold o0; fields.
    - lia.
    - rewrite upd_other by core_lia. lia.
    - apply upd_other. core_lia.
    - intros i Hi. apply upd_other. core_lia.
    - intros k Hk. apply rdb_upd_other. unfold STATE.
      Z.to_euclidean_division_equations. lia. }
  destruct (compile_word o0 (code COMPILE) None) as [[r o1]|] eqn:Ec;
    [|discriminate].
  destruct (Z.ltb_spec r 0) as [Hr|Hr]; [discriminate|].
  destruct (compile_word_extends o0 o1 ws (code COMPILE) r None Hd0)
    as (Hd1 & EL1 & E1 & Et1 & K1); try exact I; try exact Ec.
  { unfold room_for_word. rewrite E0. unfold o0. fields. lia. }
  { unfold EOF. lia. }
  rewrite E0 in *.
  rewrite (append_some _ (o_m (obj st) DICTIONARY + 3)) in Hstep
    by (rewrite ?rd_some by core_lia; rewrite ?E1; try reflexivity; core_lia).
  injection Hstep as <-. fields.
  assert (S1 : o_m o1 STATE = 1).
  { destruct Hd1 as (_ & _ & Hs1).
    (* cell 8 is below the header and the name *)
    unfold compile_word in Ec.
    destruct (header_appended (o_m o0) (o_m (obj st) DICTIONARY) (o_L o0)
                (o_t o0) (code COMPILE))
      as (a1 & a2 & A1 & Rd1 & A2 & A3);
      [rewrite rd_some by core_lia; now rewrite E0 | lia | lia |].
    rewrite A1, Rd1, A2, A3 in Ec. unfold wr_str, strlen in Ec.
    destruct (scan_token (o_in o0)) as [[tok rest]|]; cycle 1.
    { destruct (cstr _ _); [|discriminate]. injection Ec as <- _.
      unfold EOF in Hr. lia. }
    destruct (wr_bytes _ (o_s o0 + o_t o0) (tok ++ [0])) as [m4|] eqn:Ew;
      [|discriminate].
    destruct (cstr m4 _); [|discriminate]. injection Ec as _ <-. fields.
    rewrite (wr_bytes_outside _ _ _ _ STATE Ew).
    - destruct (with_header_cells (o_m o0) (o_m (obj st) DICTIONARY)
                  (o_L o0) (o_t o0) (code COMPILE)) as (_ & _ & _ & _ & C);
        try lia.
      + destruct Hd0 as (Hd0 & _). rewrite E0 in Hd0.
        apply (dict_head_range _ _ _ _ _ Hd0).
      + unfold o0. fields. lia.
      + rewrite C by core_lia. unfold o0. fields. apply upd_same.
    - left. unfold o0. fields. destruct Hd as (_ & _ & Hs). rewrite Hs.
      change STROFF with 16384. unfold STATE. lia. }
  refine (conj _ (conj _ (conj _ (conj _ _)))).
  - apply (dictionary_frame o1 _ _ Hd1); fields.
    + reflexivity.
    + reflexivity.
    + lia.
    + rewrite upd_other by core_lia. rewrite upd_same. rewrite E1.
      rewrite u16_small by lia. lia.
    + rewrite !upd_other by core_lia. reflexivity.
    + intros i Hi. rewrite E1 in Hi. rewrite !upd_other by core_lia.
      reflexivity.
    + intros k Hk. rewrite !rdb_upd_other; [reflexivity | | ];
        unfold DICTIONARY in *; Z.to_euclidean_division_equations; lia.
  - rewrite upd_other by core_lia. rewrite upd_same.
    rewrite u16_small by lia. lia.
  - rewrite !upd_other by core_lia. rewrite K1. reflexivity.
  - rewrite upd_same. reflexivity.
  - rewrite !upd_other by core_lia. exact S1.
Qed.

(** One iteration of the outer loop on a pop-only primitive met in execute
    mode: the fetch, READ and the primitive take three steps to a machine
    that has the core and [I] of the machine READ left, so [m[RSTK]] one
    below its value before the iteration; two steps more, the fetch of
    the RUN cell and its call, bring [m[RSTK]] back to that value and [I]
    to the head of the bootstrap word, storing the return address 36. *)
Theorem quiet_word_iteration (st st1 : machine) (w : Z) (c : codes) :
  bootstrap_word (core st) -> l_I st = 34 -> o_s (obj st) = STROFF ->
  0 <= core st RSTK < CORESZ -> core st RSTK <> RSTK ->
  token_read (set_I 35 st) = Some st1 ->
  find (obj st1) = Some w -> w <> 1 ->
  core st1 STATE = 0 ->
  rd (core st1) (u16 (w + 2)) = Some (code COMPILE) ->
  rd (core st1) (u16 (u16 (w + 2) + 1)) = Some (code c) ->
  quiet c = true ->
  step (Inner (u16 (u16 (w + 2) + 1))) st1 <> Undefined ->
  exists st2,
    step (Inner (u16 (u16 (w + 2) + 1))) st1 = Running Fetch st2 /\
    l_I st2 = 35 /\ core st2 = core st1 /\
    core st2 RSTK = u16 (core st RSTK - 1) /\
    run 3 Fetch st = Running Fetch st2 /\
    run 5 Fetch st = Running Fetch (after_call (core st RSTK) st2) /\
    l_I (after_call (core st RSTK) st2) = 34 /\
    core (after_call (core st RSTK) st2) RSTK = core st RSTK.
Proof.
  intros B HI Hs Hr Hr1 Ht Hw Hw1 Hm Htag Hbody Hq Hdef.
  assert (D : dispatch st1 = Running (Inner (u16 (u16 (w + 2) + 1))) st1).
  { rewrite (dispatch_found _ _ Hw Hw1).
    rewrite Hm, Htag. change (0 =? 0) with true.
    now rewrite Z.eqb_refl. }
  destruct (token_read_locals _ _ Ht) as (_ & HI1 & _).
  change (l_I (set_I 35 st)) with 35 in HI1.
  rewrite (step_inner _ _ _ Hbody) in Hdef.
  destruct (quiet_primitive c (u16 (u16 (u16 (w + 2) + 1) + 1)) st1 Hq)
    as [K|(st2 & K & HI2 & Hc)]; [congruence|].
  assert (Ex : step (Inner (u16 (u16 (w + 2) + 1))) st1 = Running Fetch st2)
    by (now rewrite (step_inner _ _ _ Hbody)).
  assert (Hu : untouched st1 st2)
    by (unfold untouched; rewrite HI2, Hc; repeat split).
  destruct (outer_iteration st st1 st2 B HI Hs Hr Hr1 Ht Hu)
    as (S1 & S2 & R1 & S45).
  rewrite D in S2.
  assert (R3 : run 3 Fetch st = Running Fetch st2).
  { rewrite (run_step _ _ _ _ _ S1), (run_step _ _ _ _ _ S2).
    rewrite (run_step _ _ _ _ _ Ex). reflexivity. }
  destruct (after_call_back (core st RSTK) st2 Hr1) as (A1 & A2 & _).
  exists st2. split; [exact Ex|]. split; [congruence|].
  split; [exact Hc|]. split; [now rewrite Hc|].
  split; [exact R3|].
  split; [exact (eq_trans (run_add 3 2 _ _ _ _ R3) S45)|].
  split; assumption.
Qed.

(** One iteration of the outer loop on a number met in execute mode and
    pushed clear of the token: the fetch and READ take two steps to the
    machine with the accumulator pushed and the number in it, [m[RSTK]]
    one below its value before the iteration; two steps more, the fetch
    of the RUN cell and its call, bring [m[RSTK]] back to that value and
    [I] to the head of the bootstrap word, storing the return address
    36. *)
Theorem number_iteration (st st1 : machine) (tok : list Z) :
  bootstrap_word (core st) -> l_I st = 34 -> o_s (obj st) = STROFF ->
  0 <= core st RSTK < CORESZ -> core st RSTK <> RSTK ->
  token_read (set_I 35 st) = Some st1 ->
  find (obj st1) = Some 1 ->
  cstr (core st1) (o_s (obj st1)) = Some tok ->
  isnum tok = true ->
  core st1 STATE = 0 ->
  35 < l_S st1 + 1 < CORESZ ->
  clear_of (o_s (obj st1)) tok (l_S st1 + 1) ->
  let st2 := set_f (strtol0 tok)
               (set_S (l_S st1 + 1)
                  (set_core (upd (core st1) (l_S st1 + 1) (u16 (l_f st1)))
                            st1)) in
  run 2 Fetch st = Running Fetch st2 /\
  core st2 RSTK = u16 (core st RSTK - 1) /\
  run 4 Fetch st = Running Fetch (after_call (core st RSTK) st2) /\
  l_I (after_call (core st RSTK) st2) = 34 /\
  core (after_call (core st RSTK) st2) RSTK = core st RSTK.
Proof.
  intros B HI Hs Hr Hr1 Ht Hw Htok Hn Hm HS Hc st2.
  destruct (number_untouched st1 tok Hw Htok Hn Hm HS Hc) as (D & _ & Hu).
  fold st2 in D, Hu.
  destruct (outer_iteration st st1 st2 B HI Hs Hr Hr1 Ht Hu)
    as (S1 & S2 & R1 & S45).
  rewrite D in S2.
  assert (R2 : run 2 Fetch st = Running Fetch st2).
  { rewrite (run_step _ _ _ _ _ S1), (run_step _ _ _ _ _ S2). reflexivity. }
  destruct (after_call_back (core st RSTK) st2 Hr1) as (A1 & A2 & _).
  split; [exact R2|].
  split; [destruct Hu as (_ & UR & _); now rewrite UR|].
  split; [exact (eq_trans (run_add 2 2 _ _ _ _ R2) S45)|].
  split; assumption.
Qed.


(** ** What a run keeps of the object, and what it returns *)

Lemma kept_refl o : kept o o.
Proof. repeat split. Qed.

Lemma push_inv v st st1 :
  push v st = Some st1 ->
  st1 = set_S (l_S st + 1)
          (set_core (upd (core st) (l_S st + 1) (u16 v)) st).
Proof.
  unfold push. destruct (wr (core st) (l_S st + 1) v) as [m'|] eqn:E;
    [|discriminate].
  apply wr_inv in E. destruct E as [_ ->]. now intros [= <-].
Qed.

Lemma compile_word_kept o c str r o' :
  compile_word o c str = Some (r, o') ->
  kept o o' /\ o_invalid o' = o_invalid o /\ o_out o' = o_out o.
Proof.
  unfold compile_word.
  destruct (append (o_m o) (o_L o)) as [m1|]; [|discriminate].
  destruct (rd m1 DICTIONARY) as [h|]; [|discriminate].
  destruct (append m1 (o_t o)) as [m2|]; [|discriminate].
  destruct (append m2 c) as [m3|]; [|discriminate].
  destruct str as [l|].
  - destruct (wr_str m3 (o_s o + o_t o) l) as [m4|]; [|discriminate].
    destruct (strlen m4 (o_s o + o_t o)) as [n|]; [|discriminate].
    intros [= _ <-]. repeat split.
  - destruct (scan_token (o_in o)) as [[tok rest]|].
    + destruct (wr_str m3 (o_s o + o_t o) tok) as [m4|]; [|discriminate].
      destruct (strlen m4 (o_s o + o_t o)) as [n|]; [|discriminate].
      intros [= _ <-]. repeat split.
    + destruct (strlen m3 (o_s o + o_t o)) as [n|]; [|discriminate].
      intros [= _ <-]. repeat split.
Qed.

Ltac open_match :=
  match goal with
  | |- context [pop ?s] =>
      let E := fresh "E" in
      destruct (pop s) as [[? ?]|] eqn:E; [apply pop_inv in E; subst | ]
  | |- context [push ?v ?s] =>
      let E := fresh "E" in
      destruct (push v s) as [?|] eqn:E; [apply push_inv in E; subst | ]
  | |- step_post _ (match ?e with _ => _ end) => destruct e
  | |- step_post _ (let '(_, _) := ?e in _) => destruct e
  end.

Ltac close_post :=
  cbn [step_post]; unfold kept, fail; fields;
  try (repeat split; reflexivity);
  try (split; [repeat split | left; split; reflexivity]);
  try (split; [repeat split | right; split; reflexivity]).

Lemma dispatch_post st : step_post st (dispatch st).
Proof.
  unfold dispatch. repeat open_match; close_post.
Qed.

Lemma exec_post c x st : step_post st (exec c x st).
Proof.
  destruct c; unfold exec;
    try (repeat open_match; close_post; fail).
  - (* DEFINE *)
    destruct (wr (core st) STATE 1) as [m1|]; [|exact I].
    destruct (compile_word (set_m m1 (obj st)) (code COMPILE) None)
      as [[r o1]|] eqn:Ec; [|exact I].
    apply compile_word_kept in Ec. destruct Ec as (K & Hi & _).
    destruct (r <? 0).
    + cbn [step_post]. unfold fail. fields. split; [exact K|].
      right. split; reflexivity.
    + destruct (append (o_m o1) (code RUN)); [|exact I].
      cbn [step_post]. fields. split; [exact K | exact Hi].
  - (* READ *)
    destruct (rdrop (core st)) as [m1|]; [|exact I].
    destruct (scan_token (o_in (obj st))) as [[tok rest]|].
    + destruct (wr_str m1 (o_s (obj st)) tok) as [m2|]; [|exact I].
      pose proof (dispatch_post
                    (set_obj (set_in rest (set_m m2 (obj st))) st)) as K.
      destruct (dispatch _) as [c' st'|v o' y'|]; exact K.
    + close_post.
Qed.

Lemma step_keeps c st : step_post st (step c st).
Proof.
  destruct c as [|x]; cbn [step].
  - destruct (rd (core st) (l_I st)) as [x|]; [|exact I].
    destruct (x =? 0); close_post.
  - destruct (rd (core st) x) as [op|]; [|exact I].
    destruct (code_of op); apply exec_post.
Qed.

Lemma kept_trans o1 o2 o3 : kept o1 o2 -> kept o2 o3 -> kept o1 o3.
Proof.
  unfold kept. intros (A1 & A2 & A3 & A4 & A5 & A6)
                      (B1 & B2 & B3 & B4 & B5 & B6).
  repeat split; congruence.
Qed.

Lemma run_keeps fuel : forall c st, step_post st (run fuel c st).
Proof.
  induction fuel as [|n IH]; intros c st; cbn [run].
  - cbn [step_post]. split; [apply kept_refl | reflexivity].
  - pose proof (step_keeps c st) as K.
    destruct (step c st) as [c' st'|v o' y'|]; [|exact K|exact I].
    destruct K as (K1 & K2). specialize (IH c' st').
    destruct (run n c' st') as [c2 st2|v o' y'|]; cbn [step_post] in *.
    + destruct IH as (J1 & J2). split; [eapply kept_trans; eauto | congruence].
    + destruct IH as (J1 & J2). split; [eapply kept_trans; eauto|].
      destruct J2 as [[-> J2]|[-> J2]]; [left | right]; split;
        congruence.
    + exact I.
Qed.

(** [forth_run] never copies its locals back: whatever ran, the object
    comes back with the [S], [I], [f], [x], [w] and [s] it had, so the next
    call starts again at the same instruction, data-stack pointer and
    accumulator. *)
Theorem forth_run_keeps_registers
    (fuel : nat) (o o' : forth_obj) (y y' : sys) (r : Z) :
  forth_run fuel o y = Returned r o' y' ->
  o_S o' = o_S o /\ o_I o' = o_I o /\ o_f o' = o_f o /\
  o_x o' = o_x o /\ o_w o' = o_w o /\ o_s o' = o_s o.
Proof.
  unfold forth_run. destruct (o_invalid o).
  - cbn [WARN]. intros [= _ <- _]. repeat split.
  - intros H. pose proof (run_keeps fuel Fetch (enter o y)) as K.
    rewrite H in K. destruct K as ((K1 & K2 & K3 & K4 & K5 & K6) & _).
    change (obj (enter o y)) with o in *. auto 10.
Qed.

(** The value [forth_run] returns tells the latch: 0 comes with the latch
    unset, before and after; -1 comes with the latch set. Nothing else is
    returned. *)
Theorem forth_run_result_tells_latch
    (fuel : nat) (o o' : forth_obj) (y y' : sys) (r : Z) :
  forth_run fuel o y = Returned r o' y' ->
  (r = 0 /\ o_invalid o = false /\ o_invalid o' = false) \/
  (r = -1 /\ o_invalid o' = true).
Proof.
  unfold forth_run. destruct (o_invalid o) eqn:Ei.
  - cbn [WARN]. intros [= <- <- _]. right. split; reflexivity.
  - intros H. pose proof (run_keeps fuel Fetch (enter o y)) as K.
    rewrite H in K. destruct K as (_ & [[-> K]|[-> K]]).
    + left. change (obj (enter o y)) with o in K. rewrite Ei in K. auto.
    + right. auto.
Qed.

(** ** Calls, returns and the shuffles of the two stacks *)

Lemma rpop_some m r v :
  rd m RSTK = Some r -> r <> RSTK -> rd m r = Some v ->
  rpop m = Some (v, upd m RSTK (u16 (r - 1))).
Proof.
  intros Hr Hn Hv. unfold rpop. rewrite Hr.
  apply Z.eqb_neq in Hn. rewrite Hn, Hv.
  now rewrite wr_some by core_lia.
Qed.

(** RUN saves [I] on the return stack and EXIT takes it back: the call
    and the return leave [I], [m[RSTK]], the data stack and the
    accumulator as they were; only the cell the return address went to
    has changed. *)
Theorem call_then_exit_returns (st : machine) (x r : Z) :
  rd (core st) x = Some (code RUN) ->
  rd (core st) RSTK = Some r ->
  0 < r -> r + 1 < CORESZ ->
  0 <= l_I st < 65536 ->
  exists st1,
    step (Inner x) st = Running Fetch st1 /\
    l_I st1 = u16 (x + 1) /\
    core st1 RSTK = r + 1 /\ core st1 (r + 1) = l_I st /\
    forall xe, rd (core st1) xe = Some (code EXIT) ->
    exists st2,
      step (Inner xe) st1 = Running Fetch st2 /\
      l_I st2 = l_I st /\ core st2 RSTK = r /\
      l_S st2 = l_S st /\ l_f st2 = l_f st /\
      forall i, i <> r + 1 -> core st2 i = core st i.
Proof.
  intros Hx Hr H0 H1 HI.
  pose proof (rd_inv _ _ _ Hr) as (_ & Er).
  assert (U1 : u16 (r + 1) = r + 1) by (apply u16_small; core_lia).
  rewrite (step_inner _ _ _ Hx). unfold exec.
  rewrite (rpush_some _ r) by (rewrite ?U1; try assumption; core_lia).
  rewrite U1. eexists. split; [reflexivity|].
  split; [reflexivity|].
  split; [unfold core; fields; rewrite upd_other by core_lia; apply upd_same|].
  split; [unfold core; fields; rewrite upd_same; now apply u16_small|].
  intros xe Hxe. rewrite (step_inner _ _ _ Hxe). unfold exec, core. fields.
  rewrite (rpop_some _ (r + 1) (u16 (l_I st))).
  - eexists. split; [reflexivity|]. fields.
    split; [now apply u16_small|].
    split; [rewrite upd_same; replace (r + 1 - 1) with r by lia;
            apply u16_small; core_lia|].
    split; [reflexivity|]. split; [reflexivity|].
    intros i Hi. destruct (Z.eq_dec i RSTK) as [->|Hn].
    + rewrite upd_same. replace (r + 1 - 1) with r by lia.
      rewrite u16_small by core_lia. exact Er.
    + now rewrite !upd_other by assumption.
  - rewrite rd_some by core_lia. rewrite upd_other by core_lia.
    now rewrite upd_same.
  - core_lia.
  - rewrite rd_some by core_lia. now rewrite upd_same.
Qed.

(** [>r] then [r>]: the accumulator goes to the return stack and comes
    back; the data stack, the accumulator and [m[RSTK]] are as before, and
    only the return-stack cell that held the value has changed. *)
Theorem to_r_then_from_r (st : machine) (x1 x2 r v : Z) :
  rd (core st) x1 = Some (code TOR) ->
  rd (core st) x2 = Some (code FROMR) ->
  rd (core st) RSTK = Some r ->
  0 < r -> r + 1 < CORESZ ->
  rd (core st) (l_S st) = Some v ->
  l_S st <> RSTK -> l_S st <> r + 1 ->
  x2 <> RSTK -> x2 <> r + 1 ->
  0 <= l_f st < 65536 -> 0 <= v < 65536 ->
  exists st1 st2,
    step (Inner x1) st = Running Fetch st1 /\
    l_f st1 = v /\ l_S st1 = l_S st - 1 /\ core st1 (r + 1) = l_f st /\
    step (Inner x2) st1 = Running Fetch st2 /\
    l_f st2 = l_f st /\ l_S st2 = l_S st /\ l_I st2 = l_I st /\
    forall i, i <> r + 1 -> core st2 i = core st i.
Proof.
  intros H1 H2 Hr R0 R1 Hv S1 S2 X1 X2 Hf Hv'.
  pose proof (rd_inv _ _ _ Hr) as (_ & Er).
  pose proof (rd_inv _ _ _ Hv) as (HS & Ev).
  pose proof (rd_inv _ _ _ H2) as (HX & E2).
  assert (U1 : u16 (r + 1) = r + 1) by (apply u16_small; core_lia).
  rewrite (step_inner _ _ _ H1). unfold exec.
  rewrite (rpush_some _ r) by (rewrite ?U1; try assumption; core_lia).
  rewrite U1. unfold pop. unfold core in *. fields.
  rewrite rd_some by lia. rewrite !upd_other by assumption.
  do 2 eexists. split; [reflexivity|]. fields.
  split; [rewrite <- Ev; now apply u16_small|].
  split; [reflexivity|].
  split; [rewrite upd_same; now apply u16_small|].
  rewrite (step_inner _ _ FROMR)
    by (unfold core; fields; rewrite rd_some by lia;
        rewrite !upd_other by assumption; now rewrite <- E2).
  unfold exec. rewrite push_some by (fields; lia). unfold core. fields.
  replace (l_S st - 1 + 1) with (l_S st) by lia.
  rewrite (rpop_some _ (r + 1) (u16 (l_f st))).
  - split; [reflexivity|]. fields.
    split; [rewrite u16_idem; now apply u16_small|].
    split; [reflexivity|]. split; [reflexivity|].
    intros i Hi. destruct (Z.eq_dec i RSTK) as [->|Hn].
    + rewrite upd_same. replace (r + 1 - 1) with r by lia.
      rewrite u16_small by core_lia. exact Er.
    + rewrite upd_other by assumption.
      destruct (Z.eq_dec i (l_S st)) as [->|Hs].
      * rewrite upd_same, u16_idem. apply u16_small. now rewrite <- Ev.
      * now rewrite !upd_other by assumption.
  - rewrite rd_some by core_lia. rewrite upd_other by core_lia.
    rewrite upd_other by core_lia. now rewrite upd_same.
  - core_lia.
  - rewrite rd_some by core_lia. rewrite upd_other by lia.
    now rewrite upd_same.
Qed.

(** ** The end of the input *)

(** READ on a stream that holds nothing but white space: [forth_run]
    returns 0 from inside the bootstrap word, the latch stays clear, the
    diagnostics stay as they were, and the decrement of [m[RSTK]], done
    before the token is asked for, is the one change of the core. Every
    further call on the exhausted stream lowers [m[RSTK]] once more. *)
Theorem blank_input_returns_zero (o : forth_obj) (y : sys) (n : nat) :
  o_invalid o = false ->
  bootstrap_word (o_m o) -> o_I o = 34 ->
  skip_ws (o_in o) = [] ->
  let o' := set_in [] (set_m (upd (o_m o) RSTK (u16 (o_m o RSTK - 1))) o) in
  forth_run (2 + n) o y = Returned 0 o' y /\
  o_invalid o' = false /\ bootstrap_word (o_m o') /\ o_I o' = 34 /\
  skip_ws (o_in o') = [].
Proof.
  intros Hv (B0 & B1 & B2 & B3) HI Hw o'. split.
  - unfold forth_run. rewrite Hv.
    assert (F : step Fetch (enter o y)
                = Running (Inner 32) (set_I (u16 (34 + 1)) (enter o y))).
    { rewrite (step_fetch _ 32).
      - unfold enter. fields. now rewrite HI.
      - unfold enter, core. fields. rewrite HI, rd_some by core_lia.
        now rewrite B2.
      - discriminate. }
    change (2 + n)%nat with (S (S n)).
    rewrite (run_step _ _ _ _ _ F).
    cbn [run]. rewrite (step_inner _ _ READ).
    + unfold exec, rdrop, core, enter. fields.
      rewrite rd_some by core_lia. rewrite wr_some by core_lia.
      unfold scan_token. rewrite Hw. reflexivity.
    + unfold enter, core. fields. rewrite rd_some by core_lia.
      now rewrite B0.
  - subst o'. fields. split; [exact Hv|].
    split; [|split; [exact HI | reflexivity]].
    refine (conj _ (conj _ (conj _ _)));
      rewrite upd_other by core_lia; assumption.
Qed.

(** ** Comments *)

(** COMMENT consumes the line: the bytes up to the first line feed or zero
    byte, and that byte; when there is none, all that is left. Nothing but
    the stream changes. *)
Theorem comment_skips_line (st : machine) (x : Z) (l tl : list Z) :
  rd (core st) x = Some (code COMMENT) ->
  o_in (obj st) = l ++ tl ->
  Forall (fun c => c mod 256 <> 0 /\ c mod 256 <> 10) l ->
  match tl with
  | [] => True
  | e :: _ => e mod 256 = 10 \/ e mod 256 = 0
  end ->
  step (Inner x) st
  = Running Fetch (set_obj (set_in (List.tl tl) (obj st)) st).
Proof.
  intros Hx Hin Hl He. rewrite (step_inner _ _ _ Hx). unfold exec.
  rewrite Hin. clear Hin Hx. do 3 f_equal.
  induction Hl as [|c l [H0 H10] _ IH]; cbn [skip_line app].
  - destruct tl as [|e rest]; [reflexivity|]. cbn [skip_line List.tl].
    destruct He as [-> | ->]; [rewrite orb_true_r | ]; reflexivity.
  - apply Z.eqb_neq in H0, H10. now rewrite H0, H10.
Qed.

(** ** Shuffles of the data stack *)

(** DUP then DROP gives the machine back: the accumulator, the stack
    pointer and every cell but the one above the top of the stack, where DUP
    left its copy, are as before. *)
Theorem dup_then_drop (st : machine) (x1 x2 : Z) :
  0 <= l_f st < 65536 ->
  0 <= l_S st + 1 < CORESZ ->
  rd (core st) x1 = Some (code DUP) ->
  rd (core st) x2 = Some (code DROP) -> x2 <> l_S st + 1 ->
  exists st1 st2,
    step (Inner x1) st = Running Fetch st1 /\
    l_S st1 = l_S st + 1 /\ core st1 (l_S st1) = l_f st /\
    l_f st1 = l_f st /\
    step (Inner x2) st1 = Running Fetch st2 /\
    l_f st2 = l_f st /\ l_S st2 = l_S st /\
    forall i, i <> l_S st + 1 -> core st2 i = core st i.
Proof.
  intros Hf S1 H1 H2 Hne.
  pose proof (rd_inv _ _ _ H2) as (HX & E2).
  rewrite (step_inner _ _ _ H1). unfold exec.
  rewrite push_some by lia.
  do 2 eexists. split; [reflexivity|].
  split; [reflexivity|].
  split; [unfold core; fields; rewrite upd_same; now apply u16_small|].
  split; [reflexivity|].
  rewrite (step_inner _ _ DROP)
    by (unfold core in *; fields; rewrite rd_some by lia;
        rewrite upd_other by assumption; now rewrite <- E2).
  unfold exec. rewrite (pop_some _ (u16 (l_f st)))
    by (unfold core; fields; rewrite rd_some by lia; now rewrite upd_same).
  split; [reflexivity|]. unfold core. fields.
  split; [rewrite u16_idem; now apply u16_small|].
  split; [lia|].
  intros i Hi. now rewrite upd_other.
Qed.

(** SWAP exchanges the accumulator and the top of the stack, and SWAP
    twice gives the machine back, the whole core with it. *)
Theorem swap_twice (st : machine) (x v : Z) :
  0 <= l_f st < 65536 ->
  0 <= l_S st < CORESZ ->
  rd (core st) (l_S st) = Some v -> 0 <= v < 65536 ->
  rd (core st) x = Some (code SWAP) -> x <> l_S st ->
  exists st1 st2,
    step (Inner x) st = Running Fetch st1 /\
    l_f st1 = v /\ l_S st1 = l_S st /\ core st1 (l_S st1) = l_f st /\
    step (Inner x) st1 = Running Fetch st2 /\
    l_f st2 = l_f st /\ l_S st2 = l_S st /\
    forall i, core st2 i = core st i.
Proof.
  intros Hf S1 Hv Hv' H1 Hne.
  pose proof (rd_inv _ _ _ Hv) as (_ & Ev).
  pose proof (rd_inv _ _ _ H1) as (HX & E1).
  rewrite (step_inner _ _ _ H1). unfold exec.
  rewrite (pop_some _ _ Hv).
  rewrite push_some by (fields; lia). fields.
  replace (l_S st - 1 + 1) with (l_S st) by lia.
  do 2 eexists. split; [reflexivity|]. fields.
  split; [now apply u16_small|].
  split; [reflexivity|].
  split; [unfold core; fields; rewrite upd_same; now apply u16_small|].
  rewrite (step_inner _ _ SWAP)
    by (unfold core in *; fields; rewrite rd_some by lia;
        rewrite upd_other by assumption; now rewrite <- E1).
  unfold exec. rewrite (pop_some _ (u16 (l_f st)))
    by (unfold core; fields; rewrite rd_some by lia; now rewrite upd_same).
  rewrite push_some by (fields; lia). fields.
  replace (l_S st - 1 + 1) with (l_S st) by lia.
  split; [reflexivity|]. unfold core in *. fields.
  split; [rewrite u16_idem; now apply u16_small|].
  split; [reflexivity|].
  intros i. destruct (Z.eq_dec i (l_S st)) as [->|Hi].
  - rewrite upd_same. rewrite !u16_idem. rewrite <- Ev.
    now apply u16_small.
  - now rewrite !upd_other by assumption.
Qed.

(** ** A store read back *)

Lemma CK_u16 z : CK (u16 z) = CK z.
Proof.
  unfold CK, u16. change 32767 with (Z.ones 15).
  rewrite !Z.land_ones by lia.
  change (2 ^ 15) with 32768.
  Z.to_euclidean_division_equations. lia.
Qed.

(** STORE then LOAD: the value stored comes back through every address
    that agrees with the address of the store in its low 15 bits, so the
    addresses [a] and [a + 32768] name one cell. The address of the LOAD is
    what STORE popped into the accumulator. *)
Theorem store_then_load (st : machine) (x1 x2 v a : Z) :
  rd (core st) x1 = Some (code STORE) ->
  rd (core st) x2 = Some (code LOAD) ->
  rd (core st) (l_S st) = Some v ->
  rd (core st) (l_S st - 1) = Some a ->
  CK a = CK (l_f st) ->
  CK (l_f st) <> l_S st - 1 -> CK (l_f st) <> x2 ->
  exists st1 st2,
    step (Inner x1) st = Running Fetch st1 /\
    l_f st1 = u16 a /\
    step (Inner x2) st1 = Running Fetch st2 /\
    l_f st2 = u16 v /\ l_S st2 = l_S st - 2 /\
    core st2 = upd (core st) (CK (l_f st)) (u16 v).
Proof.
  intros H1 H2 Hv Ha Hck N1 N2.
  pose proof (rd_inv _ _ _ Ha) as (HS & Ea).
  pose proof (rd_inv _ _ _ H2) as (HX & E2).
  pose proof (CK_range (l_f st)) as HC.
  rewrite (step_inner _ _ _ H1). unfold exec.
  rewrite (pop_some _ _ Hv). fields.
  rewrite wr_some by (fields; lia).
  rewrite (pop_some _ a)
    by (unfold core in *; fields; rewrite rd_some by lia;
        rewrite upd_other by lia; now rewrite <- Ea).
  do 2 eexists. split; [reflexivity|]. fields.
  split; [reflexivity|].
  rewrite (step_inner _ _ LOAD)
    by (unfold core in *; fields; rewrite rd_some by lia;
        rewrite upd_other by lia; now rewrite <- E2).
  unfold exec. fields. rewrite CK_u16, Hck.
  unfold core. fields. rewrite rd_some by lia. rewrite upd_same.
  split; [reflexivity|]. fields.
  split; [apply u16_idem|].
  split; [lia | reflexivity].
Qed.

(** ** A block saved and loaded *)

Lemma rd_bytes_length m n : forall p, List.length (rd_bytes m p n) = n.
Proof. induction n as [|n IH]; intros p; cbn; [|rewrite IH]; reflexivity. Qed.

Lemma rdb_byte m k b : rdb m k = Some b -> 0 <= b < 256.
Proof.
  unfold rdb. destruct (in_bytes k); [|discriminate].
  intros [= <-]. destruct (is_low k); apply Z.mod_pos_bound; lia.
Qed.

Lemma rd_bytes_bytes m n : forall p,
  map (fun b => b mod 256) (rd_bytes m p n) = rd_bytes m p n.
Proof.
  induction n as [|n IH]; intros p; cbn [rd_bytes map]; [reflexivity|].
  rewrite IH. f_equal. destruct (rdb m p) as [b|] eqn:E; [|reflexivity].
  apply rdb_byte in E. now apply Z.mod_small.
Qed.

Lemma firstn_exact {A} (l : list A) : firstn (List.length l) l = l.
Proof. apply firstn_all. Qed.

(** A block written by [blockio] in mode ['w'] and read back in mode
    ['r'], at any offset the guard accepts and into any core: both calls
    return 0, the write leaves the core alone, and the read puts the 1024
    bytes of the write at its own offset and changes no other byte. *)
Theorem block_save_then_load (m m' : mem) (p q id : Z) (y : sys) :
  0 <= p <= CORESZ - BLKSZ ->
  0 <= q <= CORESZ - BLKSZ ->
  can_create (fs y) (block_name id) = true ->
  BLKSZ <= room (fs y) ->
  exists y1 m2,
    blockio m p id 119 y = (0, m, y1) /\
    stderr y1 = stderr y /\
    blockio m' q id 114 y1 = (0, m2, y1) /\
    rd_bytes m2 q (Z.to_nat BLKSZ) = rd_bytes m p (Z.to_nat BLKSZ) /\
    forall k, k < q \/ q + BLKSZ <= k -> rdb m2 k = rdb m' k.
Proof.
  intros Hp Hq Hc Hr.
  rewrite blockio_write by lia. rewrite Hc.
  replace (Z.max 0 (Z.min BLKSZ (room (fs y)))) with BLKSZ
    by (unfold BLKSZ in *; lia).
  cbv zeta. rewrite Z.eqb_refl.
  set (put := rd_bytes m p (Z.to_nat BLKSZ)).
  assert (Lp : List.length put = Z.to_nat BLKSZ) by apply rd_bytes_length.
  destruct (wr_bytes_some put m' q) as (m2 & Hw).
  { lia. } { rewrite Lp. unfold BLKSZ in *. core_lia. }
  eexists. exists m2. split; [reflexivity|].
  split; [reflexivity|].
  split.
  - unfold blockio.
    replace (q >? CORESZ - BLKSZ) with false by (symmetry; lia).
    cbn [orb negb Z.eqb Pos.eqb fs files put_file].
    rewrite String.eqb_refl.
    rewrite <- Lp, firstn_exact, Hw, Lp.
    rewrite Z2Nat.id by (unfold BLKSZ; lia).
    now rewrite Z.eqb_refl.
  - split.
    + rewrite <- Lp. rewrite (wr_bytes_rd_bytes _ _ _ _ Hw).
      apply rd_bytes_bytes.
    + intros k [Hk|Hk].
      * now apply (wr_bytes_rdb_before _ _ _ _ _ Hw).
      * apply (wr_bytes_rdb_after _ _ _ _ _ Hw). rewrite Lp.
        unfold BLKSZ in *. lia.
Qed.

(** ** KEY at the end of the input *)

(** KEY pushes the accumulator and reads one byte; at the end of the
    input the accumulator gets [EOF] converted to 16 bits, which no byte
    gives: the result tells the end of the input from every byte. *)
Theorem key_tells_end_of_input (st : machine) (x : Z) :
  rd (core st) x = Some (code KEY) ->
  0 <= l_S st + 1 < CORESZ ->
  exists st',
    step (Inner x) st = Running Fetch st' /\
    l_S st' = l_S st + 1 /\ core st' (l_S st') = u16 (l_f st) /\
    (l_f st' = u16 EOF <-> o_in (obj st) = []) /\
    o_in (obj st') = List.tl (o_in (obj st)) /\
    match o_in (obj st) with
    | [] => True
    | c :: _ => l_f st' = c mod 256
    end.
Proof.
  intros Hx HS. rewrite (step_inner _ _ _ Hx). unfold exec.
  rewrite push_some by assumption. fields.
  destruct (o_in (obj st)) as [|c rest] eqn:E; cbn [fgetc List.tl].
  - eexists. split; [reflexivity|]. fields.
    split; [reflexivity|].
    split; [unfold core; fields; apply upd_same|].
    split; [split; reflexivity|]. split; [reflexivity | exact I].
  - eexists. split; [reflexivity|]. fields.
    pose proof (Z.mod_pos_bound c 256 ltac:(lia)) as Hc.
    rewrite (u16_small (c mod 256)) by lia.
    split; [reflexivity|].
    split; [unfold core; fields; apply upd_same|].
    change (u16 EOF) with 65535.
    split; [split; [lia | discriminate]|]. split; reflexivity.
Qed.

(** ** A definition and the lookup of its name *)

Lemma cstr_loop_wr_str l : forall fuel m p m',
  wr_bytes m p (l ++ [0]) = Some m' ->
  Forall (fun b => b mod 256 <> 0) l ->
  (List.length l < fuel)%nat ->
  cstr_loop fuel m' p = Some (map (fun b => b mod 256) l).
Proof.
  induction l as [|b r IH]; intros fuel m p m' Hw Hl Hf.
  - destruct fuel as [|n]; [cbn in Hf; lia|].
    pose proof (wr_bytes_rdb_last [] _ _ _ _ Hw) as K.
    cbn [List.length Z.of_nat] in K. rewrite Z.add_0_r in K.
    cbn [cstr_loop map]. rewrite K. reflexivity.
  - destruct fuel as [|n]; [cbn in Hf; lia|].
    cbn [app wr_bytes] in Hw.
    destruct (wrb m p b) as [m1|] eqn:E1; [|discriminate].
    inversion Hl as [|? ? Hb Hr]; subst.
    cbn [cstr_loop map].
    rewrite (wr_bytes_rdb_before _ _ _ _ p Hw) by lia.
    rewrite (rdb_wrb_same _ _ _ _ E1).
    apply Z.eqb_neq in Hb. rewrite Hb.
    rewrite (IH n m1 (p + 1) m' Hw Hr) by (cbn in Hf; lia).
    reflexivity.
Qed.

Lemma cstr_wr_str m p l m' :
  wr_bytes m p (l ++ [0]) = Some m' -> 0 <= p ->
  Forall (fun b => b mod 256 <> 0) l ->
  cstr m' p = Some (map (fun b => b mod 256) l).
Proof.
  intros Hw Hp Hl. apply (cstr_loop_wr_str l _ m); try assumption.
  pose proof (wr_bytes_rdb_last _ _ _ _ _ Hw) as K.
  apply rdb_range in K. core_lia.
Qed.

(** DEFINE on a stream that holds a token: the step is defined, and the
    name of the new header is the token. *)
Lemma define_step (st : machine) (x h : Z) (tok rest : list Z) :
  rd (core st) x = Some (code DEFINE) ->
  core st DICTIONARY = h -> 32 <= h -> h + 4 <= 8192 ->
  o_s (obj st) = STROFF -> 0 <= o_L (obj st) < 65536 ->
  32 <= o_t (obj st) -> o_t (obj st) + 32 < 49152 ->
  scan_token (o_in (obj st)) = Some (tok, rest) ->
  Forall (fun b => b mod 256 <> 0) tok ->
  exists st',
    step (Inner x) st = Running Fetch st' /\
    o_in (obj st') = rest /\
    core st' (h + 1) = o_t (obj st) /\
    core st' RSTK = core st RSTK /\
    cstr (core st') (o_s (obj st) + o_t (obj st))
    = Some (map (fun b => b mod 256) tok).
Proof.
  intros Hx Hh H0 H1 Hs HL T0 T1 Htok Hnz. unfold core in *.
  rewrite (step_inner _ _ _ Hx). unfold exec, core.
  rewrite wr_some by core_lia.
  set (m0 := upd (o_m (obj st)) STATE (u16 1)).
  assert (E0 : rd m0 DICTIONARY = Some h).
  { rewrite rd_some by core_lia. unfold m0. rewrite upd_other by core_lia.
    now rewrite Hh. }
  destruct (header_appended m0 h (o_L (obj st)) (o_t (obj st))
              (code COMPILE) E0) as (a1 & a2 & A1 & Rd1 & A2 & A3);
    [lia | lia |].
  pose proof (scan_token_length _ _ _ Htok) as Hlen.
  set (mh := with_header m0 h (o_L (obj st)) (o_t (obj st)) (code COMPILE))
    in *.
  destruct (wr_bytes_some (tok ++ [0]) mh (o_s (obj st) + o_t (obj st)))
    as (m4 & Ew).
  { rewrite Hs. change STROFF with 16384. lia. }
  { rewrite List.length_app. cbn [List.length]. rewrite Hs.
    change STROFF with 16384. lia. }
  pose proof (cstr_wr_str _ _ _ _ Ew) as Hn.
  rewrite Hs in Hn. change STROFF with 16384 in Hn.
  specialize (Hn ltac:(lia) Hnz).
  assert (C : forall i, i < 8192 -> m4 i = mh i).
  { intros i Hi. apply (wr_bytes_outside _ _ _ _ i Ew). left.
    rewrite Hs. change STROFF with 16384. lia. }
  destruct (with_header_cells m0 h (o_L (obj st)) (o_t (obj st))
              (code COMPILE)) as (W0 & _ & W1 & _ & Wo); try lia.
  unfold compile_word. fields. rewrite A1, Rd1, A2, A3. rewrite Htok.
  unfold wr_str, strlen. fold mh. rewrite Ew.
  rewrite Hs. change STROFF with 16384. rewrite Hn.
  cbn [Z.ltb Z.compare]. fields.
  rewrite (append_some _ (h + 3))
    by (rewrite ?rd_some by core_lia; rewrite ?C by core_lia;
        try (fold mh in W0; rewrite W0); try reflexivity; core_lia).
  eexists. split; [reflexivity|]. fields.
  split; [reflexivity|].
  split; [rewrite !upd_other by core_lia; rewrite C by lia; exact W1|].
  split.
  { rewrite !upd_other by core_lia. rewrite C by core_lia.
    fold mh in Wo. rewrite Wo by core_lia. unfold m0.
    apply upd_other. core_lia. }
  apply (cstr_frame m4); [exact Hn|].
  intros k Hk. rewrite !rdb_upd_other; [reflexivity | | ];
    unfold DICTIONARY in *; Z.to_euclidean_division_equations; lia.
Qed.

(** A word is seen by the lookup as soon as DEFINE has compiled its
    header, so before its definition is finished: DEFINE on the token [tok]
    links an entry named [tok], and a READ that gets the same name next
    finds that entry, whatever older entries carry the name. *)
Theorem defined_word_is_found (st : machine) (x : Z)
    (ws tok rest tok2 rest2 : list Z) :
  dictionary (obj st) ws ->
  32 <= core st DICTIONARY -> core st DICTIONARY + 4 <= 8192 ->
  32 <= o_t (obj st) -> o_t (obj st) + 32 < 49152 ->
  rd (core st) x = Some (code DEFINE) ->
  scan_token (o_in (obj st)) = Some (tok, rest) ->
  Forall (fun b => b mod 256 <> 0) tok ->
  scan_token rest = Some (tok2, rest2) ->
  map (fun b => b mod 256) tok2 = map (fun b => b mod 256) tok ->
  exists st' st1,
    step (Inner x) st = Running Fetch st' /\
    dictionary (obj st') (core st DICTIONARY :: ws) /\
    name_of (obj st') (core st DICTIONARY) = map (fun b => b mod 256) tok /\
    core st' (core st DICTIONARY + 2) = code COMPILE /\
    core st' STATE = 1 /\
    token_read st' = Some st1 /\
    find (obj st1) = Some (core st DICTIONARY).
Proof.
  intros Hd R1 R2 R3 R4 Hx Htok Hnz Htok2 Hsame.
  pose proof Hd as (Hd0 & _ & Hs).
  pose proof (dict_head_range _ _ _ _ _ Hd0) as HL.
  destruct (define_step st x _ tok rest Hx eq_refl R1 R2 Hs HL R3 R4 Htok Hnz)
    as (st' & Hstep & Hin & Ht & Hr & Hname).
  destruct (define_extends_dictionary st st' x ws Hd R1 R2 R3 R4 Hx Hstep)
    as (Hd' & Eh & Etag & _ & Emode).
  pose proof Hd' as (_ & _ & Hs').
  set (h := core st DICTIONARY) in *.
  assert (N' : name_of (obj st') h = map (fun b => b mod 256) tok).
  { unfold name_of. fold (core st'). rewrite rd_some by core_lia.
    rewrite Ht, Hs', <- Hs. now rewrite Hname. }
  (* the token of the READ *)
  pose proof (scan_token_length _ _ _ Htok2) as Hlen.
  destruct (wr_bytes_some (tok2 ++ [0])
              (upd (core st') RSTK (u16 (core st' RSTK - 1))) (o_s (obj st')))
    as (m2 & Ew).
  { rewrite Hs'. change STROFF with 16384. lia. }
  { rewrite List.length_app. cbn [List.length]. rewrite Hs'.
    change STROFF with 16384. lia. }
  assert (Hread : token_read st'
                  = Some (set_obj (set_in rest2 (set_m m2 (obj st'))) st')).
  { unfold token_read, rdrop. rewrite rd_some by core_lia.
    rewrite wr_some by core_lia. rewrite Hin, Htok2. unfold wr_str.
    now rewrite Ew. }
  set (st1 := set_obj (set_in rest2 (set_m m2 (obj st'))) st') in *.
  exists st', st1.
  split; [exact Hstep|]. split; [exact Hd'|]. split; [exact N'|].
  split; [exact Etag|]. split; [exact Emode|].
  split; [exact Hread|].
  assert (Hnz2 : Forall (fun b => b mod 256 <> 0) tok2).
  { assert (K : Forall (fun c => c <> 0) (map (fun b => b mod 256) tok2)).
    { rewrite Hsame. rewrite Forall_map. exact Hnz. }
    rewrite Forall_map in K. exact K. }
  assert (Htk : cstr (core st1) (o_s (obj st1))
                = Some (map (fun b => b mod 256) tok)).
  { rewrite <- Hsame. unfold st1, core. fields.
    apply (cstr_wr_str _ _ _ _ Ew); [|exact Hnz2].
    rewrite Hs'. change STROFF with 16384. lia. }
  assert (N1 : name_of (obj st1) h = map (fun b => b mod 256) tok).
  { unfold name_of. rewrite rd_some by core_lia.
    change (o_m (obj st1) (h + 1)) with (core st1 (h + 1)).
    rewrite (token_read_core _ _ Hread Hs') by (unfold h; lia).
    replace (h + 1 =? RSTK) with false by (symmetry; core_lia).
    rewrite Ht.
    replace (o_s (obj st1)) with (o_s (obj st)) by (unfold st1; fields; congruence).
    erewrite cstr_frame; [reflexivity | exact Hname |].
    intros k Hk. unfold st1, core. fields.
    rewrite (wr_bytes_rdb_after _ _ _ _ k Ew)
      by (rewrite List.length_app; cbn [List.length]; rewrite Hs', <- Hs; lia).
    apply rdb_upd_other. rewrite Hs in Hk. change STROFF with 16384 in Hk.
    unfold RSTK. Z.to_euclidean_division_equations. lia. }
  destruct (read_finds_on_dictionary st' st1 (h :: ws) Hd') as
    (tok' & w & Hc & Hf & Hcase); [lia | exact Hread |].
  assert (tok' = map (fun b => b mod 256) tok) by congruence. subst tok'.
  rewrite Hf. f_equal.
  destruct Hcase as [(_ & Hall) | (pre & post & Hsplit & _ & Hpre)].
  - inversion Hall as [|? ? Hne _]; subst. now elim Hne.
  - destruct pre as [|p pre].
    + cbn [app] in Hsplit. now injection Hsplit as <- _.
    + cbn [app] in Hsplit. injection Hsplit as <- _.
      inversion Hpre as [|? ? Hne _]; subst. now elim Hne.
Qed.

(** ** IMMEDIATE *)

(** IMMEDIATE takes the free pointer two cells back, stores RUN there and
    steps over it: the cell two below the free pointer, the tag of the word
    DEFINE has just opened, becomes RUN, the free pointer ends one lower,
    and no other cell changes. *)
Theorem immediate_retags (st : machine) (x d : Z) :
  rd (core st) x = Some (code IMMEDIATE) ->
  core st DICTIONARY = d ->
  2 < d < CORESZ ->
  exists st',
    step (Inner x) st = Running Fetch st' /\
    core st' DICTIONARY = d - 1 /\
    core st' (d - 2) = code RUN /\
    (forall i, i <> DICTIONARY -> i <> d - 2 -> core st' i = core st i) /\
    l_S st' = l_S st /\ l_I st' = l_I st /\ l_f st' = l_f st.
Proof.
  intros Hx Hd Hr. rewrite (step_inner _ _ _ Hx). unfold exec.
  rewrite (rd_some _ DICTIONARY) by core_lia. rewrite Hd.
  rewrite wr_some by core_lia.
  assert (U : u16 (d - 2) = d - 2) by (apply u16_small; core_lia).
  rewrite U.
  rewrite (append_some _ (d - 2))
    by (rewrite ?rd_some by core_lia; rewrite ?upd_same;
        try reflexivity; core_lia).
  eexists. split; [reflexivity|]. unfold core. fields.
  split; [rewrite upd_other by core_lia; rewrite upd_same;
          replace (d - 2 + 1) with (d - 1) by lia;
          apply u16_small; core_lia|].
  split; [rewrite upd_same; reflexivity|].
  split; [|repeat split].
  intros i H0 H2. now rewrite !upd_other by assumption.
Qed.

(** ** DEFINE at the end of the input *)

Lemma cstr_nul m p : 0 <= p -> rdb m p = Some 0 -> cstr m p = Some [].
Proof.
  intros Hp H. pose proof (rdb_range _ _ _ H) as R.
  unfold cstr.
  destruct (Z.to_nat (2 * CORESZ - p)) as [|n] eqn:E; [core_lia|].
  cbn [cstr_loop]. now rewrite H.
Qed.

(** DEFINE that finds no token: [forth_run] returns -1 and sets the latch,
    and the header compiled before the token was asked for stays behind:
    the free pointer is three cells up, [L] is the nameless entry, the
    compile mode is on and the name table has grown by the terminator of
    an empty name. *)
Theorem define_at_end_of_input (st : machine) (x h : Z) :
  rd (core st) x = Some (code DEFINE) ->
  core st DICTIONARY = h -> 32 <= h -> h + 3 <= 8192 ->
  o_s (obj st) = STROFF -> 0 <= o_L (obj st) < 65536 ->
  32 <= o_t (obj st) -> o_t (obj st) + 32 < 49152 ->
  scan_token (o_in (obj st)) = None ->
  rdb (core st) (o_s (obj st) + o_t (obj st)) = Some 0 ->
  exists o',
    step (Inner x) st = Returned (-1) o' (env st) /\
    o_invalid o' = true /\
    o_m o' DICTIONARY = h + 3 /\ o_L o' = h /\
    o_m o' h = o_L (obj st) /\ o_m o' (h + 1) = o_t (obj st) /\
    o_m o' (h + 2) = code COMPILE /\
    o_m o' STATE = 1 /\ o_t o' = o_t (obj st) + 1 /\ o_in o' = [].
Proof.
  intros Hx Hh H0 H1 Hs HL T0 T1 Htok Hz. unfold core in *.
  rewrite (step_inner _ _ _ Hx). unfold exec, core.
  rewrite wr_some by core_lia.
  set (m0 := upd (o_m (obj st)) STATE (u16 1)).
  assert (E0 : rd m0 DICTIONARY = Some h).
  { rewrite rd_some by core_lia. unfold m0. rewrite upd_other by core_lia.
    now rewrite Hh. }
  destruct (header_appended m0 h (o_L (obj st)) (o_t (obj st))
              (code COMPILE) E0) as (a1 & a2 & A1 & Rd1 & A2 & A3);
    [lia | lia |].
  set (mh := with_header m0 h (o_L (obj st)) (o_t (obj st)) (code COMPILE))
    in *.
  destruct (with_header_cells m0 h (o_L (obj st)) (o_t (obj st))
              (code COMPILE)) as (W0 & WL & W1 & W2 & Wo); try lia.
  fold mh in W0, WL, W1, W2, Wo.
  assert (Hn : cstr mh (o_s (obj st) + o_t (obj st)) = Some []).
  { apply cstr_nul; [rewrite Hs; change STROFF with 16384; lia|].
    rewrite <- Hz. unfold mh, with_header, m0.
    rewrite Hs. change STROFF with 16384.
    rewrite !rdb_upd_other; [reflexivity | | | | | | |];
      unfold DICTIONARY, STATE in *; Z.to_euclidean_division_equations; lia. }
  unfold compile_word. fields. rewrite A1, Rd1, A2, A3. rewrite Htok.
  unfold strlen. fold mh. rewrite Hn.
  cbn [List.length Z.of_nat EOF Z.ltb Z.compare]. unfold fail. fields.
  eexists. split; [reflexivity|]. fields.
  split; [reflexivity|].
  split; [exact W0|].
  split; [replace (h + 1 - 1) with h by lia; apply u16_small; lia|].
  split; [exact WL|]. split; [exact W1|].
  split; [rewrite W2; apply u16_small; cbn; lia|].
  split; [rewrite Wo by core_lia; unfold m0; apply upd_same|].
  split; [rewrite Z.add_0_r; apply u16_small; lia | reflexivity].
Qed.

(** ** What the compile mode appends, and what the fetch makes of it *)

(** A word tagged COMPILE met in compile mode: the dispatch goes to the
    tag, and COMPILE appends the address of the cell after the tag, the
    body of the word; a fetch of the appended cell enters the [switch] at
    that body. *)
Theorem compiled_word_runs_body (st1 : machine) (w h : Z) :
  find (obj st1) = Some w -> w <> 1 ->
  0 <= w -> w + 3 < 65536 ->
  core st1 STATE <> 0 ->
  rd (core st1) (w + 2) = Some (code COMPILE) ->
  core st1 DICTIONARY = h -> 0 < h -> h + 1 < CORESZ ->
  exists st2,
    dispatch st1 = Running (Inner (w + 2)) st1 /\
    step (Inner (w + 2)) st1 = Running Fetch st2 /\
    core st2 DICTIONARY = h + 1 /\ core st2 h = w + 3 /\
    step Fetch (set_I h st2)
    = Running (Inner (w + 3)) (set_I (h + 1) st2).
Proof.
  intros Hf Hw W0 W1 Hm Htag Hh H0 H1.
  rewrite (dispatch_found _ _ Hf Hw).
  apply Z.eqb_neq in Hm. rewrite Hm.
  rewrite (u16_small (w + 2)) by lia.
  rewrite (step_inner _ _ _ Htag). unfold exec.
  rewrite (u16_small (w + 2 + 1)) by lia.
  rewrite (append_some _ h)
    by (rewrite ?rd_some by core_lia; rewrite ?Hh; try reflexivity; lia).
  eexists. split; [reflexivity|]. split; [reflexivity|].
  unfold core. fields.
  split; [rewrite upd_other by core_lia; rewrite upd_same;
          apply u16_small; core_lia|].
  split; [rewrite upd_same; replace (w + 2 + 1) with (w + 3) by lia;
          apply u16_small; lia|].
  rewrite (step_fetch _ (w + 3)).
  - fields. rewrite (u16_small (h + 1)) by core_lia. reflexivity.
  - unfold core. fields. rewrite rd_some by core_lia. rewrite upd_same.
    replace (w + 2 + 1) with (w + 3) by lia. now rewrite u16_small by lia.
  - lia.
Qed.

(** A number met in compile mode, with the free pointer on no cell of the
    token: READ appends the cell 2 and the value [strtol] reads from the
    token. Cell 2 is no word but holds 0, the opcode PUSH, so the two
    cells, once fetched, push the accumulator and load the value: on any
    machine whose core has the two cells and the 0 in cell 2, two steps
    from the fetch at the first cell leave the value in the accumulator,
    the old accumulator on the stack and [I] past the value. *)
Theorem compiled_literal_pushes (st1 st3 : machine) (tok : list Z) (h : Z) :
  find (obj st1) = Some 1 ->
  cstr (core st1) (o_s (obj st1)) = Some tok ->
  isnum tok = true ->
  core st1 STATE <> 0 ->
  core st1 DICTIONARY = h -> 2 < h -> h + 2 < CORESZ ->
  clear_of (o_s (obj st1)) tok DICTIONARY ->
  clear_of (o_s (obj st1)) tok h ->
  core st3 h = 2 -> core st3 (h + 1) = u16 (strtol0 tok) ->
  core st3 2 = 0 ->
  l_I st3 = h -> 2 < l_S st3 + 1 < CORESZ ->
  l_S st3 + 1 <> h + 1 ->
  exists st2 st4,
    dispatch st1 = Running Fetch st2 /\
    core st2 DICTIONARY = h + 2 /\
    core st2 h = 2 /\ core st2 (h + 1) = u16 (strtol0 tok) /\
    run 2 Fetch st3 = Running Fetch st4 /\
    l_f st4 = u16 (strtol0 tok) /\
    l_S st4 = l_S st3 + 1 /\ core st4 (l_S st4) = u16 (l_f st3) /\
    l_I st4 = h + 2.
Proof.
  intros Hf Htok Hn Hm Hh H0 H1 K0 Kh C0 C1 C2 HI HS HSh.
  rewrite (dispatch_not_found _ _ Hf Htok). rewrite Hn. cbn [negb].
  apply Z.eqb_neq in Hm. rewrite Hm. cbn [negb].
  rewrite (append_some _ h)
    by (rewrite ?rd_some by core_lia; rewrite ?Hh; try reflexivity; core_lia).
  rewrite (cstr_upd_clear _ _ _ _ _
             (cstr_upd_clear _ _ _ _ _ Htok K0) Kh).
  rewrite (append_some _ (h + 1))
    by (rewrite ?rd_some by core_lia;
        try (rewrite upd_other by core_lia; rewrite upd_same;
             rewrite u16_small by core_lia; reflexivity); core_lia).
  do 2 eexists. split; [reflexivity|].
  unfold core in *. fields.
  split; [rewrite upd_other by core_lia; rewrite upd_same;
          rewrite u16_small by core_lia; lia|].
  split; [rewrite !upd_other by core_lia; rewrite upd_same; reflexivity|].
  split; [rewrite upd_same; reflexivity|].
  assert (F : step Fetch st3 = Running (Inner 2) (set_I (u16 (h + 1)) st3)).
  { rewrite (step_fetch _ 2).
    - now rewrite HI.
    - unfold core. rewrite HI, rd_some by core_lia. now rewrite C0.
    - discriminate. }
  rewrite (run_step _ _ _ _ _ F). cbn [run].
  rewrite (step_inner _ _ PUSH)
    by (unfold core; fields; rewrite rd_some by core_lia; now rewrite C2).
  unfold exec. rewrite push_some by (fields; lia). fields.
  rewrite (u16_small (h + 1)) by core_lia.
  unfold core. fields. rewrite rd_some by core_lia.
  rewrite upd_other by lia. rewrite C1.
  split; [reflexivity|]. fields.
  split; [apply u16_idem|].
  split; [reflexivity|].
  split; [apply upd_same|].
  rewrite u16_small by core_lia. lia.
Qed.

(** ** Cells that hold no opcode *)

(** Every cell value from LAST on, so every 16-bit value above the 31
    opcodes, takes the [default] of the [switch]: one diagnostic, the latch
    set, the return value -1, and the core, the streams and the registers
    of the object as they were. *)
Theorem opcode_out_of_range_sets_latch (st : machine) (x op : Z) :
  rd (core st) x = Some op ->
  code LAST <= op ->
  step (Inner x) st
  = Returned (-1) (set_invalid true (obj st))
      (mksys (stderr (env st) ++ warn_text "unknown instruction" 205)
             (fs (env st))).
Proof.
  intros Hx Hop.
  apply (unknown_opcode_sets_latch st x op Hx).
  unfold code_of. change (code LAST) with 31 in Hop.
  destruct (Z.ltb_spec op 0) as [H|H]; [lia|].
  destruct (Z.eq_dec op 31) as [->|Hne]; [right; reflexivity|].
  left. apply nth_error_None. cbn [List.length all_codes]. lia.
Qed.

(** ** Tail calls *)

(** TAIL then RUN: TAIL drops the top of the return stack and the RUN of
    the next word pushes onto the place it left, so the pair leaves
    [m[RSTK]] where it was: a call made after TAIL takes no room on the
    return stack, and the return address it saves replaces the one on top.
    No other cell changes. *)
Theorem tail_then_call_keeps_depth (st : machine) (x1 x2 r : Z) :
  rd (core st) x1 = Some (code TAIL) ->
  rd (core st) x2 = Some (code RUN) ->
  core st RSTK = r -> 1 < r < CORESZ ->
  x2 <> RSTK -> 0 <= x2 -> x2 + 1 < 65536 ->
  0 <= l_I st < 65536 ->
  exists st1 st2,
    step (Inner x1) st = Running Fetch st1 /\
    core st1 RSTK = r - 1 /\
    step (Inner x2) st1 = Running Fetch st2 /\
    core st2 RSTK = r /\ core st2 r = l_I st /\ l_I st2 = x2 + 1 /\
    l_S st2 = l_S st /\ l_f st2 = l_f st /\
    forall i, i <> r -> core st2 i = core st i.
Proof.
  intros H1 H2 Hr R X1 X2 X3 HI.
  pose proof (rd_inv _ _ _ H2) as (HX & E2).
  assert (U : u16 (r - 1) = r - 1) by (apply u16_small; core_lia).
  rewrite (step_inner _ _ _ H1). unfold exec, rdrop.
  rewrite (rd_some _ RSTK) by core_lia. rewrite Hr.
  rewrite wr_some by core_lia. rewrite U.
  do 2 eexists. split; [reflexivity|].
  split; [unfold core; fields; apply upd_same|].
  rewrite (step_inner _ _ RUN)
    by (unfold core in *; fields; rewrite rd_some by lia;
        rewrite upd_other by assumption; now rewrite <- E2).
  unfold exec.
  rewrite (rpush_some _ (r - 1))
    by (unfold core; fields;
        rewrite ?rd_some by core_lia; rewrite ?upd_same;
        replace (r - 1 + 1) with r by lia;
        rewrite ?(u16_small r) by core_lia;
        try reflexivity; core_lia).
  replace (r - 1 + 1) with r by lia. rewrite (u16_small r) by core_lia.
  split; [reflexivity|]. unfold core in *. fields.
  split; [rewrite upd_other by core_lia; apply upd_same|].
  split; [rewrite upd_same; now apply u16_small|].
  split; [apply u16_small; lia|].
  split; [reflexivity|]. split; [reflexivity|].
  intros i Hi. rewrite upd_other by assumption.
  destruct (Z.eq_dec i RSTK) as [->|Hn].
  - rewrite upd_same. exact (eq_sym Hr).
  - now rewrite !upd_other by assumption.
Qed.

End Facts.

(** * The embedding at work *)

(** ** Whole runs *)

Example run_add_print :
  observe (forth_run 100 (booted "2 3 + . ") quiet_sys)
  = Some (0, "5", EmptyString)%string.
Proof. vm_compute. reflexivity. Qed.

Example run_hex_print :
  observe (forth_run 100 (booted "1 9 ! 255 . ") quiet_sys)
  = Some (0, "FF", EmptyString)%string.
Proof. vm_compute. reflexivity. Qed.

(** ** The dispatch of READ on three runs *)

(** C1 on three runs: [dup] met in execute mode, [dup] met while [foo] is
    being defined, and the immediate word [foo] met in compile mode. *)
Lemma read_dispatch_obeys_mode_witness :
  (let st := snd (machine_at 1 "dup") in
   let st1 := the dead_machine (token_read st) in
   step (Inner 32) st = Running (Inner 128) st1) /\
  (let st := snd (machine_at 6 ": foo dup") in
   let st1 := the dead_machine (token_read st) in
   run 2 (Inner 32) st
   = Running Fetch
       (set_core (upd (upd (core st1) DICTIONARY 150) 149 128) st1)) /\
  (let st := snd (machine_at 11 ": foo immediate foo") in
   let st1 := the dead_machine (token_read st) in
   run 2 (Inner 32) st
   = Running Fetch
       (set_I 148
          (set_core (upd (upd (core st1) RSTK 32256) 32256 35) st1))).
Proof.
  split; [|split]; intros st st1.
  - assert (H1 : rd (core st) 32 = Some (code READ))
      by (vm_compute; reflexivity).
    assert (H2 : token_read st = Some st1) by (vm_compute; reflexivity).
    assert (H3 : find (obj st1) = Some 125) by (vm_compute; reflexivity).
    assert (H4 : 125 <> 1) by lia.
    destruct (read_dispatch_obeys_mode st st1 32 125 H1 H2 H3 H4) as [Hc _].
    assert (H5 : rd (core st1) (u16 (125 + 2)) = Some (code COMPILE))
      by (vm_compute; reflexivity).
    assert (H6 : core st1 STATE = 0) by (vm_compute; reflexivity).
    exact (proj1 (Hc H5) H6).
  - assert (H1 : rd (core st) 32 = Some (code READ))
      by (vm_compute; reflexivity).
    assert (H2 : token_read st = Some st1) by (vm_compute; reflexivity).
    assert (H3 : find (obj st1) = Some 125) by (vm_compute; reflexivity).
    assert (H4 : 125 <> 1) by lia.
    destruct (read_dispatch_obeys_mode st st1 32 125 H1 H2 H3 H4) as [Hc _].
    assert (H5 : rd (core st1) (u16 (125 + 2)) = Some (code COMPILE))
      by (vm_compute; reflexivity).
    assert (H6 : core st1 STATE <> 0) by (vm_compute; discriminate).
    assert (H7 : rd (core st1) DICTIONARY = Some 149)
      by (vm_compute; reflexivity).
    assert (H8 : 0 < 149 < CORESZ) by (vm_compute; split; reflexivity).
    exact (proj2 (Hc H5) H6 149 H7 H8).
  - assert (H1 : rd (core st) 32 = Some (code READ))
      by (vm_compute; reflexivity).
    assert (H2 : token_read st = Some st1) by (vm_compute; reflexivity).
    assert (H3 : find (obj st1) = Some 145) by (vm_compute; reflexivity).
    assert (H4 : 145 <> 1) by lia.
    destruct (read_dispatch_obeys_mode st st1 32 145 H1 H2 H3 H4) as [_ Hr].
    assert (H5 : rd (core st1) (u16 (145 + 2)) = Some (code RUN))
      by (vm_compute; reflexivity).
    assert (H7 : rd (core st1) RSTK = Some 32255)
      by (vm_compute; reflexivity).
    assert (H8 : 0 <= u16 (32255 + 1) < CORESZ)
      by (vm_compute; split; [discriminate | reflexivity]).
    assert (H9 : u16 (32255 + 1) <> RSTK) by (vm_compute; discriminate).
    exact (Hr H5 32255 H7 H8 H9).
Defined.

(** ** [find] on the dictionary of [forth_init] *)

(** C2 on the dictionary of [forth_init] and the token [dup]. *)
Lemma find_terminates_witness :
  let o := obj (read_at 1 "dup") in
  chain o (o_L o) init_entries /\
  rd (o_m o) 2 = Some 0 /\
  cstr (o_m o) (o_s o) = Some (bytes "dup") /\
  exists w,
    find o = Some w /\
    ((w = 1 /\ Forall (fun v => name_of o v <> bytes "dup") init_entries) \/
     (exists pre post,
        init_entries = pre ++ w :: post /\ name_of o w = bytes "dup" /\
        Forall (fun v => name_of o v <> bytes "dup") pre)).
Proof.
  intros o.
  assert (H1 : chain o (o_L o) init_entries)
    by (apply chainb_sound; vm_compute; reflexivity).
  assert (H2 : rd (o_m o) 2 = Some 0) by (vm_compute; reflexivity).
  assert (H3 : cstr (o_m o) (o_s o) = Some (bytes "dup"))
    by (vm_compute; reflexivity).
  exact (conj H1 (conj H2 (conj H3
           (find_terminates_first_match_or_sentinel o init_entries
              (bytes "dup") H1 H2 H3)))).
Defined.

Example find_dup : find (obj (read_at 1 "dup")) = Some 125.
Proof. vm_compute. reflexivity. Qed.

Example find_unknown : find (obj (read_at 1 "nosuchword")) = Some 1.
Proof. vm_compute. reflexivity. Qed.

(** ** Division by zero *)

(** C3 on the run of [7 0 /]: the accumulator becomes 30. *)
Lemma div_by_zero_witness :
  let st := snd (machine_at 10 "7 0 /") in
  rd (core st) 72 = Some (code DIV) /\
  l_f st = 0 /\
  exists st',
    step (Inner 72) st = Running Fetch st' /\
    l_f st' = 30 /\
    l_S st' = l_S st /\
    core st' = core st /\
    o_invalid (obj st') = o_invalid (obj st) /\
    stderr (env st') = stderr (env st) ++ warn_text "div 0" 184.
Proof.
  intros st.
  assert (H1 : rd (core st) 72 = Some (code DIV))
    by (vm_compute; reflexivity).
  assert (H2 : l_f st = 0) by (vm_compute; reflexivity).
  exact (conj H1 (conj H2 (div_by_zero_keeps_fprintf_count st 72 H1 H2))).
Defined.

Example run_div_by_zero :
  observe (forth_run 100 (booted "7 0 / . ") quiet_sys)
  = Some (0, "30", text (warn_text "div 0" 184))%string.
Proof. vm_compute. reflexivity. Qed.

(** ** Less-than *)

(** C6 on the run of [1 2 <]: the accumulator becomes 0. *)
Lemma less_compares_greater_witness :
  let st := snd (machine_at 10 "1 2 <") in
  rd (core st) 76 = Some (code LESS) /\
  rd (core st) (l_S st) = Some 1 /\
  l_f st = 2 /\
  step (Inner 76) st = Running Fetch (set_f 0 (set_S (l_S st - 1) st)).
Proof.
  intros st.
  assert (H1 : rd (core st) 76 = Some (code LESS))
    by (vm_compute; reflexivity).
  assert (H2 : rd (core st) (l_S st) = Some 1) by (vm_compute; reflexivity).
  assert (H3 : l_f st = 2) by (vm_compute; reflexivity).
  pose proof (less_compares_greater st 76 1 H1 H2) as K.
  rewrite H3 in K. exact (conj H1 (conj H2 (conj H3 K))).
Defined.

Example run_less :
  observe (forth_run 100 (booted "1 2 < . 2 1 < . ") quiet_sys)
  = Some (0, "01", EmptyString)%string.
Proof. vm_compute. reflexivity. Qed.

(** ** The latch *)

(** C4 on the object left by a definition that meets the end of the
    input; an unknown opcode sets the latch in the same way. *)
Lemma invalid_latch_witness :
  observe (forth_run 100 (booted ":") quiet_sys)
  = Some (-1, EmptyString, EmptyString) /\
  observe (forth_run 100 (booted "99 48 ! read") quiet_sys)
  = Some (-1, EmptyString, text (warn_text "unknown instruction" 205)) /\
  let o := returned_obj (forth_run 100 (booted ":") quiet_sys) in
  o_invalid o = true /\
  exists y',
    calls [100; 0; 7]%nat o quiet_sys = Some ([-1; -1; -1], o, y') /\
    fs y' = fs quiet_sys.
Proof.
  split; [vm_compute; reflexivity|].
  split; [vm_compute; reflexivity|]. intros o.
  assert (H : o_invalid o = true) by (vm_compute; reflexivity).
  split; [exact H|].
  exact (invalid_latch_fails_fast [100; 0; 7]%nat o quiet_sys H).
Defined.

(** ** Emit and print-number *)

(** C10 on the runs of [65 emit] and [65 .]. *)
Lemma emit_and_print_consume_witness :
  (let st := snd (machine_at 6 "65 emit") in
   rd (core st) (l_S st) = Some 0 /\
   rd (core st) 84 = Some (code EMIT) /\
   l_f st = 65 /\ o_out (obj st) = [] /\
   step (Inner 84) st
   = Running Fetch
       (set_f 0 (set_S (l_S st - 1)
          (set_obj (set_out (o_out (obj st) ++ [l_f st mod 256]) (obj st))
                   st)))) /\
  (let st := snd (machine_at 6 "65 .") in
   rd (core st) (l_S st) = Some 0 /\
   rd (core st) 108 = Some (code PNUM) /\
   l_f st = 65 /\ o_out (obj st) = [] /\ core st HEX = 0 /\
   fmt_u 65 = bytes "65" /\
   step (Inner 108) st
   = Running Fetch
       (set_f 0 (set_S (l_S st - 1)
          (set_obj (set_out (o_out (obj st) ++
                      (if core st HEX =? 0 then fmt_u (l_f st)
                       else fmt_X (l_f st))) (obj st))
                   st)))).
Proof.
  split; intros st.
  - assert (H1 : rd (core st) (l_S st) = Some 0) by (vm_compute; reflexivity).
    assert (H2 : rd (core st) 84 = Some (code EMIT))
      by (vm_compute; reflexivity).
    assert (H3 : l_f st = 65) by (vm_compute; reflexivity).
    assert (H4 : o_out (obj st) = []) by (vm_compute; reflexivity).
    exact (conj H1 (conj H2 (conj H3 (conj H4
             (proj1 (emit_and_print_consume st 84 0 H1) H2))))).
  - assert (H1 : rd (core st) (l_S st) = Some 0) by (vm_compute; reflexivity).
    assert (H2 : rd (core st) 108 = Some (code PNUM))
      by (vm_compute; reflexivity).
    assert (H3 : l_f st = 65) by (vm_compute; reflexivity).
    assert (H4 : o_out (obj st) = []) by (vm_compute; reflexivity).
    assert (H5 : core st HEX = 0) by (vm_compute; reflexivity).
    assert (H6 : fmt_u 65 = bytes "65") by (vm_compute; reflexivity).
    exact (conj H1 (conj H2 (conj H3 (conj H4 (conj H5 (conj H6
             (proj2 (emit_and_print_consume st 108 0 H1) H2))))))).
Defined.

Example run_emit_print :
  observe (forth_run 100 (booted "65 emit 65 . 1 9 ! 255 . ") quiet_sys)
  = Some (0, "A65FF", EmptyString)%string.
Proof. vm_compute. reflexivity. Qed.

(** ** Load and store *)

(** C8 as stated fails: with [S] at cell 0, which 31744 drops reach,
    STORE pops a second time from the cell before the core. *)
Lemma store_pops_below_the_core : ~ load_store_stay_in_core.
Proof.
  intros H.
  apply (H (set_S 0 (boot_machine EmptyString)) 56 STORE).
  - now right.
  - vm_compute. reflexivity.
  - vm_compute. reflexivity.
Qed.

(** ** Block files *)

(** C5 as stated fails: the offset [CORESZ - BLKSZ] is outside the
    half-open interval, yet [blockio] writes the block and returns 0. *)
Lemma blockio_accepts_last_offset : ~ blockio_refuses_outside_half_open.
Proof.
  intros H.
  destruct (H zero_mem 31744 1 119 quiet_sys) as (y' & E & _).
  - lia.
  - left. vm_compute. intros [_ K]. discriminate K.
  - assert (K : fst (fst (blockio zero_mem 31744 1 119 quiet_sys)) = 0)
      by (vm_compute; reflexivity).
    rewrite E in K. discriminate K.
Qed.

(** C5, amended, on the core of [forth_init]: block 1 written from offset
    0. *)
Lemma blockio_contract_witness :
  let m := o_m (booted EmptyString) in
  0 <= 0 /\
  exists y',
    blockio m 0 1 119 quiet_sys = (0, m, y') /\
    files (fs y') "0001.blk" = Some (rd_bytes m 0 1024).
Proof.
  intros m. split; [lia|].
  destruct (blockio_contract m 0 1 quiet_sys (Z.le_refl 0))
    as (_ & Hw & _ & _).
  destruct Hw as (r & y' & E & _ & Hiff & Hfile);
    [vm_compute; discriminate|].
  assert (Hr : r = 0).
  { apply Hiff. split; [reflexivity | vm_compute; discriminate]. }
  subst r. exists y'. split; [exact E | exact (Hfile eq_refl)].
Defined.

Example block_round_trip :
  let m := o_m (booted EmptyString) in
  let '(r1, _, y1) := blockio m 0 1 119 quiet_sys in
  let '(r2, m2, _) := blockio zero_mem 2048 1 114 y1 in
  (r1, r2, rd_bytes m2 2048 1024) = (0, 0, rd_bytes m 0 1024).
Proof. vm_compute. reflexivity. Qed.

Example block_names :
  block_name 1 = "0001.blk"%string /\ block_name 43981 = "abcd.blk"%string.
Proof. split; reflexivity. Qed.

Example run_save_out_of_range :
  observe (forth_run 100 (booted "31745 1 save . ") quiet_sys)
  = Some (0, "65535", text (warn_text "invalid address or mode" 67))%string.
Proof. vm_compute. reflexivity. Qed.

(** ** Tokens that are not words *)

(** C7 as stated fails: [0x10] is a radix-prefixed integer and no word,
    yet in execute mode nothing is pushed. *)
Lemma hex_token_is_not_pushed : ~ integer_tokens_are_pushed.
Proof.
  intros H.
  destruct (H (snd (machine_at 1 "0x10")) (read_at 1 "0x10") 32
              (bytes "0x10")) as (st2 & E & HS & _).
  - vm_compute. reflexivity.
  - vm_compute. reflexivity.
  - vm_compute. reflexivity.
  - vm_compute. reflexivity.
  - vm_compute. reflexivity.
  - vm_compute. reflexivity.
  - vm_compute. split; [discriminate | reflexivity].
  - assert (K : match step (Inner 32) (snd (machine_at 1 "0x10")) with
                | Running _ st => l_S st
                | _ => 0
                end = l_S (read_at 1 "0x10"))
      by (vm_compute; reflexivity).
    rewrite E in K. lia.
Qed.

Example hex_token_value :
  strtol0 (bytes "0x10") = 16 /\ isnum (bytes "0x10") = false /\
  strtol0 (bytes "017") = 15 /\ isnum (bytes "017") = true /\
  strtol0 (bytes "-5") = -5 /\ isnum (bytes "-5") = true.
Proof. vm_compute. repeat split. Qed.

Example run_tokens :
  observe (forth_run 100 (booted "0x10 . 017 . -5 . ") quiet_sys)
  = Some (0, "01565531",
          text (warn_text "not a word or number" 168))%string.
Proof. vm_compute. reflexivity. Qed.

(** C7, amended, on four runs. *)
Lemma unknown_token_witness :
  (* a token that is no number: the diagnostic *)
  (let st := snd (machine_at 1 "foo") in
   let st1 := read_at 1 "foo" in
   isnum (bytes "foo") = false /\
   step (Inner 32) st
   = Running Fetch
       (set_env (snd (WARN "not a word or number" 168 (env st1))) st1)) /\
  (* a number in execute mode: pushed *)
  (let st := snd (machine_at 1 "017") in
   let st1 := read_at 1 "017" in
   isnum (bytes "017") = true /\ core st1 STATE = 0 /\
   clear_of (o_s (obj st1)) (bytes "017") (l_S st1 + 1) /\
   step (Inner 32) st
   = Running Fetch
       (set_f (strtol0 (bytes "017"))
          (set_S (l_S st1 + 1)
             (set_core (upd (core st1) (l_S st1 + 1) (u16 (l_f st1)))
                       st1)))) /\
  (* a number in compile mode: two cells appended *)
  (let st := snd (machine_at 6 ": x 5") in
   let st1 := read_at 6 ": x 5" in
   isnum (bytes "5") = true /\ core st1 STATE <> 0 /\
   core st1 2 = code PUSH /\
   clear_of (o_s (obj st1)) (bytes "5") DICTIONARY /\
   clear_of (o_s (obj st1)) (bytes "5") 149 /\
   exists m',
     step (Inner 32) st = Running Fetch (set_core m' st1) /\
     m' 149 = 2 /\ m' (149 + 1) = u16 (strtol0 (bytes "5")) /\
     m' DICTIONARY = 149 + 2 /\
     forall i, i <> 149 -> i <> 149 + 1 -> i <> DICTIONARY ->
               m' i = core st1 i) /\
  (* a number in compile mode with the free pointer on the token: the
     cell 2 is stored over the [7], and what is left reads as 0 *)
  (let st := snd (machine_at 19 "8188 0 ! : x 7") in
   let st1 := read_at 19 "8188 0 ! : x 7" in
   isnum (bytes "7") = true /\ core st1 STATE <> 0 /\
   cstr (upd (upd (core st1) DICTIONARY (u16 (8192 + 1))) 8192 2)
        (o_s (obj st1)) = Some [2] /\
   strtol0 [2] = 0 /\
   exists m',
     step (Inner 32) st = Running Fetch (set_core m' st1) /\
     m' 8192 = 2 /\ m' (8192 + 1) = u16 (strtol0 [2]) /\
     m' DICTIONARY = 8192 + 2 /\
     forall i, i <> 8192 -> i <> 8192 + 1 -> i <> DICTIONARY ->
               m' i = core st1 i).
Proof.
  split; [|split; [|split]]; intros st st1.
  - assert (H1 : rd (core st) 32 = Some (code READ))
      by (vm_compute; reflexivity).
    assert (H2 : token_read st = Some st1) by (vm_compute; reflexivity).
    assert (H3 : find (obj st1) = Some 1) by (vm_compute; reflexivity).
    assert (H4 : cstr (core st1) (o_s (obj st1)) = Some (bytes "foo"))
      by (vm_compute; reflexivity).
    assert (H5 : isnum (bytes "foo") = false) by (vm_compute; reflexivity).
    destruct (unknown_token_literal_or_diagnostic st st1 32 (bytes "foo")
                H1 H2 H3 H4) as (_ & Hd & _ & _).
    exact (conj H5 (Hd H5)).
  - assert (H1 : rd (core st) 32 = Some (code READ))
      by (vm_compute; reflexivity).
    assert (H2 : token_read st = Some st1) by (vm_compute; reflexivity).
    assert (H3 : find (obj st1) = Some 1) by (vm_compute; reflexivity).
    assert (H4 : cstr (core st1) (o_s (obj st1)) = Some (bytes "017"))
      by (vm_compute; reflexivity).
    assert (H5 : isnum (bytes "017") = true) by (vm_compute; reflexivity).
    assert (H6 : core st1 STATE = 0) by (vm_compute; reflexivity).
    assert (H7 : 0 <= l_S st1 + 1 < CORESZ)
      by (vm_compute; split; [discriminate | reflexivity]).
    assert (H8 : clear_of (o_s (obj st1)) (bytes "017") (l_S st1 + 1))
      by (right; vm_compute; reflexivity).
    destruct (unknown_token_literal_or_diagnostic st st1 32 (bytes "017")
                H1 H2 H3 H4) as (_ & _ & _ & He).
    pose proof (He H5 H6 H7) as K. cbv zeta in K.
    destruct K as (Kc & Kg).
    exact (conj H5 (conj H6 (conj H8 (Kg (bytes "017") (Kc H8))))).
  - assert (H1 : rd (core st) 32 = Some (code READ))
      by (vm_compute; reflexivity).
    assert (H2 : token_read st = Some st1) by (vm_compute; reflexivity).
    assert (H3 : find (obj st1) = Some 1) by (vm_compute; reflexivity).
    assert (H4 : cstr (core st1) (o_s (obj st1)) = Some (bytes "5"))
      by (vm_compute; reflexivity).
    assert (H5 : isnum (bytes "5") = true) by (vm_compute; reflexivity).
    assert (H6 : core st1 STATE <> 0) by (vm_compute; discriminate).
    assert (H7 : rd (core st1) DICTIONARY = Some 149)
      by (vm_compute; reflexivity).
    assert (H8 : 0 < 149) by lia.
    assert (H9 : 149 + 1 < CORESZ) by (vm_compute; reflexivity).
    assert (H10 : core st1 2 = code PUSH) by (vm_compute; reflexivity).
    assert (H11 : clear_of (o_s (obj st1)) (bytes "5") DICTIONARY)
      by (left; vm_compute; reflexivity).
    assert (H12 : clear_of (o_s (obj st1)) (bytes "5") 149)
      by (left; vm_compute; reflexivity).
    destruct (unknown_token_literal_or_diagnostic st st1 32 (bytes "5")
                H1 H2 H3 H4) as (_ & _ & Hc & _).
    pose proof (Hc H5 H6 149 H7 H8 H9) as K. cbv zeta in K.
    destruct K as (Kc & Kg).
    exact (conj H5 (conj H6 (conj H10 (conj H11 (conj H12
             (Kg (bytes "5") (Kc H11 H12))))))).
  - assert (H1 : rd (core st) 32 = Some (code READ))
      by (vm_compute; reflexivity).
    assert (H2 : token_read st = Some st1) by (vm_compute; reflexivity).
    assert (H3 : find (obj st1) = Some 1) by (vm_compute; reflexivity).
    assert (H4 : cstr (core st1) (o_s (obj st1)) = Some (bytes "7"))
      by (vm_compute; reflexivity).
    assert (H5 : isnum (bytes "7") = true) by (vm_compute; reflexivity).
    assert (H6 : core st1 STATE <> 0) by (vm_compute; discriminate).
    assert (H7 : rd (core st1) DICTIONARY = Some 8192)
      by (vm_compute; reflexivity).
    assert (H8 : 0 < 8192) by lia.
    assert (H9 : 8192 + 1 < CORESZ) by (vm_compute; reflexivity).
    assert (H10 : cstr (upd (upd (core st1) DICTIONARY (u16 (8192 + 1)))
                          8192 2) (o_s (obj st1)) = Some [2])
      by (vm_compute; reflexivity).
    assert (H11 : strtol0 [2] = 0) by (vm_compute; reflexivity).
    destruct (unknown_token_literal_or_diagnostic st st1 32 (bytes "7")
                H1 H2 H3 H4) as (_ & _ & Hc & _).
    pose proof (Hc H5 H6 8192 H7 H8 H9) as K. cbv zeta in K.
    destruct K as (_ & Kg).
    exact (conj H5 (conj H6 (conj H10 (conj H11 (Kg [2] H10))))).
Defined.

(** ** The outer loop and the return stack *)


(** ** The dictionary [forth_init] builds, on every platform *)

Lemma forth_init_dictionary {P : Platform} (inp out : list Z) :
  exists o,
    forth_init inp out = Some o /\
    o_in o = inp /\ o_out o = out /\ o_invalid o = false /\
    o_S o = CORESZ - 2 * STKSZ /\ o_I o = 34 /\
    o_m o RSTK = CORESZ - STKSZ /\
    bootstrap_word (o_m o) /\
    dictionary o init_entries /\
    room_for_word o.
Proof.
  destruct P as [[|] lm fn].
  - eexists. split; [vm_compute; reflexivity|].
    repeat (split; [vm_compute; reflexivity|]).
    split; [refine (conj _ (conj _ (conj _ _))); vm_compute; reflexivity|].
    split.
    + split; [apply dictb_sound; vm_compute; reflexivity|].
      split; vm_compute; reflexivity.
    + refine (conj _ (conj _ (conj _ _))); vm_compute;
        first [reflexivity | discriminate].
  - eexists. split; [vm_compute; reflexivity|].
    repeat (split; [vm_compute; reflexivity|]).
    split; [refine (conj _ (conj _ (conj _ _))); vm_compute; reflexivity|].
    split.
    + split; [apply dictb_sound; vm_compute; reflexivity|].
      split; vm_compute; reflexivity.
    + refine (conj _ (conj _ (conj _ _))); vm_compute;
        first [reflexivity | discriminate].
Qed.

(** After [forth_init] the lookup of the first token ends, whatever the
    input holds. *)
Lemma first_lookup_terminates {P : Platform} (inp out : list Z)
    (o : forth_obj) (y : sys) (st1 : machine) :
  forth_init inp out = Some o ->
  token_read (set_I 35 (enter o y)) = Some st1 ->
  exists tok w,
    cstr (core st1) (o_s (obj st1)) = Some tok /\
    find (obj st1) = Some w /\
    ((w = 1 /\ Forall (fun v => name_of (obj st1) v <> tok) init_entries) \/
     (exists pre post,
        init_entries = pre ++ w :: post /\ name_of (obj st1) w = tok /\
        Forall (fun v => name_of (obj st1) v <> tok) pre)).
Proof.
  intros Hi Ht.
  destruct (forth_init_dictionary inp out)
    as (o' & Hi' & _ & _ & _ & _ & _ & _ & _ & Hd & (R1 & R2 & _)).
  assert (o' = o) by congruence. subst o'.
  apply (read_finds_on_dictionary (set_I 35 (enter o y)) st1 init_entries).
  - exact Hd.
  - change (core (set_I 35 (enter o y)) DICTIONARY) with (o_m o DICTIONARY).
    lia.
  - exact Ht.
Qed.

(** ** A store and a load *)

(** C8, amended, on the run of [7 100 !]: the cell 100 gets the 7. *)
Lemma load_store_witness :
  let st := snd (machine_at 10 "7 100 !") in
  rd (core st) 56 = Some (code STORE) /\
  rd (core st) (l_S st) = Some 7 /\
  l_f st = 100 /\
  0 <= l_S st - 1 /\
  exists st',
    step (Inner 56) st = Running Fetch st' /\
    core st' = upd (core st) (CK (l_f st)) (u16 7) /\
    l_S st' = l_S st - 2 /\
    l_f st' = u16 (core st' (l_S st - 1)).
Proof.
  intros st.
  assert (H1 : rd (core st) 56 = Some (code STORE))
    by (vm_compute; reflexivity).
  assert (H2 : rd (core st) (l_S st) = Some 7) by (vm_compute; reflexivity).
  assert (H3 : l_f st = 100) by (vm_compute; reflexivity).
  assert (H4 : 0 <= l_S st - 1) by (vm_compute; discriminate).
  exact (conj H1 (conj H2 (conj H3 (conj H4
           (proj2 (proj2 (load_store_address_masked st 56)) H1 7 H2 H4))))).
Defined.

Example run_store_load :
  observe (forth_run 100 (booted "7 100 ! 100 @ . ") quiet_sys)
  = Some (0, "7", EmptyString)%string.
Proof. vm_compute. reflexivity. Qed.

(** ** The formats of [printf], on every 16-bit value *)

Lemma in_cells n : forall start z,
  start <= z < start + Z.of_nat n -> In z (cells n start).
Proof.
  induction n as [|n IH]; intros start z Hz; [lia|].
  cbn [cells]. destruct (Z.eq_dec z start) as [->|Hne]; [now left|].
  right. apply IH. lia.
Qed.

Lemma all_cells (f : Z -> bool) :
  forallb f (cells (Z.to_nat 65536) 0) = true ->
  forall n, 0 <= n < 65536 -> f n = true.
Proof.
  intros H n Hn. rewrite forallb_forall in H. apply H.
  apply in_cells. lia.
Qed.

(** One pass over the 16-bit values: the digits of the three formats, read
    back. *)
Lemma formats_checked (n : Z) :
  0 <= n < 65536 ->
  (let u := fmt_u n in
   let X := fmt_X n in
   let x := fmt_04x n in
   (List.length x =? 4)%nat
   && (strtol_digits 16 x 0 =? n)
   && (strtol_digits 10 u 0 =? n)
   && (strtol_digits 16 X 0 =? n)
   && (List.length u <=? 5)%nat
   && (List.length X <=? 4)%nat
   && forallb isdigit u
   && (strtol_raw u =? n)
   && forallb (Z.leb 48) X
   && ((n <? 10) || negb (forallb isdigit X)
       || ((0 <=? strtol_raw X) && (strtol_raw X <? n)))) = true.
Proof.
  intros Hn.
  exact (all_cells
    (fun n =>
       let u := fmt_u n in
       let X := fmt_X n in
       let x := fmt_04x n in
       (List.length x =? 4)%nat
       && (strtol_digits 16 x 0 =? n)
       && (strtol_digits 10 u 0 =? n)
       && (strtol_digits 16 X 0 =? n)
       && (List.length u <=? 5)%nat
       && (List.length X <=? 4)%nat
       && forallb isdigit u
       && (strtol_raw u =? n)
       && forallb (Z.leb 48) X
       && ((n <? 10) || negb (forallb isdigit X)
           || ((0 <=? strtol_raw X) && (strtol_raw X <? n))))
    ltac:(vm_compute; reflexivity) n Hn).
Qed.

(** ["%04x"] gives four digits, ["%u"] and ["%X"] give no more than five,
    and [strtol] reads each back to the value. *)
Lemma formats_read_back (n : Z) :
  0 <= n < 65536 ->
  List.length (fmt_04x n) = 4%nat /\
  strtol_digits 16 (fmt_04x n) 0 = n /\
  strtol_digits 10 (fmt_u n) 0 = n /\
  strtol_digits 16 (fmt_X n) 0 = n /\
  (List.length (fmt_u n) <= 5)%nat /\
  (List.length (fmt_X n) <= 4)%nat.
Proof.
  intros Hn. pose proof (formats_checked n Hn) as K. cbv zeta in K.
  do 4 (apply andb_true_iff in K; destruct K as [K _]).
  repeat (apply andb_true_iff in K; destruct K as [K ?]).
  repeat split;
    first [now apply Nat.eqb_eq | now apply Z.eqb_eq | now apply Nat.leb_le].
Qed.

(** ** What a call of [forth_run] leaves in the object *)

(** The run of [2 3 + .] returns 0 and hands the registers back as it
    found them. *)
Lemma forth_run_keeps_registers_witness :
  let o := booted "2 3 + . " in
  let o' := returned_obj (forth_run 100 o quiet_sys) in
  forth_run 100 o quiet_sys = Returned 0 o' quiet_sys /\
  (o_S o' = o_S o /\ o_I o' = o_I o /\ o_f o' = o_f o /\
   o_x o' = o_x o /\ o_w o' = o_w o /\ o_s o' = o_s o).
Proof.
  intros o o'.
  assert (H : forth_run 100 o quiet_sys = Returned 0 o' quiet_sys)
    by (vm_compute; reflexivity).
  exact (conj H (forth_run_keeps_registers 100 o o' quiet_sys quiet_sys 0 H)).
Defined.

(** The run of a lone [:] fails at the end of the input: it returns -1 and
    the latch is set. *)
Lemma forth_run_result_tells_latch_witness :
  let o := booted ":" in
  let o' := returned_obj (forth_run 100 o quiet_sys) in
  forth_run 100 o quiet_sys = Returned (-1) o' quiet_sys /\
  ((-1 = 0 /\ o_invalid o = false /\ o_invalid o' = false) \/
   (-1 = -1 /\ o_invalid o' = true)).
Proof.
  intros o o'.
  assert (H : forth_run 100 o quiet_sys = Returned (-1) o' quiet_sys)
    by (vm_compute; reflexivity).
  exact (conj H
    (forth_run_result_tells_latch 100 o o' quiet_sys quiet_sys (-1) H)).
Defined.

(** ** Calls and returns *)

(** The bootstrap word's RUN, at cell 33, met on the freshly initialised
    core, then an EXIT. *)
Lemma call_then_exit_returns_witness :
  let st := boot_machine EmptyString in
  rd (core st) 33 = Some (code RUN) /\
  rd (core st) RSTK = Some 32256 /\
  0 < 32256 /\ 32256 + 1 < CORESZ /\
  0 <= l_I st < 65536 /\
  exists st1,
    step (Inner 33) st = Running Fetch st1 /\
    l_I st1 = u16 (33 + 1) /\
    core st1 RSTK = 32256 + 1 /\ core st1 (32256 + 1) = l_I st /\
    forall xe, rd (core st1) xe = Some (code EXIT) ->
    exists st2,
      step (Inner xe) st1 = Running Fetch st2 /\
      l_I st2 = l_I st /\ core st2 RSTK = 32256 /\
      l_S st2 = l_S st /\ l_f st2 = l_f st /\
      forall i, i <> 32256 + 1 -> core st2 i = core st i.
Proof.
  intros st.
  assert (H1 : rd (core st) 33 = Some (code RUN)) by (vm_compute; reflexivity).
  assert (H2 : rd (core st) RSTK = Some 32256) by (vm_compute; reflexivity).
  assert (H3 : 0 < 32256) by reflexivity.
  assert (H4 : 32256 + 1 < CORESZ) by reflexivity.
  assert (H5 : 0 <= l_I st < 65536)
    by (vm_compute; split; [discriminate | reflexivity]).
  exact (conj H1 (conj H2 (conj H3 (conj H4 (conj H5
    (call_then_exit_returns st 33 32256 H1 H2 H3 H4 H5)))))).
Defined.

(** [5 7 >r]: the machine about to run [>r], whose opcode is at cell 96,
    then [r>], whose opcode is at cell 92. *)
Lemma to_r_then_from_r_witness :
  let st := snd (machine_at 10 "5 7 >r") in
  rd (core st) 96 = Some (code TOR) /\
  rd (core st) 92 = Some (code FROMR) /\
  rd (core st) RSTK = Some 32255 /\
  0 < 32255 /\ 32255 + 1 < CORESZ /\
  rd (core st) (l_S st) = Some 5 /\
  l_S st <> RSTK /\ l_S st <> 32255 + 1 /\
  92 <> RSTK /\ 92 <> 32255 + 1 /\
  0 <= l_f st < 65536 /\ 0 <= 5 < 65536 /\
  exists st1 st2,
    step (Inner 96) st = Running Fetch st1 /\
    l_f st1 = 5 /\ l_S st1 = l_S st - 1 /\ core st1 (32255 + 1) = l_f st /\
    step (Inner 92) st1 = Running Fetch st2 /\
    l_f st2 = l_f st /\ l_S st2 = l_S st /\ l_I st2 = l_I st /\
    forall i, i <> 32255 + 1 -> core st2 i = core st i.
Proof.
  intros st.
  assert (H1 : rd (core st) 96 = Some (code TOR)) by (vm_compute; reflexivity).
  assert (H2 : rd (core st) 92 = Some (code FROMR))
    by (vm_compute; reflexivity).
  assert (H3 : rd (core st) RSTK = Some 32255) by (vm_compute; reflexivity).
  assert (H4 : 0 < 32255) by reflexivity.
  assert (H5 : 32255 + 1 < CORESZ) by reflexivity.
  assert (H6 : rd (core st) (l_S st) = Some 5) by (vm_compute; reflexivity).
  assert (H7 : l_S st <> RSTK) by (vm_compute; discriminate).
  assert (H8 : l_S st <> 32255 + 1) by (vm_compute; discriminate).
  assert (H9 : 92 <> RSTK) by discriminate.
  assert (H10 : 92 <> 32255 + 1) by discriminate.
  assert (H11 : 0 <= l_f st < 65536)
    by (vm_compute; split; [discriminate | reflexivity]).
  assert (H12 : 0 <= 5 < 65536) by (split; [discriminate | reflexivity]).
  exact (conj H1 (conj H2 (conj H3 (conj H4 (conj H5 (conj H6 (conj H7
    (conj H8 (conj H9 (conj H10 (conj H11 (conj H12
    (to_r_then_from_r st 96 92 32255 5
       H1 H2 H3 H4 H5 H6 H7 H8 H9 H10 H11 H12))))))))))))).
Defined.

(** ** What [forth_init] compiles, on every platform *)

(** [forth_init] succeeds and compiles the three special words and the 25
    primitives: [:] is tagged DEFINE, [immediate] IMMEDIATE and [#]
    COMMENT; the primitive number [k] of [names] has its entry at cell
    [45 + 4k], carries its name, is tagged COMPILE and has the one-cell body
    [READ + k]. The free pointer ends at 145 and the last entry is the
    newest. *)
Theorem forth_init_primitives {P : Platform} (inp out : list Z) :
  exists o,
    forth_init inp out = Some o /\
    o_m o DICTIONARY = 145 /\ o_L o = 141 /\
    (name_of o 36 = bytes ":" /\ o_m o 38 = code DEFINE) /\
    (name_of o 39 = bytes "immediate" /\ o_m o 41 = code IMMEDIATE) /\
    (name_of o 42 = bytes "#" /\ o_m o 44 = code COMMENT) /\
    forall (k : nat) (name : string),
      nth_error names k = Some name ->
      let w := 45 + 4 * Z.of_nat k in
      name_of o w = bytes name /\
      o_m o (w + 2) = code COMPILE /\
      o_m o (w + 3) = code READ + Z.of_nat k.
Proof.
  destruct P as [[|] lm fn].
  - eexists. split; [vm_compute; reflexivity|].
    split; [vm_compute; reflexivity|].
    split; [vm_compute; reflexivity|].
    split; [split; vm_compute; reflexivity|].
    split; [split; vm_compute; reflexivity|].
    split; [split; vm_compute; reflexivity|].
    intros k name Hk.
    do 25 (destruct k as [|k];
           [injection Hk as <-;
            refine (conj _ (conj _ _)); vm_compute; reflexivity|]).
    destruct k; discriminate.
  - eexists. split; [vm_compute; reflexivity|].
    split; [vm_compute; reflexivity|].
    split; [vm_compute; reflexivity|].
    split; [split; vm_compute; reflexivity|].
    split; [split; vm_compute; reflexivity|].
    split; [split; vm_compute; reflexivity|].
    intros k name Hk.
    do 25 (destruct k as [|k];
           [injection Hk as <-;
            refine (conj _ (conj _ _)); vm_compute; reflexivity|]).
    destruct k; discriminate.
Qed.

(** ** Numbers printed and read *)

Lemma strtol0_raw {P : Platform} (l : list Z) :
  strtol0 l = Z.max LONG_MIN (Z.min LONG_MAX (strtol_raw l)).
Proof.
  unfold strtol0, strtol_raw.
  destruct (match skip_ws l with
            | 45 :: r => (true, r)
            | 43 :: r => (false, r)
            | _ => (false, skip_ws l)
            end) as [neg l2].
  destruct (match l2 with
            | 48 :: x :: h :: r =>
                if ((x =? 120) || (x =? 88)) && in_base 16 h
                then (16, h :: r) else (8, l2)
            | 48 :: _ => (8, l2)
            | _ => (10, l2)
            end) as [base l3].
  reflexivity.
Qed.

(** On a string of bytes from ['0'] up, [isnum] is the test that every
    byte is a decimal digit. *)
Lemma isnum_digits (l : list Z) :
  forallb (Z.leb 48) l = true ->
  isnum l = forallb isdigit l.
Proof.
  intros H. rewrite forallb_forall in H.
  assert (N0 : ~ In 0 l).
  { intros K. apply H in K. discriminate. }
  assert (E : match l with 45 :: r => r | _ => l end = l).
  { destruct l as [|c r]; [reflexivity|].
    assert (Hc : 48 <= c) by (apply Z.leb_le, H; now left).
    destruct c as [|p|p]; try reflexivity.
    do 6 (destruct p as [p|p|]; try reflexivity). lia. }
  pose proof (isnum_spec l N0) as S. rewrite E in S.
  destruct (isnum l) eqn:A, (forallb isdigit l) eqn:B; try reflexivity.
  - apply proj1 in S. specialize (S eq_refl).
    rewrite <- B. symmetry. apply forallb_forall.
    rewrite Forall_forall in S. exact S.
  - apply proj2 in S. apply S.
    rewrite Forall_forall. now apply forallb_forall.
Qed.

(** What PNUM prints in decimal, READ takes for a number and reads back
    to the same value, for every 16-bit value; what PNUM prints in
    hexadecimal for a value above 9 is either no number for READ or reads
    back to another value. *)
Theorem printed_number_reads_back {P : Platform} (n : Z) :
  65535 <= LONG_MAX ->
  0 <= n < 65536 ->
  (isnum (fmt_u n) = true /\ strtol0 (fmt_u n) = n) /\
  (10 <= n -> isnum (fmt_X n) = false \/ strtol0 (fmt_X n) <> n).
Proof.
  intros HL Hn. pose proof (formats_checked n Hn) as K. cbv zeta in K.
  apply andb_prop in K. destruct K as [K K4].
  apply andb_prop in K. destruct K as [K K3].
  apply andb_prop in K. destruct K as [K K2].
  apply andb_prop in K. destruct K as [_ K1].
  apply Z.eqb_eq in K2.
  split.
  - split.
    + rewrite isnum_digits; [exact K1|].
      rewrite forallb_forall in K1. apply forallb_forall.
      intros c Hc. apply K1 in Hc. unfold isdigit in Hc.
      apply andb_prop in Hc. exact (proj1 Hc).
    + rewrite strtol0_raw, K2. unfold LONG_MIN. lia.
  - intros H10.
    apply orb_prop in K4. destruct K4 as [K4|K4].
    + apply orb_prop in K4. destruct K4 as [K4|K4].
      * apply Z.ltb_lt in K4. lia.
      * left. rewrite (isnum_digits _ K3). now apply negb_true_iff in K4.
    + right. apply andb_prop in K4. destruct K4 as [A B].
      apply Z.leb_le in A. apply Z.ltb_lt in B.
      rewrite strtol0_raw. unfold LONG_MIN. lia.
Qed.

(** ** The names of the block files *)

Lemma fmt_loop_bytes fuel base upper : forall n acc,
  1 < base <= 16 ->
  Forall (fun b => 0 <= b < 256) acc ->
  Forall (fun b => 0 <= b < 256) (fmt_loop fuel base upper n acc).
Proof.
  induction fuel as [|k IH]; intros n acc Hb Ha; cbn [fmt_loop];
    [exact Ha|].
  assert (Hd : 0 <= digit_char upper (n mod base) < 256).
  { pose proof (Z.mod_pos_bound n base ltac:(lia)) as Hm.
    unfold digit_char.
    destruct (Z.ltb_spec (n mod base) 10); destruct upper; lia. }
  destruct (n / base =? 0); [now constructor|].
  apply IH; [exact Hb | now constructor].
Qed.

Lemma bytes_text (l : list Z) :
  Forall (fun b => 0 <= b < 256) l -> bytes (text l) = l.
Proof.
  induction 1 as [|b l Hb _ IH]; cbn [text bytes]; [reflexivity|].
  rewrite IH. f_equal. unfold byte_of_ascii, ascii_of_byte.
  rewrite nat_ascii_embedding by lia. lia.
Qed.

(** The file name of a block is eight characters long, which fits the
    buffer of 16, and two 16-bit block numbers with one file name are
    equal: no two blocks share a file. *)
Theorem block_names_differ (a b : Z) :
  0 <= a < 65536 -> 0 <= b < 65536 ->
  String.length (block_name a) = 8%nat /\
  (block_name a = block_name b -> a = b).
Proof.
  intros Ha Hb.
  destruct (formats_read_back a Ha) as (La & Va & _).
  destruct (formats_read_back b Hb) as (_ & Vb & _).
  assert (R : forall n, bytes (block_name n) = fmt_04x n ++ bytes ".blk").
  { intros n. unfold block_name. rewrite bytes_app. f_equal.
    apply bytes_text. unfold fmt_04x. apply Forall_app. split.
    - apply Forall_forall. intros c Hc. apply repeat_spec in Hc. lia.
    - apply fmt_loop_bytes; [lia | constructor]. }
  split.
  - rewrite <- bytes_length, R, List.length_app, La. reflexivity.
  - intros E. apply (f_equal bytes) in E. rewrite !R in E.
    apply app_inv_tail in E. rewrite <- Va, <- Vb. now rewrite E.
Qed.

(** ** The end of the input and comments, on runs *)

(** A stream of two blanks. *)
Lemma blank_input_returns_zero_witness :
  let o := booted "  " in
  o_invalid o = false /\
  bootstrap_word (o_m o) /\ o_I o = 34 /\
  skip_ws (o_in o) = [] /\
  let o' := set_in [] (set_m (upd (o_m o) RSTK (u16 (o_m o RSTK - 1))) o) in
  forth_run (2 + 5) o quiet_sys = Returned 0 o' quiet_sys /\
  o_invalid o' = false /\ bootstrap_word (o_m o') /\ o_I o' = 34 /\
  skip_ws (o_in o') = [].
Proof.
  intros o.
  assert (H1 : o_invalid o = false) by (vm_compute; reflexivity).
  assert (H2 : bootstrap_word (o_m o))
    by (refine (conj _ (conj _ (conj _ _))); vm_compute; reflexivity).
  assert (H3 : o_I o = 34) by (vm_compute; reflexivity).
  assert (H4 : skip_ws (o_in o) = []) by (vm_compute; reflexivity).
  exact (conj H1 (conj H2 (conj H3 (conj H4
    (blank_input_returns_zero o quiet_sys 5 H1 H2 H3 H4))))).
Defined.

(** The machine about to run [#], with the bytes of [hi], a line feed and
    a [1] left in the stream. *)
Lemma comment_skips_line_witness :
  let st0 := snd (machine_at 2 "#") in
  let st := set_obj (set_in ([104; 105] ++ [10; 49]) (obj st0)) st0 in
  rd (core st) 44 = Some (code COMMENT) /\
  o_in (obj st) = [104; 105] ++ [10; 49] /\
  Forall (fun c => c mod 256 <> 0 /\ c mod 256 <> 10) [104; 105] /\
  (10 mod 256 = 10 \/ 10 mod 256 = 0) /\
  step (Inner 44) st
  = Running Fetch (set_obj (set_in (List.tl [10; 49]) (obj st)) st).
Proof.
  intros st0 st.
  assert (H1 : rd (core st) 44 = Some (code COMMENT))
    by (vm_compute; reflexivity).
  assert (H2 : o_in (obj st) = [104; 105] ++ [10; 49]) by reflexivity.
  assert (H3 : Forall (fun c => c mod 256 <> 0 /\ c mod 256 <> 10)
                 [104; 105])
    by (repeat constructor; discriminate).
  assert (H4 : 10 mod 256 = 10 \/ 10 mod 256 = 0) by (left; reflexivity).
  exact (conj H1 (conj H2 (conj H3 (conj H4
    (comment_skips_line st 44 [104; 105] [10; 49] H1 H2 H3 H4))))).
Defined.

(** ** The shuffles, on runs *)

(** [5 dup]: the machine about to run [dup], whose opcode is at cell 128;
    the opcode of [drop] is at cell 132. *)
Lemma dup_then_drop_witness :
  let st := snd (machine_at 6 "5 dup") in
  0 <= l_f st < 65536 /\
  0 <= l_S st + 1 < CORESZ /\
  rd (core st) 128 = Some (code DUP) /\
  rd (core st) 132 = Some (code DROP) /\ 132 <> l_S st + 1 /\
  exists st1 st2,
    step (Inner 128) st = Running Fetch st1 /\
    l_S st1 = l_S st + 1 /\ core st1 (l_S st1) = l_f st /\
    l_f st1 = l_f st /\
    step (Inner 132) st1 = Running Fetch st2 /\
    l_f st2 = l_f st /\ l_S st2 = l_S st /\
    forall i, i <> l_S st + 1 -> core st2 i = core st i.
Proof.
  intros st.
  assert (H1 : 0 <= l_f st < 65536)
    by (vm_compute; split; [discriminate | reflexivity]).
  assert (H2 : 0 <= l_S st + 1 < CORESZ)
    by (vm_compute; split; [discriminate | reflexivity]).
  assert (H3 : rd (core st) 128 = Some (code DUP))
    by (vm_compute; reflexivity).
  assert (H4 : rd (core st) 132 = Some (code DROP))
    by (vm_compute; reflexivity).
  assert (H5 : 132 <> l_S st + 1) by (vm_compute; discriminate).
  exact (conj H1 (conj H2 (conj H3 (conj H4 (conj H5
    (dup_then_drop st 128 132 H1 H2 H3 H4 H5)))))).
Defined.

(** [5 7 swap]: the machine about to run [swap], whose opcode is at cell
    124. *)
Lemma swap_twice_witness :
  let st := snd (machine_at 10 "5 7 swap") in
  0 <= l_f st < 65536 /\
  0 <= l_S st < CORESZ /\
  rd (core st) (l_S st) = Some 5 /\ 0 <= 5 < 65536 /\
  rd (core st) 124 = Some (code SWAP) /\ 124 <> l_S st /\
  exists st1 st2,
    step (Inner 124) st = Running Fetch st1 /\
    l_f st1 = 5 /\ l_S st1 = l_S st /\ core st1 (l_S st1) = l_f st /\
    step (Inner 124) st1 = Running Fetch st2 /\
    l_f st2 = l_f st /\ l_S st2 = l_S st /\
    forall i, core st2 i = core st i.
Proof.
  intros st.
  assert (H1 : 0 <= l_f st < 65536)
    by (vm_compute; split; [discriminate | reflexivity]).
  assert (H2 : 0 <= l_S st < CORESZ)
    by (vm_compute; split; [discriminate | reflexivity]).
  assert (H3 : rd (core st) (l_S st) = Some 5) by (vm_compute; reflexivity).
  assert (H4 : 0 <= 5 < 65536) by (split; [discriminate | reflexivity]).
  assert (H5 : rd (core st) 124 = Some (code SWAP))
    by (vm_compute; reflexivity).
  assert (H6 : 124 <> l_S st) by (vm_compute; discriminate).
  exact (conj H1 (conj H2 (conj H3 (conj H4 (conj H5 (conj H6
    (swap_twice st 124 5 H1 H2 H3 H4 H5 H6))))))).
Defined.

(** ** A store read back through the other name of its cell *)

(** [32868 7 100 !]: the machine about to run [!], which stores the 7 at
    cell 100 and pops 32868 = 100 + 32768 into the accumulator; the opcode
    of [@] is at cell 52. *)
Lemma store_then_load_witness :
  let st := snd (machine_at 14 "32868 7 100 !") in
  rd (core st) 56 = Some (code STORE) /\
  rd (core st) 52 = Some (code LOAD) /\
  rd (core st) (l_S st) = Some 7 /\
  rd (core st) (l_S st - 1) = Some 32868 /\
  CK 32868 = CK (l_f st) /\
  CK (l_f st) <> l_S st - 1 /\ CK (l_f st) <> 52 /\
  exists st1 st2,
    step (Inner 56) st = Running Fetch st1 /\
    l_f st1 = u16 32868 /\
    step (Inner 52) st1 = Running Fetch st2 /\
    l_f st2 = u16 7 /\ l_S st2 = l_S st - 2 /\
    core st2 = upd (core st) (CK (l_f st)) (u16 7).
Proof.
  intros st.
  assert (H1 : rd (core st) 56 = Some (code STORE))
    by (vm_compute; reflexivity).
  assert (H2 : rd (core st) 52 = Some (code LOAD))
    by (vm_compute; reflexivity).
  assert (H3 : rd (core st) (l_S st) = Some 7) by (vm_compute; reflexivity).
  assert (H4 : rd (core st) (l_S st - 1) = Some 32868)
    by (vm_compute; reflexivity).
  assert (H5 : CK 32868 = CK (l_f st)) by (vm_compute; reflexivity).
  assert (H6 : CK (l_f st) <> l_S st - 1) by (vm_compute; discriminate).
  assert (H7 : CK (l_f st) <> 52) by (vm_compute; discriminate).
  exact (conj H1 (conj H2 (conj H3 (conj H4 (conj H5 (conj H6 (conj H7
    (store_then_load st 56 52 7 32868 H1 H2 H3 H4 H5 H6 H7)))))))).
Defined.

(** ** A block saved and loaded, on the initialised core *)

Lemma block_save_then_load_witness :
  let m := o_m (booted EmptyString) in
  0 <= 64 <= CORESZ - BLKSZ /\
  0 <= 2048 <= CORESZ - BLKSZ /\
  can_create (fs quiet_sys) (block_name 1) = true /\
  BLKSZ <= room (fs quiet_sys) /\
  exists y1 m2,
    blockio m 64 1 119 quiet_sys = (0, m, y1) /\
    stderr y1 = stderr quiet_sys /\
    blockio zero_mem 2048 1 114 y1 = (0, m2, y1) /\
    rd_bytes m2 2048 (Z.to_nat BLKSZ) = rd_bytes m 64 (Z.to_nat BLKSZ) /\
    forall k, k < 2048 \/ 2048 + BLKSZ <= k -> rdb m2 k = rdb zero_mem k.
Proof.
  intros m.
  assert (H1 : 0 <= 64 <= CORESZ - BLKSZ)
    by (split; discriminate).
  assert (H2 : 0 <= 2048 <= CORESZ - BLKSZ)
    by (split; discriminate).
  assert (H3 : can_create (fs quiet_sys) (block_name 1) = true)
    by reflexivity.
  assert (H4 : BLKSZ <= room (fs quiet_sys)) by discriminate.
  exact (conj H1 (conj H2 (conj H3 (conj H4
    (block_save_then_load m zero_mem 64 2048 1 quiet_sys H1 H2 H3 H4))))).
Defined.

(** ** KEY on an exhausted stream *)

(** [key] as the last word of the input: the opcode is at cell 88. *)
Lemma key_tells_end_of_input_witness :
  let st := snd (machine_at 2 "key") in
  rd (core st) 88 = Some (code KEY) /\
  0 <= l_S st + 1 < CORESZ /\
  exists st',
    step (Inner 88) st = Running Fetch st' /\
    l_S st' = l_S st + 1 /\ core st' (l_S st') = u16 (l_f st) /\
    (l_f st' = u16 EOF <-> o_in (obj st) = []) /\
    o_in (obj st') = List.tl (o_in (obj st)) /\
    match o_in (obj st) with
    | [] => True
    | c :: _ => l_f st' = c mod 256
    end.
Proof.
  intros st.
  assert (H1 : rd (core st) 88 = Some (code KEY)) by (vm_compute; reflexivity).
  assert (H2 : 0 <= l_S st + 1 < CORESZ)
    by (vm_compute; split; [discriminate | reflexivity]).
  exact (conj H1 (conj H2 (key_tells_end_of_input st 88 H1 H2))).
Defined.

(** ** The first lookup, on a run *)

Lemma first_lookup_terminates_witness :
  let o := booted "dup" in
  let st1 := the dead_machine (token_read (set_I 35 (enter o quiet_sys))) in
  forth_init (bytes "dup") [] = Some o /\
  token_read (set_I 35 (enter o quiet_sys)) = Some st1 /\
  exists tok w,
    cstr (core st1) (o_s (obj st1)) = Some tok /\
    find (obj st1) = Some w /\
    ((w = 1 /\ Forall (fun v => name_of (obj st1) v <> tok) init_entries) \/
     (exists pre post,
        init_entries = pre ++ w :: post /\ name_of (obj st1) w = tok /\
        Forall (fun v => name_of (obj st1) v <> tok) pre)).
Proof.
  intros o st1.
  assert (H1 : forth_init (bytes "dup") [] = Some o)
    by (vm_compute; reflexivity).
  assert (H2 : token_read (set_I 35 (enter o quiet_sys)) = Some st1)
    by (vm_compute; reflexivity).
  exact (conj H1 (conj H2
    (first_lookup_terminates (bytes "dup") [] o quiet_sys st1 H1 H2))).
Defined.

(** ** A definition, on runs *)

(** [: foo foo]: the machine about to run [:], whose tag is at cell 38. *)
Lemma defined_word_is_found_witness :
  let st := snd (machine_at 2 ": foo foo") in
  dictionary (obj st) init_entries /\
  32 <= core st DICTIONARY /\ core st DICTIONARY + 4 <= 8192 /\
  32 <= o_t (obj st) /\ o_t (obj st) + 32 < 49152 /\
  rd (core st) 38 = Some (code DEFINE) /\
  scan_token (o_in (obj st)) = Some (bytes "foo", bytes " foo") /\
  Forall (fun b => b mod 256 <> 0) (bytes "foo") /\
  scan_token (bytes " foo") = Some (bytes "foo", []) /\
  map (fun b => b mod 256) (bytes "foo")
  = map (fun b => b mod 256) (bytes "foo") /\
  exists st' st1,
    step (Inner 38) st = Running Fetch st' /\
    dictionary (obj st') (core st DICTIONARY :: init_entries) /\
    name_of (obj st') (core st DICTIONARY)
    = map (fun b => b mod 256) (bytes "foo") /\
    core st' (core st DICTIONARY + 2) = code COMPILE /\
    core st' STATE = 1 /\
    token_read st' = Some st1 /\
    find (obj st1) = Some (core st DICTIONARY).
Proof.
  intros st.
  assert (H1 : dictionary (obj st) init_entries).
  { refine (conj _ (conj _ _)).
    - apply dictb_sound. vm_compute. reflexivity.
    - vm_compute. reflexivity.
    - vm_compute. reflexivity. }
  assert (H2 : 32 <= core st DICTIONARY) by (vm_compute; discriminate).
  assert (H3 : core st DICTIONARY + 4 <= 8192) by (vm_compute; discriminate).
  assert (H4 : 32 <= o_t (obj st)) by (vm_compute; discriminate).
  assert (H5 : o_t (obj st) + 32 < 49152) by (vm_compute; reflexivity).
  assert (H6 : rd (core st) 38 = Some (code DEFINE))
    by (vm_compute; reflexivity).
  assert (H7 : scan_token (o_in (obj st)) = Some (bytes "foo", bytes " foo"))
    by (vm_compute; reflexivity).
  assert (H8 : Forall (fun b => b mod 256 <> 0) (bytes "foo"))
    by (repeat constructor; discriminate).
  assert (H9 : scan_token (bytes " foo") = Some (bytes "foo", []))
    by (vm_compute; reflexivity).
  assert (H10 : map (fun b => b mod 256) (bytes "foo")
                = map (fun b => b mod 256) (bytes "foo")) by reflexivity.
  exact (conj H1 (conj H2 (conj H3 (conj H4 (conj H5 (conj H6 (conj H7
    (conj H8 (conj H9 (conj H10
    (defined_word_is_found st 38 init_entries (bytes "foo") (bytes " foo")
       (bytes "foo") [] H1 H2 H3 H4 H5 H6 H7 H8 H9 H10))))))))))).
Defined.

(** [: foo immediate]: the machine about to run [immediate], whose tag is
    at cell 41, with the free pointer at 149 after the header of [foo]. *)
Lemma immediate_retags_witness :
  let st := snd (machine_at 7 ": foo immediate") in
  rd (core st) 41 = Some (code IMMEDIATE) /\
  core st DICTIONARY = 149 /\
  2 < 149 < CORESZ /\
  exists st',
    step (Inner 41) st = Running Fetch st' /\
    core st' DICTIONARY = 149 - 1 /\
    core st' (149 - 2) = code RUN /\
    (forall i, i <> DICTIONARY -> i <> 149 - 2 -> core st' i = core st i) /\
    l_S st' = l_S st /\ l_I st' = l_I st /\ l_f st' = l_f st.
Proof.
  intros st.
  assert (H1 : rd (core st) 41 = Some (code IMMEDIATE))
    by (vm_compute; reflexivity).
  assert (H2 : core st DICTIONARY = 149) by (vm_compute; reflexivity).
  assert (H3 : 2 < 149 < CORESZ) by (split; reflexivity).
  exact (conj H1 (conj H2 (conj H3 (immediate_retags st 41 149 H1 H2 H3)))).
Defined.

(** A lone [:]: the machine about to run it, on the exhausted stream. *)
Lemma define_at_end_of_input_witness :
  let st := snd (machine_at 2 ":") in
  rd (core st) 38 = Some (code DEFINE) /\
  core st DICTIONARY = 145 /\ 32 <= 145 /\ 145 + 3 <= 8192 /\
  o_s (obj st) = STROFF /\ 0 <= o_L (obj st) < 65536 /\
  32 <= o_t (obj st) /\ o_t (obj st) + 32 < 49152 /\
  scan_token (o_in (obj st)) = None /\
  rdb (core st) (o_s (obj st) + o_t (obj st)) = Some 0 /\
  exists o',
    step (Inner 38) st = Returned (-1) o' (env st) /\
    o_invalid o' = true /\
    o_m o' DICTIONARY = 145 + 3 /\ o_L o' = 145 /\
    o_m o' 145 = o_L (obj st) /\ o_m o' (145 + 1) = o_t (obj st) /\
    o_m o' (145 + 2) = code COMPILE /\
    o_m o' STATE = 1 /\ o_t o' = o_t (obj st) + 1 /\ o_in o' = [].
Proof.
  intros st.
  assert (H1 : rd (core st) 38 = Some (code DEFINE))
    by (vm_compute; reflexivity).
  assert (H2 : core st DICTIONARY = 145) by (vm_compute; reflexivity).
  assert (H3 : 32 <= 145) by discriminate.
  assert (H4 : 145 + 3 <= 8192) by discriminate.
  assert (H5 : o_s (obj st) = STROFF) by (vm_compute; reflexivity).
  assert (H6 : 0 <= o_L (obj st) < 65536)
    by (vm_compute; split; [discriminate | reflexivity]).
  assert (H7 : 32 <= o_t (obj st)) by (vm_compute; discriminate).
  assert (H8 : o_t (obj st) + 32 < 49152) by (vm_compute; reflexivity).
  assert (H9 : scan_token (o_in (obj st)) = None)
    by (vm_compute; reflexivity).
  assert (H10 : rdb (core st) (o_s (obj st) + o_t (obj st)) = Some 0)
    by (vm_compute; reflexivity).
  exact (conj H1 (conj H2 (conj H3 (conj H4 (conj H5 (conj H6 (conj H7
    (conj H8 (conj H9 (conj H10
    (define_at_end_of_input st 38 145
       H1 H2 H3 H4 H5 H6 H7 H8 H9 H10))))))))))).
Defined.

(** ** The compile mode, on runs *)

(** [: foo dup]: READ has stored the token [dup] in compile mode; the entry
    of [dup] is at cell 125 and the free pointer at 149. *)
Lemma compiled_word_runs_body_witness :
  let st1 := read_at 6 ": foo dup" in
  find (obj st1) = Some 125 /\ 125 <> 1 /\
  0 <= 125 /\ 125 + 3 < 65536 /\
  core st1 STATE <> 0 /\
  rd (core st1) (125 + 2) = Some (code COMPILE) /\
  core st1 DICTIONARY = 149 /\ 0 < 149 /\ 149 + 1 < CORESZ /\
  exists st2,
    dispatch st1 = Running (Inner (125 + 2)) st1 /\
    step (Inner (125 + 2)) st1 = Running Fetch st2 /\
    core st2 DICTIONARY = 149 + 1 /\ core st2 149 = 125 + 3 /\
    step Fetch (set_I 149 st2)
    = Running (Inner (125 + 3)) (set_I (149 + 1) st2).
Proof.
  intros st1.
  assert (H1 : find (obj st1) = Some 125) by (vm_compute; reflexivity).
  assert (H2 : 125 <> 1) by discriminate.
  assert (H3 : 0 <= 125) by discriminate.
  assert (H4 : 125 + 3 < 65536) by reflexivity.
  assert (H5 : core st1 STATE <> 0) by (vm_compute; discriminate).
  assert (H6 : rd (core st1) (125 + 2) = Some (code COMPILE))
    by (vm_compute; reflexivity).
  assert (H7 : core st1 DICTIONARY = 149) by (vm_compute; reflexivity).
  assert (H8 : 0 < 149) by reflexivity.
  assert (H9 : 149 + 1 < CORESZ) by reflexivity.
  exact (conj H1 (conj H2 (conj H3 (conj H4 (conj H5 (conj H6 (conj H7
    (conj H8 (conj H9
    (compiled_word_runs_body st1 125 149
       H1 H2 H3 H4 H5 H6 H7 H8 H9)))))))))).
Defined.

(** [: foo 7]: READ has stored the token [7] in compile mode; the machine
    that executes the two cells is the one the dispatch leaves, with [I]
    at the first of them. *)
Lemma compiled_literal_pushes_witness :
  let st1 := read_at 6 ": foo 7 " in
  let st3 := set_I 149 (the dead_machine (after_dispatch st1)) in
  find (obj st1) = Some 1 /\
  cstr (core st1) (o_s (obj st1)) = Some (bytes "7") /\
  isnum (bytes "7") = true /\
  core st1 STATE <> 0 /\
  core st1 DICTIONARY = 149 /\ 2 < 149 /\ 149 + 2 < CORESZ /\
  clear_of (o_s (obj st1)) (bytes "7") DICTIONARY /\
  clear_of (o_s (obj st1)) (bytes "7") 149 /\
  core st3 149 = 2 /\ core st3 (149 + 1) = u16 (strtol0 (bytes "7")) /\
  core st3 2 = 0 /\
  l_I st3 = 149 /\ 2 < l_S st3 + 1 < CORESZ /\
  l_S st3 + 1 <> 149 + 1 /\
  exists st2 st4,
    dispatch st1 = Running Fetch st2 /\
    core st2 DICTIONARY = 149 + 2 /\
    core st2 149 = 2 /\ core st2 (149 + 1) = u16 (strtol0 (bytes "7")) /\
    run 2 Fetch st3 = Running Fetch st4 /\
    l_f st4 = u16 (strtol0 (bytes "7")) /\
    l_S st4 = l_S st3 + 1 /\ core st4 (l_S st4) = u16 (l_f st3) /\
    l_I st4 = 149 + 2.
Proof.
  intros st1 st3.
  assert (H1 : find (obj st1) = Some 1) by (vm_compute; reflexivity).
  assert (H2 : cstr (core st1) (o_s (obj st1)) = Some (bytes "7"))
    by (vm_compute; reflexivity).
  assert (H3 : isnum (bytes "7") = true) by (vm_compute; reflexivity).
  assert (H4 : core st1 STATE <> 0) by (vm_compute; discriminate).
  assert (H5 : core st1 DICTIONARY = 149) by (vm_compute; reflexivity).
  assert (H6 : 2 < 149) by reflexivity.
  assert (H7 : 149 + 2 < CORESZ) by reflexivity.
  assert (K1 : clear_of (o_s (obj st1)) (bytes "7") DICTIONARY)
    by (left; vm_compute; reflexivity).
  assert (K2 : clear_of (o_s (obj st1)) (bytes "7") 149)
    by (left; vm_compute; reflexivity).
  assert (H8 : core st3 149 = 2) by (vm_compute; reflexivity).
  assert (H9 : core st3 (149 + 1) = u16 (strtol0 (bytes "7")))
    by (vm_compute; reflexivity).
  assert (H10 : core st3 2 = 0) by (vm_compute; reflexivity).
  assert (H11 : l_I st3 = 149) by reflexivity.
  assert (H12 : 2 < l_S st3 + 1 < CORESZ)
    by (vm_compute; split; reflexivity).
  assert (H13 : l_S st3 + 1 <> 149 + 1) by (vm_compute; discriminate).
  exact (conj H1 (conj H2 (conj H3 (conj H4 (conj H5 (conj H6 (conj H7
    (conj K1 (conj K2
    (conj H8 (conj H9 (conj H10 (conj H11 (conj H12 (conj H13
    (compiled_literal_pushes st1 st3 (bytes "7") 149
       H1 H2 H3 H4 H5 H6 H7 K1 K2
       H8 H9 H10 H11 H12 H13)))))))))))))))).
Defined.

(** ** Numbers and block names, on values *)

Lemma printed_number_reads_back_witness :
  65535 <= LONG_MAX /\
  0 <= 255 < 65536 /\
  (isnum (fmt_u 255) = true /\ strtol0 (fmt_u 255) = 255) /\
  (10 <= 255 -> isnum (fmt_X 255) = false \/ strtol0 (fmt_X 255) <> 255).
Proof.
  assert (H1 : 65535 <= LONG_MAX) by discriminate.
  assert (H2 : 0 <= 255 < 65536) by (split; [discriminate | reflexivity]).
  exact (conj H1 (conj H2 (printed_number_reads_back 255 H1 H2))).
Defined.

Lemma block_names_differ_witness :
  0 <= 1 < 65536 /\ 0 <= 1 < 65536 /\
  String.length (block_name 1) = 8%nat /\
  (block_name 1 = block_name 1 -> 1 = 1).
Proof.
  assert (H1 : 0 <= 1 < 65536) by (split; [discriminate | reflexivity]).
  exact (conj H1 (conj H1 (block_names_differ 1 1 H1 H1))).
Defined.

(** ** A cell that holds no opcode, on a run *)

(** [99 48 ! read]: the body of [read], cell 48, holds 99 when [read] is
    run. *)
Lemma opcode_out_of_range_sets_latch_witness :
  let st := snd (machine_at 15 "99 48 ! read") in
  rd (core st) 48 = Some 99 /\
  code LAST <= 99 /\
  step (Inner 48) st
  = Returned (-1) (set_invalid true (obj st))
      (mksys (stderr (env st) ++ warn_text "unknown instruction" 205)
             (fs (env st))).
Proof.
  intros st.
  assert (H1 : rd (core st) 48 = Some 99) by (vm_compute; reflexivity).
  assert (H2 : code LAST <= 99) by discriminate.
  exact (conj H1 (conj H2 (opcode_out_of_range_sets_latch st 48 99 H1 H2))).
Defined.

(** ** A tail call, on a run *)

(** The machine about to run [tail], whose opcode is at cell 136; the RUN
    of the bootstrap word is at cell 33. *)
Lemma tail_then_call_keeps_depth_witness :
  let st := snd (machine_at 2 "tail") in
  rd (core st) 136 = Some (code TAIL) /\
  rd (core st) 33 = Some (code RUN) /\
  core st RSTK = 32255 /\ 1 < 32255 < CORESZ /\
  33 <> RSTK /\ 0 <= 33 /\ 33 + 1 < 65536 /\
  0 <= l_I st < 65536 /\
  exists st1 st2,
    step (Inner 136) st = Running Fetch st1 /\
    core st1 RSTK = 32255 - 1 /\
    step (Inner 33) st1 = Running Fetch st2 /\
    core st2 RSTK = 32255 /\ core st2 32255 = l_I st /\ l_I st2 = 33 + 1 /\
    l_S st2 = l_S st /\ l_f st2 = l_f st /\
    forall i, i <> 32255 -> core st2 i = core st i.
Proof.
  intros st.
  assert (H1 : rd (core st) 136 = Some (code TAIL))
    by (vm_compute; reflexivity).
  assert (H2 : rd (core st) 33 = Some (code RUN)) by (vm_compute; reflexivity).
  assert (H3 : core st RSTK = 32255) by (vm_compute; reflexivity).
  assert (H4 : 1 < 32255 < CORESZ) by (split; reflexivity).
  assert (H5 : 33 <> RSTK) by discriminate.
  assert (H6 : 0 <= 33) by discriminate.
  assert (H7 : 33 + 1 < 65536) by reflexivity.
  assert (H8 : 0 <= l_I st < 65536)
    by (vm_compute; split; [discriminate | reflexivity]).
  exact (conj H1 (conj H2 (conj H3 (conj H4 (conj H5 (conj H6 (conj H7
    (conj H8
    (tail_then_call_keeps_depth st 136 33 32255
       H1 H2 H3 H4 H5 H6 H7 H8))))))))).
Defined.

(** ** One iteration of the outer loop, on runs *)

(** The word [+] met in execute mode. *)
Lemma quiet_word_iteration_witness :
  let st := boot_machine "+ " in
  let st1 := read_at 1 "+ " in
  bootstrap_word (core st) /\ l_I st = 34 /\ o_s (obj st) = STROFF /\
  0 <= core st RSTK < CORESZ /\ core st RSTK <> RSTK /\
  token_read (set_I 35 st) = Some st1 /\
  find (obj st1) = Some 61 /\ 61 <> 1 /\
  core st1 STATE = 0 /\
  rd (core st1) (u16 (61 + 2)) = Some (code COMPILE) /\
  rd (core st1) (u16 (u16 (61 + 2) + 1)) = Some (code ADD) /\
  quiet ADD = true /\
  step (Inner (u16 (u16 (61 + 2) + 1))) st1 <> Undefined /\
  exists st2,
    step (Inner (u16 (u16 (61 + 2) + 1))) st1 = Running Fetch st2 /\
    l_I st2 = 35 /\ core st2 = core st1 /\
    core st2 RSTK = u16 (core st RSTK - 1) /\
    run 3 Fetch st = Running Fetch st2 /\
    run 5 Fetch st = Running Fetch (after_call (core st RSTK) st2) /\
    l_I (after_call (core st RSTK) st2) = 34 /\
    core (after_call (core st RSTK) st2) RSTK = core st RSTK.
Proof.
  intros st st1.
  assert (H1 : bootstrap_word (core st))
    by (refine (conj _ (conj _ (conj _ _))); vm_compute; reflexivity).
  assert (H2 : l_I st = 34) by (vm_compute; reflexivity).
  assert (H3 : o_s (obj st) = STROFF) by (vm_compute; reflexivity).
  assert (H4 : 0 <= core st RSTK < CORESZ)
    by (vm_compute; split; [discriminate | reflexivity]).
  assert (H5 : core st RSTK <> RSTK) by (vm_compute; discriminate).
  assert (H6 : token_read (set_I 35 st) = Some st1)
    by (vm_compute; reflexivity).
  assert (H7 : find (obj st1) = Some 61) by (vm_compute; reflexivity).
  assert (H8 : 61 <> 1) by discriminate.
  assert (H9 : core st1 STATE = 0) by (vm_compute; reflexivity).
  assert (H10 : rd (core st1) (u16 (61 + 2)) = Some (code COMPILE))
    by (vm_compute; reflexivity).
  assert (H11 : rd (core st1) (u16 (u16 (61 + 2) + 1)) = Some (code ADD))
    by (vm_compute; reflexivity).
  assert (H12 : quiet ADD = true) by reflexivity.
  assert (H13 : step (Inner (u16 (u16 (61 + 2) + 1))) st1 <> Undefined)
    by (vm_compute; discriminate).
  exact (conj H1 (conj H2 (conj H3 (conj H4 (conj H5 (conj H6 (conj H7
    (conj H8 (conj H9 (conj H10 (conj H11 (conj H12 (conj H13
    (quiet_word_iteration st st1 61 ADD
       H1 H2 H3 H4 H5 H6 H7 H8 H9 H10 H11 H12 H13)))))))))))))).
Defined.

(** The number [7] met in execute mode. *)
Lemma number_iteration_witness :
  let st := boot_machine "7 " in
  let st1 := read_at 1 "7 " in
  bootstrap_word (core st) /\ l_I st = 34 /\ o_s (obj st) = STROFF /\
  0 <= core st RSTK < CORESZ /\ core st RSTK <> RSTK /\
  token_read (set_I 35 st) = Some st1 /\
  find (obj st1) = Some 1 /\
  cstr (core st1) (o_s (obj st1)) = Some (bytes "7") /\
  isnum (bytes "7") = true /\
  core st1 STATE = 0 /\
  35 < l_S st1 + 1 < CORESZ /\
  clear_of (o_s (obj st1)) (bytes "7") (l_S st1 + 1) /\
  let st2 := set_f (strtol0 (bytes "7"))
               (set_S (l_S st1 + 1)
                  (set_core (upd (core st1) (l_S st1 + 1) (u16 (l_f st1)))
                            st1)) in
  run 2 Fetch st = Running Fetch st2 /\
  core st2 RSTK = u16 (core st RSTK - 1) /\
  run 4 Fetch st = Running Fetch (after_call (core st RSTK) st2) /\
  l_I (after_call (core st RSTK) st2) = 34 /\
  core (after_call (core st RSTK) st2) RSTK = core st RSTK.
Proof.
  intros st st1.
  assert (H1 : bootstrap_word (core st))
    by (refine (conj _ (conj _ (conj _ _))); vm_compute; reflexivity).
  assert (H2 : l_I st = 34) by (vm_compute; reflexivity).
  assert (H3 : o_s (obj st) = STROFF) by (vm_compute; reflexivity).
  assert (H4 : 0 <= core st RSTK < CORESZ)
    by (vm_compute; split; [discriminate | reflexivity]).
  assert (H5 : core st RSTK <> RSTK) by (vm_compute; discriminate).
  assert (H6 : token_read (set_I 35 st) = Some st1)
    by (vm_compute; reflexivity).
  assert (H7 : find (obj st1) = Some 1) by (vm_compute; reflexivity).
  assert (H8 : cstr (core st1) (o_s (obj st1)) = Some (bytes "7"))
    by (vm_compute; reflexivity).
  assert (H9 : isnum (bytes "7") = true) by (vm_compute; reflexivity).
  assert (H10 : core st1 STATE = 0) by (vm_compute; reflexivity).
  assert (H11 : 35 < l_S st1 + 1 < CORESZ)
    by (vm_compute; split; reflexivity).
  assert (H12 : clear_of (o_s (obj st1)) (bytes "7") (l_S st1 + 1))
    by (right; vm_compute; reflexivity).
  exact (conj H1 (conj H2 (conj H3 (conj H4 (conj H5 (conj H6 (conj H7
    (conj H8 (conj H9 (conj H10 (conj H11 (conj H12
    (number_iteration st st1 (bytes "7")
       H1 H2 H3 H4 H5 H6 H7 H8 H9 H10 H11 H12))))))))))))).
Defined.
